(** * The DDR blob reader (ddr/tools/blob_reader/blob_reader.cpp)

    A shallow embedding of the blob reader and the properties of its
    decoder.  The program reads a file into a heap buffer, overlays
    fixed-size records on the raw bytes and, when the blob was written
    with the other byte order, swaps every multi-byte field where it
    lies.

    Conventions of the model:
    - memory is a list of bytes; an address is an offset (a [Z]) from the
      start of the object;  an access outside the object is undefined
      behaviour in C and is the outcome [Fault] here;
    - the host is LP64 ([size_t] and pointers are 64 bits wide), so no
      address computation of the program wraps; its byte order is a
      parameter [host], and it reads and writes integers at any address,
      aligned or not;
    - [uint32_t] loop counters wrap at [2^32];
    - heap allocation succeeds, and the file named on the command line
      has been opened: [main] takes the content of the file. *)

From Stdlib Require Import ZArith List Bool Lia Sorted.
From Stdlib.Strings Require Import Byte.
From stdpp Require Import base option list strings.
Import ListNotations.

Open Scope Z_scope.

(** ** Bytes and memory *)

Abbreviation memory := (list byte).

Definition byte_val (b : byte) : Z := Z.of_N (Byte.to_N b).

Definition is_nul (b : byte) : bool := Byte.eqb b x00.

(** [in_bounds m a n]: the [n] bytes at address [a] lie inside [m]. *)
Definition in_bounds (m : memory) (a n : Z) : bool :=
  (0 <=? a) && (a + n <=? Z.of_nat (length m)).

Definition load_u8 (m : memory) (a : Z) : option byte :=
  if in_bounds m a 1 then m !! Z.to_nat a else None.

Definition store_u8 (m : memory) (a : Z) (b : byte) : option memory :=
  if in_bounds m a 1 then Some (<[Z.to_nat a := b]> m) else None.

Definition load_bytes (m : memory) (a : Z) (n : nat) : option (list byte) :=
  if in_bounds m a (Z.of_nat n)
  then Some (take n (drop (Z.to_nat a) m))
  else None.

(** The bytes from address [a] to the end of the object (none when [a]
    is outside of it). *)
Definition bytes_from (m : memory) (a : Z) : list byte :=
  if in_bounds m a 0 then drop (Z.to_nat a) m else [].

(** [reverse_range m a n]: [m] with the [n] bytes at address [a] in
    reverse order. *)
Definition reverse_range (m : memory) (a : Z) (n : nat) : memory :=
  take (Z.to_nat a) m ++ reverse (take n (drop (Z.to_nat a) m))
    ++ drop (Z.to_nat a + n) m.

(** Two memories that agree outside of the [n] bytes at [a]. *)
Definition same_outside (m m' : memory) (a n : Z) : Prop :=
  length m' = length m /\
  forall i : nat, Z.of_nat i < a \/ a + n <= Z.of_nat i -> m' !! i = m !! i.

(** ** Integers in memory *)

Inductive byte_order := LittleEndian | BigEndian.

#[global] Instance byte_order_eq_dec : EqDecision byte_order.
Proof. solve_decision. Defined.

Definition opposite (o : byte_order) : byte_order :=
  match o with LittleEndian => BigEndian | BigEndian => LittleEndian end.

(** Value of a byte sequence, least significant byte first. *)
Fixpoint le_value (bs : list byte) : Z :=
  match bs with
  | [] => 0
  | b :: t => byte_val b + 256 * le_value t
  end.

Definition value_of (o : byte_order) (bs : list byte) : Z :=
  match o with
  | LittleEndian => le_value bs
  | BigEndian => le_value (reverse bs)
  end.

Definition load_uint (o : byte_order) (n : nat) (m : memory) (a : Z) : option Z :=
  value_of o <$> load_bytes m a n.

Definition load_u16 := fun o => load_uint o 2.
Definition load_u32 := fun o => load_uint o 4.
Definition load_u64 := fun o => load_uint o 8.

(** The [n] bytes that represent [v] in byte order [o] (used to build
    test blobs). *)
Fixpoint le_bytes (n : nat) (v : Z) : list byte :=
  match n with
  | O => []
  | S n' =>
      match Byte.of_N (Z.to_N (v mod 256)) with
      | Some b => b
      | None => x00
      end :: le_bytes n' (v / 256)
  end.

Definition bytes_of (o : byte_order) (n : nat) (v : Z) : list byte :=
  match o with
  | LittleEndian => le_bytes n v
  | BigEndian => reverse (le_bytes n v)
  end.

Definition wrap32 (v : Z) : Z := v mod 2 ^ 32.

(** ** The byte-swap primitives (lines 36-60) *)

Definition swap_bytes (m : memory) (left right : Z) : option memory :=
  temp ← load_u8 m left;
  r ← load_u8 m right;
  m1 ← store_u8 m left r;
  store_u8 m1 right temp.

Definition swap_u16 (m : memory) (value : Z) : option memory :=
  swap_bytes m value (value + 1).

Definition swap_u32 (m : memory) (value : Z) : option memory :=
  m1 ← swap_bytes m value (value + 3);
  swap_bytes m1 (value + 1) (value + 2).

(** ** Layout of the on-disk records (lines 62-138) *)

Module BlobHeaderV1.
Definition sizeof : Z := 20.
Definition coreVersion : Z := 0.
Definition sizeofBool : Z := 4.
Definition sizeofUDATA : Z := 5.
Definition bitfieldFormat : Z := 6.
Definition padding : Z := 7.
Definition structDataSize : Z := 8.
Definition stringTableDataSize : Z := 12.
Definition structureCount : Z := 16.

Definition endian_swap (m : memory) (this : Z) : option memory :=
  m1 ← swap_u32 m (this + coreVersion);
  m2 ← swap_u32 m1 (this + structDataSize);
  m3 ← swap_u32 m2 (this + stringTableDataSize);
  swap_u32 m3 (this + structureCount).
End BlobHeaderV1.

Module BlobString.
Definition length : Z := 0.
Definition data : Z := 2.
Definition sizeof_length : Z := 2.

Definition endian_swap (m : memory) (this : Z) : option memory :=
  swap_u16 m (this + length).
End BlobString.

Module BlobStruct.
Definition sizeof : Z := 20.
Definition nameOffset : Z := 0.
Definition superName : Z := 4.
Definition sizeOf : Z := 8.
Definition fieldCount : Z := 12.
Definition constCount : Z := 16.

Definition endian_swap (m : memory) (this : Z) : option memory :=
  m1 ← swap_u32 m (this + nameOffset);
  m2 ← swap_u32 m1 (this + superName);
  m3 ← swap_u32 m2 (this + sizeOf);
  m4 ← swap_u32 m3 (this + fieldCount);
  swap_u32 m4 (this + constCount).
End BlobStruct.

Module BlobField.
Definition sizeof : Z := 12.
Definition declaredName : Z := 0.
Definition declaredType : Z := 4.
Definition offset : Z := 8.

Definition endian_swap (m : memory) (this : Z) : option memory :=
  m1 ← swap_u32 m (this + declaredName);
  m2 ← swap_u32 m1 (this + declaredType);
  swap_u32 m2 (this + offset).
End BlobField.

Module BlobConstant.
Definition sizeof : Z := 12.
Definition name : Z := 0.
Definition value : Z := 4.

Definition endian_swap (m : memory) (this : Z) : option memory :=
  m1 ← swap_u32 m (this + name);
  let bytes := this + value in
  m2 ← swap_bytes m1 (bytes + 0) (bytes + 7);
  m3 ← swap_bytes m2 (bytes + 1) (bytes + 6);
  m4 ← swap_bytes m3 (bytes + 2) (bytes + 5);
  swap_bytes m4 (bytes + 3) (bytes + 4).
End BlobConstant.

(** ** The decoded entities (lines 143-182)

    A [char *] into the blob buffer is the address it points to; the
    [NULL] super name is [None]. *)

Module Field.
Record t := mk {
  name : Z;
  nameLength : Z;
  type : Z;
  typeLength : Z;
  offset : Z
}.
End Field.

Module Constant.
Record t := mk {
  name : Z;
  nameLength : Z;
  value : Z
}.
End Constant.

Module Structure.
Record t := mk {
  name : Z;
  nameLength : Z;
  superName : option Z;
  superNameLength : Z;
  size : Z;
  fields : list Field.t;
  constants : list Constant.t
}.
End Structure.

(** ** What the program prints

    One event per [printf] or [ERRMSG] call, with the values of its
    arguments; a [%.*s] argument is the bytes it prints. *)

Inductive event :=
| Err_read_header (rb expected : Z)
| Err_read_data (rb expected : Z)
| Out_header (coreVersion sizeofBool sizeofUDATA bitfieldFormat
              structDataSize stringTableDataSize structureCount : Z)
| Out_strings_title
| Out_string (stringNum offset length : Z) (data : list byte)
| Out_structs_title
| Out_struct_name (name : list byte)
| Out_no_superName
| Out_superName (superName : list byte)
| Out_struct_sizes (sizeOf fieldCount constCount : Z)
| Out_field (declaredName declaredType : list byte) (offset : Z)
| Out_constant (name : list byte) (value : Z).

(** ** Program state and the monad of the decoder

    [blobHdrV1] is the header object on the stack of [main], [blobBuffer]
    the heap copy of the file.  A computation ends with a value, with an
    access outside an object ([Fault]), or because the model ran out of
    fuel ([Timeout]; the loops are given enough fuel never to do so). *)

Record state := mkState {
  blobHdrV1 : memory;
  blobBuffer : memory;
  output : list event
}.

Inductive outcome (A : Type) :=
| Done (a : A) (s : state)
| Fault
| Timeout.
Arguments Done {A} a s.
Arguments Fault {A}.
Arguments Timeout {A}.

Definition M (A : Type) : Type := state -> outcome A.

#[global] Instance M_ret : MRet M := fun A (a : A) s => Done a s.

#[global] Instance M_bind : MBind M := fun A B (k : A -> M B) (c : M A) s =>
  match c s with
  | Done a s' => k a s'
  | Fault => Fault
  | Timeout => Timeout
  end.

Definition timeout {A} : M A := fun _ => Timeout.

Definition of_option {A} (f : state -> option A) : M A :=
  fun s => match f s with Some a => Done a s | None => Fault end.

Definition when (b : bool) (c : M unit) : M unit :=
  if b then c else mret tt.

Definition printf (e : event) : M unit :=
  fun s => Done tt (mkState (blobHdrV1 s) (blobBuffer s) (output s ++ [e])).

(** Reads and in-place updates of the header object. *)
Definition hdr_u8 (field : Z) : M Z :=
  of_option (fun s => byte_val <$> load_u8 (blobHdrV1 s) field).

Definition hdr_u32 (host : byte_order) (field : Z) : M Z :=
  of_option (fun s => load_u32 host (blobHdrV1 s) field).

Definition hdr_update (f : memory -> option memory) : M unit :=
  fun s =>
    match f (blobHdrV1 s) with
    | Some h => Done tt (mkState h (blobBuffer s) (output s))
    | None => Fault
    end.

(** Reads and in-place updates of the blob buffer. *)
Definition buf_u16 (host : byte_order) (a : Z) : M Z :=
  of_option (fun s => load_u16 host (blobBuffer s) a).

Definition buf_u32 (host : byte_order) (a : Z) : M Z :=
  of_option (fun s => load_u32 host (blobBuffer s) a).

Definition buf_u64 (host : byte_order) (a : Z) : M Z :=
  of_option (fun s => load_u64 host (blobBuffer s) a).

Definition buf_update (f : memory -> option memory) : M unit :=
  fun s =>
    match f (blobBuffer s) with
    | Some b => Done tt (mkState (blobHdrV1 s) b (output s))
    | None => Fault
    end.

(** The loops of the decoder are given the size of the buffer (plus
    one) as fuel: every iteration consumes at least two bytes of it. *)
Definition loop_fuel : M nat :=
  fun s => Done (S (length (blobBuffer s))) s.

(** [%.*s]: at most [precision] bytes of the array [s], up to a NUL
    (the precisions of the program are lengths, never negative); [None]
    when it reads beyond the end of the array. *)
Fixpoint printf_s (s : list byte) (precision : Z) : option (list byte) :=
  if precision <=? 0 then Some []
  else
    match s with
    | [] => None
    | c :: t =>
        if is_nul c then Some []
        else cons c <$> printf_s t (precision - 1)
    end.

Definition buf_string (a precision : Z) : M (list byte) :=
  of_option (fun s => printf_s (bytes_from (blobBuffer s) a) precision).

(** [fread] of [n] bytes from the start of the file. *)
Fixpoint fread (file : list byte) (n : Z) : list byte :=
  match file with
  | [] => []
  | b :: t => if n <=? 0 then [] else b :: fread t (n - 1)
  end.

(** ** Reading the strings (lines 253-281) *)

(** One iteration of the loop over the string table; the result is the
    new value of [currentString]. *)
Definition read_string (host : byte_order) (swapsNeeded : bool)
    (stringDataStart currentString stringNum : Z) : M Z :=
  let blobString := currentString in
  when swapsNeeded (buf_update (fun m => BlobString.endian_swap m blobString));;
  length ← buf_u16 host (blobString + BlobString.length);
  let padding := Z.land length 1 in
  data ← buf_string (blobString + BlobString.data) length;
  printf (Out_string stringNum (currentString - stringDataStart) length data);;
  mret (currentString + (length + BlobString.sizeof_length + padding)).

Fixpoint read_strings_loop (fuel : nat) (host : byte_order) (swapsNeeded : bool)
    (stringDataStart stringDataEnd currentString stringNum : Z) : M unit :=
  match fuel with
  | O => timeout
  | S fuel' =>
      if currentString <? stringDataEnd then
        next ← read_string host swapsNeeded stringDataStart currentString stringNum;
        read_strings_loop fuel' host swapsNeeded stringDataStart stringDataEnd
          next (wrap32 (stringNum + 1))
      else mret tt
  end.

Definition read_strings (host : byte_order) (swapsNeeded : bool)
    (stringDataStart stringDataEnd : Z) : M unit :=
  fuel ← loop_fuel;
  read_strings_loop fuel host swapsNeeded stringDataStart stringDataEnd
    stringDataStart 1.

(** ** Reading the structures (lines 287-362) *)

Definition BLOBSTRING_AT (stringDataStart offset : Z) : Z :=
  stringDataStart + offset.

(** One iteration of the loop over the fields of a structure. *)
Definition read_field (host : byte_order) (swapsNeeded : bool)
    (stringDataStart currentStruct : Z) : M (Field.t * Z) :=
  let blobField := currentStruct in
  when swapsNeeded (buf_update (fun m => BlobField.endian_swap m blobField));;
  let currentStruct := currentStruct + BlobField.sizeof in
  declaredName ← buf_u32 host (blobField + BlobField.declaredName);
  let name := BLOBSTRING_AT stringDataStart declaredName + BlobString.data in
  nameLength ← buf_u16 host
    (BLOBSTRING_AT stringDataStart declaredName + BlobString.length);
  declaredType ← buf_u32 host (blobField + BlobField.declaredType);
  let type := BLOBSTRING_AT stringDataStart declaredType + BlobString.data in
  typeLength ← buf_u16 host
    (BLOBSTRING_AT stringDataStart declaredType + BlobString.length);
  offset ← buf_u32 host (blobField + BlobField.offset);
  mret (Field.mk name nameLength type typeLength offset, currentStruct).

(** The loop over the fields: [blobStruct->fieldCount] is read from the
    buffer at every test of the loop condition. *)
Fixpoint read_fields_loop (fuel : nat) (host : byte_order) (swapsNeeded : bool)
    (stringDataStart blobStruct currentStruct fieldCount : Z)
    (fields : list Field.t) : M (list Field.t * Z) :=
  match fuel with
  | O => timeout
  | S fuel' =>
      n ← buf_u32 host (blobStruct + BlobStruct.fieldCount);
      if fieldCount <=? n then
        '(field, next) ← read_field host swapsNeeded stringDataStart currentStruct;
        read_fields_loop fuel' host swapsNeeded stringDataStart blobStruct next
          (wrap32 (fieldCount + 1)) (fields ++ [field])
      else mret (fields, currentStruct)
  end.

Definition read_fields (host : byte_order) (swapsNeeded : bool)
    (stringDataStart blobStruct currentStruct : Z) : M (list Field.t * Z) :=
  fuel ← loop_fuel;
  read_fields_loop fuel host swapsNeeded stringDataStart blobStruct
    currentStruct 1 [].

(** One iteration of the loop over the constants of a structure. *)
Definition read_constant (host : byte_order) (swapsNeeded : bool)
    (stringDataStart currentStruct : Z) : M (Constant.t * Z) :=
  let blobConst := currentStruct in
  when swapsNeeded (buf_update (fun m => BlobConstant.endian_swap m blobConst));;
  let currentStruct := currentStruct + BlobConstant.sizeof in
  cname ← buf_u32 host (blobConst + BlobConstant.name);
  let name := BLOBSTRING_AT stringDataStart cname + BlobString.data in
  nameLength ← buf_u16 host
    (BLOBSTRING_AT stringDataStart cname + BlobString.length);
  value ← buf_u64 host (blobConst + BlobConstant.value);
  mret (Constant.mk name nameLength value, currentStruct).

Fixpoint read_constants_loop (fuel : nat) (host : byte_order) (swapsNeeded : bool)
    (stringDataStart blobStruct currentStruct constCount : Z)
    (constants : list Constant.t) : M (list Constant.t * Z) :=
  match fuel with
  | O => timeout
  | S fuel' =>
      n ← buf_u32 host (blobStruct + BlobStruct.constCount);
      if constCount <=? n then
        '(constant, next) ← read_constant host swapsNeeded stringDataStart currentStruct;
        read_constants_loop fuel' host swapsNeeded stringDataStart blobStruct next
          (wrap32 (constCount + 1)) (constants ++ [constant])
      else mret (constants, currentStruct)
  end.

Definition read_constants (host : byte_order) (swapsNeeded : bool)
    (stringDataStart blobStruct currentStruct : Z) : M (list Constant.t * Z) :=
  fuel ← loop_fuel;
  read_constants_loop fuel host swapsNeeded stringDataStart blobStruct
    currentStruct 1 [].

(** The sentinel [(uint32_t)-1] of an absent super name. *)
Definition NO_SUPER_NAME : Z := 4294967295.

(** One iteration of the loop over the structures. *)
Definition read_struct (host : byte_order) (swapsNeeded : bool)
    (stringDataStart currentStruct : Z) : M (Structure.t * Z) :=
  let blobStruct := currentStruct in
  when swapsNeeded (buf_update (fun m => BlobStruct.endian_swap m blobStruct));;
  let currentStruct := currentStruct + BlobStruct.sizeof in
  nameOffset ← buf_u32 host (blobStruct + BlobStruct.nameOffset);
  let name := BLOBSTRING_AT stringDataStart nameOffset + BlobString.data in
  nameLength ← buf_u16 host
    (BLOBSTRING_AT stringDataStart nameOffset + BlobString.length);
  superName ← buf_u32 host (blobStruct + BlobStruct.superName);
  '(super, superNameLength) ←
    (if NO_SUPER_NAME =? superName then mret (None, 0)
     else
       l ← buf_u16 host
         (BLOBSTRING_AT stringDataStart superName + BlobString.length);
       mret (Some (BLOBSTRING_AT stringDataStart superName + BlobString.data), l));
  size ← buf_u32 host (blobStruct + BlobStruct.sizeOf);
  '(fields, afterFields) ←
    read_fields host swapsNeeded stringDataStart blobStruct currentStruct;
  '(constants, afterConstants) ←
    read_constants host swapsNeeded stringDataStart blobStruct afterFields;
  mret (Structure.mk name nameLength super superNameLength size fields constants,
       afterConstants).

Fixpoint read_structs_loop (fuel : nat) (host : byte_order) (swapsNeeded : bool)
    (stringDataStart structureCount currentStruct structCount : Z)
    (structs : list Structure.t) : M (list Structure.t * Z) :=
  match fuel with
  | O => timeout
  | S fuel' =>
      if structCount <=? structureCount then
        '(builtStruct, next) ←
          read_struct host swapsNeeded stringDataStart currentStruct;
        read_structs_loop fuel' host swapsNeeded stringDataStart structureCount next
          (wrap32 (structCount + 1)) (structs ++ [builtStruct])
      else mret (structs, currentStruct)
  end.

Definition read_structs (host : byte_order) (swapsNeeded : bool)
    (stringDataStart structureCount currentStruct : Z)
    : M (list Structure.t * Z) :=
  fuel ← loop_fuel;
  read_structs_loop fuel host swapsNeeded stringDataStart structureCount
    currentStruct 1 [].

(** ** Sorting the structures (lines 164-168 and 363) *)

(** [strcmp] on two arrays: a value with the sign of the first
    difference, the bytes taken as unsigned; it reads both arrays up to
    a difference or a NUL, and beyond the end of an array ([None]) when
    it meets neither. *)
Fixpoint strcmp (s1 s2 : list byte) : option Z :=
  match s1, s2 with
  | c1 :: t1, c2 :: t2 =>
      if byte_val c1 =? byte_val c2
      then if is_nul c1 then Some 0 else strcmp t1 t2
      else Some (byte_val c1 - byte_val c2)
  | _, _ => None
  end.

Definition compareStructs (m : memory) (first second : Structure.t) : option bool :=
  c ← strcmp (bytes_from m (Structure.name first))
             (bytes_from m (Structure.name second));
  Some (c <? 0).

(** [std::sort] with [compareStructs], as an insertion sort: any sort
    yields this list when the names compare as a strict total order.
    The order that [std::sort] gives to structures whose names compare
    as equal is not specified; the insertion sort keeps them in the
    order of the blob. *)
Fixpoint sort_insert (m : memory) (x : Structure.t) (l : list Structure.t)
    : option (list Structure.t) :=
  match l with
  | [] => Some [x]
  | y :: t =>
      match compareStructs m y x with
      | Some true => cons y <$> sort_insert m x t
      | Some false => Some (x :: y :: t)
      | None => None
      end
  end.

Fixpoint sort (m : memory) (l : list Structure.t) : option (list Structure.t) :=
  match l with
  | [] => Some []
  | x :: t => sort m t ≫= sort_insert m x
  end.

(** ** Printing the structures (lines 365-410) *)

Definition print_field (field : Field.t) : M unit :=
  name ← buf_string (Field.name field) (Field.nameLength field);
  type ← buf_string (Field.type field) (Field.typeLength field);
  printf (Out_field name type (Field.offset field)).

Definition print_constant (constant : Constant.t) : M unit :=
  name ← buf_string (Constant.name constant) (Constant.nameLength constant);
  printf (Out_constant name (Constant.value constant)).

Fixpoint for_each {A} (f : A -> M unit) (l : list A) : M unit :=
  match l with
  | [] => mret tt
  | x :: t => f x;; for_each f t
  end.

Definition print_struct (builtStruct : Structure.t) : M unit :=
  name ← buf_string (Structure.name builtStruct) (Structure.nameLength builtStruct);
  printf (Out_struct_name name);;
  match Structure.superName builtStruct with
  | None => printf Out_no_superName
  | Some p =>
      superName ← buf_string p (Structure.superNameLength builtStruct);
      printf (Out_superName superName)
  end;;
  printf (Out_struct_sizes (Structure.size builtStruct)
            (Z.of_nat (length (Structure.fields builtStruct)))
            (Z.of_nat (length (Structure.constants builtStruct))));;
  for_each print_field (Structure.fields builtStruct);;
  for_each print_constant (Structure.constants builtStruct).

(** ** The program (lines 184-418) *)

(** The header as read from the file, before any swap: [memset] to zero,
    then [fread] of at most [sizeof(blobHdrV1)] bytes. *)
Definition read_header (file : list byte) : memory * Z :=
  let bytes := fread file BlobHeaderV1.sizeof in
  (bytes ++ replicate (Z.to_nat BlobHeaderV1.sizeof - length bytes) x00,
   Z.of_nat (length bytes)).

(** Lines 210-218: byte-order inference and the swap of the header. *)
Definition fix_byte_order (host : byte_order) : M bool :=
  coreVersion ← hdr_u32 host BlobHeaderV1.coreVersion;
  let swapsNeeded := 65535 <? coreVersion in
  when swapsNeeded (hdr_update (fun m => BlobHeaderV1.endian_swap m 0));;
  mret swapsNeeded.

Definition print_header (host : byte_order) : M unit :=
  coreVersion ← hdr_u32 host BlobHeaderV1.coreVersion;
  sizeofBool ← hdr_u8 BlobHeaderV1.sizeofBool;
  sizeofUDATA ← hdr_u8 BlobHeaderV1.sizeofUDATA;
  bitfieldFormat ← hdr_u8 BlobHeaderV1.bitfieldFormat;
  structDataSize ← hdr_u32 host BlobHeaderV1.structDataSize;
  stringTableDataSize ← hdr_u32 host BlobHeaderV1.stringTableDataSize;
  structureCount ← hdr_u32 host BlobHeaderV1.structureCount;
  printf (Out_header coreVersion sizeofBool sizeofUDATA bitfieldFormat
            structDataSize stringTableDataSize structureCount).

(** Lines 236-251: the copy of the file into [blobBuffer]; the result is
    the number of bytes read. *)
Definition load_blob (file : list byte) (blobLength : Z) : M Z :=
  fun s =>
    let bytes := fread file blobLength in
    Done (Z.of_nat (length bytes)) (mkState (blobHdrV1 s) bytes (output s)).

(** Lines 253-362: the two passes over the buffer; the result is the
    collection of structures in the order of the blob, and the final
    value of [currentStruct]. *)
Definition decode (host : byte_order) (swapsNeeded : bool)
    : M (list Structure.t * Z) :=
  structDataSize ← hdr_u32 host BlobHeaderV1.structDataSize;
  stringTableDataSize ← hdr_u32 host BlobHeaderV1.stringTableDataSize;
  structureCount ← hdr_u32 host BlobHeaderV1.structureCount;
  printf Out_strings_title;;
  let stringDataStart := BlobHeaderV1.sizeof + structDataSize in
  let stringDataEnd := stringDataStart + stringTableDataSize in
  read_strings host swapsNeeded stringDataStart stringDataEnd;;
  read_structs host swapsNeeded stringDataStart structureCount
    BlobHeaderV1.sizeof.

(** Lines 363-410: the sort and the report. *)
Definition report (structs : list Structure.t) : M unit :=
  sorted ← of_option (fun s => sort (blobBuffer s) structs);
  printf Out_structs_title;;
  for_each print_struct sorted.

(** Lines 253-417: the two passes and the report, once the file is in
    the buffer. *)
Definition decode_and_report (host : byte_order) (swapsNeeded : bool) : M Z :=
  '(structs, _) ← decode host swapsNeeded;
  report structs;;
  mret 0.

(** Lines 236-417: the copy of the file, the two passes and the
    report. *)
Definition load_and_decode (host : byte_order) (swapsNeeded : bool)
    (blobLength : Z) (file : list byte) : M Z :=
  rb ← load_blob file blobLength;
  if negb (blobLength =? rb) then
    printf (Err_read_data rb blobLength);;
    mret (-1)
  else decode_and_report host swapsNeeded.

Definition run (host : byte_order) (rb : Z) (file : list byte) : M Z :=
  if negb (BlobHeaderV1.sizeof =? rb) then
    printf (Err_read_header rb BlobHeaderV1.sizeof);;
    mret (-1)
  else
    swapsNeeded ← fix_byte_order host;
    print_header host;;
    structDataSize ← hdr_u32 host BlobHeaderV1.structDataSize;
    stringTableDataSize ← hdr_u32 host BlobHeaderV1.stringTableDataSize;
    load_and_decode host swapsNeeded
      (BlobHeaderV1.sizeof + structDataSize + stringTableDataSize) file.

(** [main] from line 199 on, with the content of the opened file.  Three
    exits of the program lie outside of this model: it prints a message
    and returns -1 when no file is named (lines 187-191), when [fopen]
    fails (lines 193-197) and when [malloc] fails (lines 238-243). *)
Definition main (host : byte_order) (file : list byte) : outcome Z :=
  let '(hdr, rb) := read_header file in
  run host rb file (mkState hdr [] []).

(** The byte order of the blob, as the decoder infers it. *)
Definition file_order (host : byte_order) (swapsNeeded : bool) : byte_order :=
  if swapsNeeded then opposite host else host.

(** [f] is the field record at address [a] of [m], read in byte order
    [o]: its name and type point into the string table at
    [stringDataStart]. *)
Definition field_at (o : byte_order) (m : memory) (stringDataStart a : Z)
    (f : Field.t) : Prop :=
  exists declaredName declaredType,
    load_u32 o m (a + BlobField.declaredName) = Some declaredName
    /\ load_u32 o m (a + BlobField.declaredType) = Some declaredType
    /\ load_u32 o m (a + BlobField.offset) = Some (Field.offset f)
    /\ Field.name f
       = BLOBSTRING_AT stringDataStart declaredName + BlobString.data
    /\ Field.type f
       = BLOBSTRING_AT stringDataStart declaredType + BlobString.data.

(** [c] is the constant record at address [a] of [m], read in byte
    order [o]. *)
Definition constant_at (o : byte_order) (m : memory) (stringDataStart a : Z)
    (c : Constant.t) : Prop :=
  exists name,
    load_u32 o m (a + BlobConstant.name) = Some name
    /\ load_u64 o m (a + BlobConstant.value) = Some (Constant.value c)
    /\ Constant.name c = BLOBSTRING_AT stringDataStart name + BlobString.data.

(** [f] is what the decoder makes of the field record at [a] of the
    buffer [m]: the record is read in the byte order of the blob, and the
    lengths of its strings are read in the byte order of the host from
    the string table as it is in [m], for the strings that lie at or
    after [limit] (the end of the records that the decoder swaps). *)
Definition field_decoded (host : byte_order) (swapsNeeded : bool) (m : memory)
    (stringDataStart limit a : Z) (f : Field.t) : Prop :=
  field_at (file_order host swapsNeeded) m stringDataStart a f
  /\ (limit <= Field.name f - BlobString.data ->
      load_u16 host m (Field.name f - BlobString.data)
      = Some (Field.nameLength f))
  /\ (limit <= Field.type f - BlobString.data ->
      load_u16 host m (Field.type f - BlobString.data)
      = Some (Field.typeLength f)).

Definition constant_decoded (host : byte_order) (swapsNeeded : bool)
    (m : memory) (stringDataStart limit a : Z) (c : Constant.t) : Prop :=
  constant_at (file_order host swapsNeeded) m stringDataStart a c
  /\ (limit <= Constant.name c - BlobString.data ->
      load_u16 host m (Constant.name c - BlobString.data)
      = Some (Constant.nameLength c)).

(** The field record at [a], read in byte order [o], lies inside [m],
    and so do the length fields of the two strings it refers to. *)
Definition field_record_ok (o : byte_order) (m : memory)
    (stringDataStart a : Z) : Prop :=
  exists declaredName declaredType,
    load_u32 o m (a + BlobField.declaredName) = Some declaredName
    /\ load_u32 o m (a + BlobField.declaredType) = Some declaredType
    /\ in_bounds m (a + BlobField.offset) 4 = true
    /\ in_bounds m (BLOBSTRING_AT stringDataStart declaredName) 2 = true
    /\ in_bounds m (BLOBSTRING_AT stringDataStart declaredType) 2 = true.

Definition constant_record_ok (o : byte_order) (m : memory)
    (stringDataStart a : Z) : Prop :=
  exists name,
    load_u32 o m (a + BlobConstant.name) = Some name
    /\ in_bounds m (a + BlobConstant.value) 8 = true
    /\ in_bounds m (BLOBSTRING_AT stringDataStart name) 2 = true.

(** The structure block at [a] (a structure record, its field records
    and its constant records), read in byte order [o], lies inside [m]
    together with the length fields of all the strings it refers to; a
    super name equal to the sentinel refers to no string.  The counts
    are below the largest 32-bit value, at which the loop counters
    wrap. *)
Definition struct_block_ok (o : byte_order) (m : memory)
    (stringDataStart a : Z) : Prop :=
  exists nameOffset superName fc cc,
    load_u32 o m (a + BlobStruct.nameOffset) = Some nameOffset
    /\ load_u32 o m (a + BlobStruct.superName) = Some superName
    /\ in_bounds m (a + BlobStruct.sizeOf) 4 = true
    /\ load_u32 o m (a + BlobStruct.fieldCount) = Some fc
    /\ load_u32 o m (a + BlobStruct.constCount) = Some cc
    /\ in_bounds m (BLOBSTRING_AT stringDataStart nameOffset) 2 = true
    /\ (superName <> NO_SUPER_NAME ->
        in_bounds m (BLOBSTRING_AT stringDataStart superName) 2 = true)
    /\ fc < 4294967295
    /\ cc < 4294967295
    /\ (forall j, 0 <= j < fc ->
        field_record_ok o m stringDataStart
          (a + BlobStruct.sizeof + BlobField.sizeof * j))
    /\ (forall j, 0 <= j < cc ->
        constant_record_ok o m stringDataStart
          (a + BlobStruct.sizeof + BlobField.sizeof * fc
           + BlobConstant.sizeof * j)).

(** [n] structure blocks lie one after the other in [m], from [cur] to
    [last]. *)
Inductive struct_blocks (o : byte_order) (m : memory) (stringDataStart : Z)
    : Z -> nat -> Z -> Prop :=
| blocks_end cur : struct_blocks o m stringDataStart cur 0 cur
| blocks_next cur fc cc n last :
    struct_block_ok o m stringDataStart cur ->
    load_u32 o m (cur + BlobStruct.fieldCount) = Some fc ->
    load_u32 o m (cur + BlobStruct.constCount) = Some cc ->
    struct_blocks o m stringDataStart
      (cur + BlobStruct.sizeof + BlobField.sizeof * fc
       + BlobConstant.sizeof * cc) n last ->
    struct_blocks o m stringDataStart cur (S n) last.

(** Two memories of the same length that hold the same 32-bit words
    between [lo] and [hi]. *)
Definition words_agree (m m1 : memory) (lo hi : Z) : Prop :=
  length m1 = length m
  /\ forall o a, lo <= a -> a + 4 <= hi -> load_u32 o m1 a = load_u32 o m a.

(** The buffer after the swap of the structure record at [a], when
    swaps are needed. *)
Definition after_struct_swap (swapsNeeded : bool) (m : memory) (a : Z)
    : memory :=
  if swapsNeeded then default m (BlobStruct.endian_swap m a) else m.

(** The entries of a string table laid out in [m] from address [cur]
    up to [stringDataEnd], the lengths being stored in byte order [o]:
    the list of the addresses of their length fields.  An entry is a
    16-bit length, the content, and a padding byte after a content of
    odd length. *)
Inductive string_entries (o : byte_order) (m : memory) (stringDataEnd : Z)
    : Z -> list Z -> Prop :=
| entries_end cur :
    stringDataEnd <= cur -> string_entries o m stringDataEnd cur []
| entries_next cur len rest :
    cur < stringDataEnd ->
    load_u16 o m cur = Some len ->
    string_entries o m stringDataEnd (cur + (len + 2 + len mod 2)) rest ->
    string_entries o m stringDataEnd cur (cur :: rest).

(** The string entry at [e], its length stored in byte order [o], lies
    inside [m] with its content. *)
Definition string_entry_ok (o : byte_order) (m : memory) (e : Z) : Prop :=
  exists len,
    load_u16 o m e = Some len
    /\ in_bounds m (e + BlobString.data) len = true.

(** [m] with the two bytes at each of the addresses [es] exchanged. *)
Definition swap_lengths (m : memory) (es : list Z) : memory :=
  foldl (fun m e => reverse_range m e 2) m es.

(** The string that a decoded entity points to at [data], with the
    length [len], is an entry of the string table at
    [stringDataStart]; when the entry lies at or after [limit], [len] is
    the 16-bit value that [m] holds there, read in the byte order of the
    host. *)
Definition string_ref (host : byte_order) (m : memory)
    (stringDataStart limit data len : Z) : Prop :=
  stringDataStart <= data - BlobString.data
  /\ (limit <= data - BlobString.data ->
      load_u16 host m (data - BlobString.data) = Some len).

(** All the strings of the structure [st] are such references. *)
Definition lengths_read_from (host : byte_order) (m : memory)
    (stringDataStart limit : Z) (st : Structure.t) : Prop :=
  string_ref host m stringDataStart limit
    (Structure.name st) (Structure.nameLength st)
  /\ (forall p, Structure.superName st = Some p ->
      string_ref host m stringDataStart limit p (Structure.superNameLength st))
  /\ Forall (fun f =>
        string_ref host m stringDataStart limit
          (Field.name f) (Field.nameLength f)
        /\ string_ref host m stringDataStart limit
             (Field.type f) (Field.typeLength f))
       (Structure.fields st)
  /\ Forall (fun c =>
        string_ref host m stringDataStart limit
          (Constant.name c) (Constant.nameLength c))
       (Structure.constants st).

(** [st] is what the walker makes of the structure block at [a] of
    [m], read in byte order [o]: as many fields as the [fieldCount] of
    the structure record, one from each of the field records that follow
    it, then as many constants as its [constCount], one from each of the
    constant records that follow those; [next] is the address after the
    last of these records. *)
Definition block_decoded (o : byte_order) (m : memory)
    (stringDataStart a : Z) (st : Structure.t) (next : Z) : Prop :=
  exists fc cc,
    load_u32 o m (a + BlobStruct.fieldCount) = Some fc
    /\ load_u32 o m (a + BlobStruct.constCount) = Some cc
    /\ Z.of_nat (length (Structure.fields st)) = fc
    /\ Z.of_nat (length (Structure.constants st)) = cc
    /\ (forall (k : nat) f, Structure.fields st !! k = Some f ->
        field_at o m stringDataStart
          (a + BlobStruct.sizeof + BlobField.sizeof * Z.of_nat k) f)
    /\ (forall (k : nat) c, Structure.constants st !! k = Some c ->
        constant_at o m stringDataStart
          (a + BlobStruct.sizeof + BlobField.sizeof * fc
           + BlobConstant.sizeof * Z.of_nat k) c)
    /\ next = a + BlobStruct.sizeof + fc * BlobField.sizeof
              + cc * BlobConstant.sizeof.

(** Every string of the structure [st] is one of the entries [es] of
    the string table. *)
Definition refs_visited (es : list Z) (st : Structure.t) : Prop :=
  In (Structure.name st - BlobString.data) es
  /\ (forall p, Structure.superName st = Some p ->
      In (p - BlobString.data) es)
  /\ Forall (fun f => In (Field.name f - BlobString.data) es
                      /\ In (Field.type f - BlobString.data) es)
       (Structure.fields st)
  /\ Forall (fun c => In (Constant.name c - BlobString.data) es)
       (Structure.constants st).

(** The names of the structures in the order of the report. *)
Definition reported_names (out : list event) : list (list byte) :=
  omap (fun e => match e with Out_struct_name n => Some n | _ => None end) out.

(** Byte-wise order of two byte strings: the first difference decides,
    and a proper prefix comes first. *)
Fixpoint bytes_ltb (a b : list byte) : bool :=
  match a, b with
  | _, [] => false
  | [], _ :: _ => true
  | x :: a', y :: b' =>
      if byte_val x <? byte_val y then true
      else if byte_val y <? byte_val x then false
      else bytes_ltb a' b'
  end.

(** The C string at the start of an array: its bytes up to the first
    NUL. *)
Fixpoint c_string (s : list byte) : list byte :=
  match s with
  | [] => []
  | c :: t => if is_nul c then [] else c :: c_string t
  end.

(** The bytes that the block of [st] takes in the structure data: its
    record and the records of its fields and constants. *)
Definition block_size (st : Structure.t) : Z :=
  BlobStruct.sizeof
  + BlobField.sizeof * Z.of_nat (length (Structure.fields st))
  + BlobConstant.sizeof * Z.of_nat (length (Structure.constants st)).

Definition blocks_size (l : list Structure.t) : Z :=
  foldr (fun st n => block_size st + n) 0 l.

(** The lines of the report for one structure, with the buffer [m]:
    [e] is the line of the field [f], of the constant [c], of the super
    name of [st]; [blk] is the block of [st]. *)
Definition field_line (m : memory) (f : Field.t) (e : event) : Prop :=
  exists name type,
    e = Out_field name type (Field.offset f)
    /\ printf_s (bytes_from m (Field.name f)) (Field.nameLength f) = Some name
    /\ printf_s (bytes_from m (Field.type f)) (Field.typeLength f) = Some type.

Definition constant_line (m : memory) (c : Constant.t) (e : event) : Prop :=
  exists name,
    e = Out_constant name (Constant.value c)
    /\ printf_s (bytes_from m (Constant.name c)) (Constant.nameLength c)
       = Some name.

Definition super_line (m : memory) (st : Structure.t) (e : event) : Prop :=
  match Structure.superName st with
  | None => e = Out_no_superName
  | Some p =>
      exists name,
        e = Out_superName name
        /\ printf_s (bytes_from m p) (Structure.superNameLength st) = Some name
  end.

Definition struct_block (m : memory) (st : Structure.t) (blk : list event)
    : Prop :=
  exists name super flines clines,
    blk = [Out_struct_name name; super;
           Out_struct_sizes (Structure.size st) (Z.of_nat (length flines))
             (Z.of_nat (length clines))]
          ++ flines ++ clines
    /\ printf_s (bytes_from m (Structure.name st)) (Structure.nameLength st)
       = Some name
    /\ super_line m st super
    /\ Forall2 (field_line m) (Structure.fields st) flines
    /\ Forall2 (constant_line m) (Structure.constants st) clines.

(** [b] does not come before [a] under [compareStructs]. *)
Definition not_before (m : memory) (a b : Structure.t) : Prop :=
  compareStructs m b a = Some false.

(** A NUL follows the name of [st] in [m]. *)
Definition name_terminated (m : memory) (st : Structure.t) : Prop :=
  In x00 (bytes_from m (Structure.name st)).

(** ** Sample inputs *)

(** A program state whose header object holds the first bytes of
    [file]. *)
Definition state_with_header (file : list byte) : state :=
  mkState (fst (read_header file)) [] [].

Definition thirteen_bytes : memory :=
  [x01; x02; x03; x04; x05; x06; x07; x08; x09; x0a; x0b; x0c; x0d].

(** A program state whose blob buffer holds [file]. *)
Definition buffer_state (file : list byte) : state := mkState [] file [].

(** The state in which a computation ends (the initial state when it
    does not end with a value). *)
Definition final_state {A} (c : M A) (s : state) : state :=
  match c s with
  | Done _ s' => s'
  | _ => s
  end.

(** The value with which a computation ends, if it ends with one. *)
Definition result {A} (c : M A) (s : state) : option A :=
  match c s with
  | Done a _ => Some a
  | _ => None
  end.

(** The state of [main] once the file is in the buffer, and the flag
    [swapsNeeded] (lines 199-251, without the printing). *)
Definition load (host : byte_order) (file : list byte) : M bool :=
  swapsNeeded ← fix_byte_order host;
  structDataSize ← hdr_u32 host BlobHeaderV1.structDataSize;
  stringTableDataSize ← hdr_u32 host BlobHeaderV1.stringTableDataSize;
  load_blob file
    (BlobHeaderV1.sizeof + structDataSize + stringTableDataSize);;
  mret swapsNeeded.

Definition loaded (host : byte_order) (file : list byte) : state :=
  final_state (load host file) (state_with_header file).

(** The structures of the blob [zoo], in the order of the blob (the
    pointers are addresses in the buffer). *)
Definition zoo_decoded : list Structure.t :=
  [Structure.mk 118 4 None 0 16
     [Field.mk 136 5 144 3 0; Field.mk 150 6 144 3 4]
     [Constant.mk 158 5 81985529216486895];
   Structure.mk 124 5 (Some 118) 4 24 [] [];
   Structure.mk 132 2 None 0 1 [] []].

(** ** Building blobs

    The writer's side of the format, for the examples: a blob written by
    a system of byte order [o]. *)

Definition u16 (o : byte_order) (v : Z) : list byte := bytes_of o 2 v.
Definition u32 (o : byte_order) (v : Z) : list byte := bytes_of o 4 v.
Definition u64 (o : byte_order) (v : Z) : list byte := bytes_of o 8 v.

Definition ascii (s : string) : list byte := String.list_byte_of_string s.

Definition blob_header (o : byte_order)
    (coreVersion structDataSize stringTableDataSize structureCount : Z)
    : list byte :=
  u32 o coreVersion ++ [x01; x08; x01; x00] ++ u32 o structDataSize
    ++ u32 o stringTableDataSize ++ u32 o structureCount.

(** A string entry: length, content, and a padding byte after a content
    of odd length. *)
Definition blob_string (o : byte_order) (content : list byte) : list byte :=
  u16 o (Z.of_nat (length content)) ++ content
    ++ (if Z.odd (Z.of_nat (length content)) then [x00] else []).

Definition blob_struct (o : byte_order)
    (nameOffset superName sizeOf fieldCount constCount : Z) : list byte :=
  u32 o nameOffset ++ u32 o superName ++ u32 o sizeOf
    ++ u32 o fieldCount ++ u32 o constCount.

Definition blob_field (o : byte_order) (declaredName declaredType offset : Z)
    : list byte :=
  u32 o declaredName ++ u32 o declaredType ++ u32 o offset.

Definition blob_constant (o : byte_order) (name value : Z) : list byte :=
  u32 o name ++ u64 o value.



(** A blob of two structures, AB and ABC in this order.  The name AB
    is followed in the string table by an entry of 68 bytes (the super
    name of ABC).  String offsets: AB 0, the long name 4, ABC 74. *)
Definition prefixes (o : byte_order) : list byte :=
  blob_header o 1 40 80 2
    ++ blob_struct o 0 NO_SUPER_NAME 8 0 0
    ++ blob_struct o 74 4 16 0 0
    ++ blob_string o (ascii "AB")
    ++ blob_string o (replicate 68 "x"%byte)
    ++ blob_string o (ascii "ABC").

(** A string table of four entries: a content of odd length (abc,
    followed by a padding byte), an empty content, a content of even
    length (hi), and a content of three bytes the second of which is
    NUL.  The entries begin at 0, 6, 8 and 12; the table has 18 bytes. *)
Definition odd_empty_even (o : byte_order) : list byte :=
  blob_string o (ascii "abc")
    ++ blob_string o []
    ++ blob_string o (ascii "hi")
    ++ blob_string o [x61; x00; x62].

(** A blob of one structure that declares [0xFFFFFFFF] fields, and a
    blob whose header declares [0xFFFFFFFF] structures. *)
Definition endless_fields (o : byte_order) : list byte :=
  blob_header o 1 20 4 1
    ++ blob_struct o 0 NO_SUPER_NAME 8 4294967295 0
    ++ blob_string o (ascii "AB").

Definition endless_structs (o : byte_order) : list byte :=
  blob_header o 1 20 4 4294967295
    ++ blob_struct o 0 NO_SUPER_NAME 8 0 0
    ++ blob_string o (ascii "AB").

(** A blob of three structures, in the order Zeta, Alpha, Mu.  Zeta has
    two fields and one constant and no super name; Alpha extends Zeta.
    String offsets: Zeta 0, Alpha 6, Mu 14, first 18, U32 26, second 32,
    LIMIT 40. *)
Definition zoo_structs (o : byte_order) : list byte :=
  blob_struct o 0 NO_SUPER_NAME 16 2 1
    ++ blob_field o 18 26 0
    ++ blob_field o 32 26 4
    ++ blob_constant o 40 81985529216486895
    ++ blob_struct o 6 0 24 0 0
    ++ blob_struct o 14 NO_SUPER_NAME 1 0 0.

Definition zoo_strings (o : byte_order) : list byte :=
  blob_string o (ascii "Zeta")
    ++ blob_string o (ascii "Alpha")
    ++ blob_string o (ascii "Mu")
    ++ blob_string o (ascii "first")
    ++ blob_string o (ascii "U32")
    ++ blob_string o (ascii "second")
    ++ blob_string o (ascii "LIMIT").

Definition zoo (o : byte_order) : list byte :=
  blob_header o 1 (Z.of_nat (length (zoo_structs o)))
    (Z.of_nat (length (zoo_strings o))) 3
    ++ zoo_structs o ++ zoo_strings o.

(** * Properties *)

(** ** Memory *)

Lemma in_bounds_true m a n :
  in_bounds m a n = true <-> 0 <= a /\ a + n <= Z.of_nat (length m).
Proof. unfold in_bounds. rewrite andb_true_iff, !Z.leb_le. tauto. Qed.

Lemma in_bounds_false m a n :
  in_bounds m a n = false <-> a < 0 \/ Z.of_nat (length m) < a + n.
Proof.
  unfold in_bounds. rewrite andb_false_iff, !Z.leb_gt. tauto.
Qed.

Ltac bounds :=
  repeat match goal with
    | H : in_bounds _ _ _ = true |- _ => apply in_bounds_true in H
    | H : in_bounds _ _ _ = false |- _ => apply in_bounds_false in H
    | |- in_bounds _ _ _ = true => apply in_bounds_true
    | |- in_bounds _ _ _ = false => apply in_bounds_false
    end.

Lemma in_bounds_split m a n :
  in_bounds m a (Z.of_nat n) = true ->
  exists pre mid post,
    m = pre ++ mid ++ post /\ Z.of_nat (length pre) = a /\ length mid = n.
Proof.
  intros H. bounds.
  exists (take (Z.to_nat a) m), (take n (drop (Z.to_nat a) m)),
    (drop (Z.to_nat a + n) m).
  split; [|split].
  - rewrite <- drop_drop, take_drop, take_drop. reflexivity.
  - rewrite length_take. lia.
  - rewrite length_take, length_drop. lia.
Qed.

Lemma in_bounds_app pre mid post :
  in_bounds (pre ++ mid ++ post) (Z.of_nat (length pre))
    (Z.of_nat (length mid)) = true.
Proof. bounds. rewrite !length_app. lia. Qed.

Lemma load_u8_app pre l k :
  load_u8 (pre ++ l) (Z.of_nat (length pre) + Z.of_nat k) = l !! k.
Proof.
  unfold load_u8. destruct (in_bounds _ _ _) eqn:E; bounds.
  - replace (Z.to_nat _) with (length pre + k)%nat by lia.
    rewrite lookup_app_r by lia. f_equal. lia.
  - symmetry. apply lookup_ge_None. rewrite length_app in E. lia.
Qed.

Lemma store_u8_app pre l k b :
  (k < length l)%nat ->
  store_u8 (pre ++ l) (Z.of_nat (length pre) + Z.of_nat k) b
  = Some (pre ++ <[k := b]> l).
Proof.
  intros Hk. unfold store_u8.
  replace (in_bounds _ _ _) with true
    by (symmetry; bounds; rewrite length_app; lia).
  replace (Z.to_nat _) with (length pre + k)%nat by lia.
  rewrite insert_app_r. reflexivity.
Qed.

Lemma swap_bytes_app pre l i j x y :
  l !! i = Some x -> l !! j = Some y ->
  swap_bytes (pre ++ l) (Z.of_nat (length pre) + Z.of_nat i)
    (Z.of_nat (length pre) + Z.of_nat j)
  = Some (pre ++ <[j := x]> (<[i := y]> l)).
Proof.
  intros Hi Hj. unfold swap_bytes.
  rewrite !load_u8_app, Hi, Hj. simpl.
  rewrite store_u8_app by (eapply lookup_lt_Some; eauto). simpl.
  rewrite store_u8_app
    by (rewrite length_insert; eapply lookup_lt_Some; eauto).
  reflexivity.
Qed.

Lemma reverse_range_app pre mid post :
  reverse_range (pre ++ mid ++ post) (Z.of_nat (length pre)) (length mid)
  = pre ++ reverse mid ++ post.
Proof.
  unfold reverse_range. rewrite Nat2Z.id, <- drop_drop.
  rewrite take_app_length, drop_app_length, take_app_length.
  rewrite drop_app_length. reflexivity.
Qed.

Lemma load_bytes_app pre mid post :
  load_bytes (pre ++ mid ++ post) (Z.of_nat (length pre)) (length mid)
  = Some mid.
Proof.
  unfold load_bytes. rewrite in_bounds_app, Nat2Z.id.
  rewrite drop_app_length, take_app_length. reflexivity.
Qed.

Lemma length_reverse_range m a n :
  length (reverse_range m a n) = length m.
Proof.
  unfold reverse_range.
  rewrite !length_app, length_reverse, !length_take, !length_drop. lia.
Qed.

Lemma in_bounds_length m m' a n :
  length m' = length m -> in_bounds m' a n = in_bounds m a n.
Proof. unfold in_bounds. intros ->. reflexivity. Qed.

Lemma in_bounds_reverse_range m a n b k :
  in_bounds (reverse_range m a n) b k = in_bounds m b k.
Proof. apply in_bounds_length, length_reverse_range. Qed.

Lemma in_bounds_weaken m a n b k :
  in_bounds m a n = true -> a <= b -> b + k <= a + n ->
  in_bounds m b k = true.
Proof. intros. bounds. lia. Qed.

(** Reversing a range twice restores the memory. *)
Lemma reverse_range_involutive m a n :
  in_bounds m a (Z.of_nat n) = true ->
  reverse_range (reverse_range m a n) a n = m.
Proof.
  intros H. destruct (in_bounds_split _ _ _ H) as (pre & mid & post & -> & <- & <-).
  rewrite reverse_range_app.
  rewrite <- (length_reverse mid).
  rewrite reverse_range_app, reverse_involutive. reflexivity.
Qed.

(** The bytes of the range come out in reverse order... *)
Lemma load_bytes_reverse_range m a n :
  load_bytes (reverse_range m a n) a n = reverse <$> load_bytes m a n.
Proof.
  destruct (in_bounds m a (Z.of_nat n)) eqn:H.
  - destruct (in_bounds_split _ _ _ H) as (pre & mid & post & -> & <- & <-).
    rewrite reverse_range_app, load_bytes_app.
    rewrite <- (length_reverse mid).
    rewrite load_bytes_app. reflexivity.
  - unfold load_bytes. rewrite in_bounds_reverse_range, H. reflexivity.
Qed.

(** ... and the bytes outside of it stay where they are. *)
Lemma lookup_reverse_range_outside m a n (i : nat) :
  in_bounds m a (Z.of_nat n) = true ->
  Z.of_nat i < a \/ a + Z.of_nat n <= Z.of_nat i ->
  reverse_range m a n !! i = m !! i.
Proof.
  intros H Hi.
  destruct (in_bounds_split _ _ _ H) as (pre & mid & post & -> & <- & <-).
  rewrite reverse_range_app.
  destruct Hi as [Hi|Hi].
  - rewrite !lookup_app_l by lia. reflexivity.
  - rewrite !(lookup_app_r pre) by lia.
    rewrite !lookup_app_r by (rewrite ?length_reverse; lia).
    rewrite length_reverse. reflexivity.
Qed.

Lemma lookup_reverse_range_inside m a n (k : nat) :
  in_bounds m a (Z.of_nat n) = true ->
  (k < n)%nat ->
  reverse_range m a n !! (Z.to_nat a + k)%nat
  = m !! (Z.to_nat a + (n - 1 - k))%nat.
Proof.
  intros H Hk.
  destruct (in_bounds_split _ _ _ H) as (pre & mid & post & -> & <- & <-).
  rewrite reverse_range_app, Nat2Z.id.
  rewrite !(lookup_app_r pre) by lia.
  rewrite !lookup_app_l by (rewrite ?length_reverse; lia).
  rewrite reverse_lookup by lia. f_equal. lia.
Qed.

Lemma same_outside_refl m a n : same_outside m m a n.
Proof. split; auto. Qed.

Lemma same_outside_weaken m m' a n b k :
  same_outside m m' a n -> b <= a -> a + n <= b + k ->
  same_outside m m' b k.
Proof. intros [Hl Hs] ? ?. split; [exact Hl|]. intros i Hi. apply Hs. lia. Qed.

Lemma same_outside_trans m1 m2 m3 a n :
  same_outside m1 m2 a n -> same_outside m2 m3 a n -> same_outside m1 m3 a n.
Proof.
  intros [Hl1 Hs1] [Hl2 Hs2]. split; [congruence|].
  intros i Hi. rewrite Hs2, Hs1 by assumption. reflexivity.
Qed.

Lemma same_outside_reverse_range m a n :
  in_bounds m a (Z.of_nat n) = true ->
  same_outside m (reverse_range m a n) a (Z.of_nat n).
Proof.
  intros H. split; [apply length_reverse_range|].
  intros i Hi. apply lookup_reverse_range_outside; assumption.
Qed.

Lemma load_bytes_same_outside m m' a n b k :
  same_outside m m' a n ->
  b + Z.of_nat k <= a \/ a + n <= b ->
  load_bytes m' b k = load_bytes m b k.
Proof.
  intros [Hl Hs] Hd. unfold load_bytes.
  rewrite (in_bounds_length _ _ _ _ Hl).
  destruct (in_bounds m b _) eqn:Hb; [|reflexivity]. bounds.
  f_equal. apply list_eq. intros i.
  rewrite !lookup_take. destruct (decide (i < k)%nat); [|reflexivity].
  rewrite !lookup_drop. apply Hs. lia.
Qed.

Lemma load_uint_same_outside o m m' a n b k :
  same_outside m m' a n ->
  b + Z.of_nat k <= a \/ a + n <= b ->
  load_uint o k m' b = load_uint o k m b.
Proof.
  intros. unfold load_uint. erewrite load_bytes_same_outside; eauto.
Qed.

Lemma bytes_from_same_outside m m' a n b :
  same_outside m m' a n -> a + n <= b ->
  bytes_from m' b = bytes_from m b.
Proof.
  intros [Hl Hs] Hb. unfold bytes_from.
  rewrite (in_bounds_length _ _ _ _ Hl).
  destruct (in_bounds m b 0) eqn:E; [|reflexivity]. bounds.
  apply list_eq. intros i. rewrite !lookup_drop. apply Hs. lia.
Qed.

(** ** Values and byte order *)

Lemma byte_val_range b : 0 <= byte_val b < 256.
Proof.
  unfold byte_val. pose proof (Byte.to_N_bounded b). lia.
Qed.

Lemma le_value_nonneg bs : 0 <= le_value bs.
Proof.
  induction bs as [|b t IH]; simpl; [lia|].
  pose proof (byte_val_range b). lia.
Qed.

Lemma value_of_nonneg o bs : 0 <= value_of o bs.
Proof. destruct o; apply le_value_nonneg. Qed.

Lemma value_of_reverse o bs :
  value_of o (reverse bs) = value_of (opposite o) bs.
Proof. destruct o; simpl; rewrite ?reverse_involutive; reflexivity. Qed.

Lemma load_uint_nonneg o n m a v : load_uint o n m a = Some v -> 0 <= v.
Proof.
  unfold load_uint. destruct (load_bytes m a n); [|discriminate].
  intros [= <-]. apply value_of_nonneg.
Qed.

Lemma load_uint_in_bounds o n m a v :
  load_uint o n m a = Some v -> in_bounds m a (Z.of_nat n) = true.
Proof.
  unfold load_uint, load_bytes.
  destruct (in_bounds m a (Z.of_nat n)); [reflexivity|discriminate].
Qed.

Lemma load_uint_is_Some o n m a :
  in_bounds m a (Z.of_nat n) = true -> is_Some (load_uint o n m a).
Proof. unfold load_uint, load_bytes. intros ->. simpl. eauto. Qed.

(** Reading a reversed range in one byte order is reading the original
    range in the other. *)
Lemma load_uint_reverse_range o n m a :
  load_uint o n (reverse_range m a n) a = load_uint (opposite o) n m a.
Proof.
  unfold load_uint. rewrite load_bytes_reverse_range.
  destruct (load_bytes m a n); simpl; [|reflexivity].
  rewrite value_of_reverse. reflexivity.
Qed.

Lemma load_uint_reverse_range_other o k m a n b :
  in_bounds m a (Z.of_nat n) = true ->
  b + Z.of_nat k <= a \/ a + Z.of_nat n <= b ->
  load_uint o k (reverse_range m a n) b = load_uint o k m b.
Proof.
  intros H Hd. eapply load_uint_same_outside; [|exact Hd].
  apply same_outside_reverse_range, H.
Qed.

(** ** The swap primitives reverse ranges of bytes *)

Lemma swap_bytes_at pre l left right i j x y :
  left = Z.of_nat (length pre) + Z.of_nat i ->
  right = Z.of_nat (length pre) + Z.of_nat j ->
  l !! i = Some x -> l !! j = Some y ->
  swap_bytes (pre ++ l) left right = Some (pre ++ <[j := x]> (<[i := y]> l)).
Proof. intros -> ->. apply swap_bytes_app. Qed.

Lemma swap_bytes_None m left right :
  in_bounds m left 1 = false \/ in_bounds m right 1 = false ->
  swap_bytes m left right = None.
Proof.
  unfold swap_bytes, load_u8. intros [H|H]; rewrite H; simpl; [reflexivity|].
  destruct (in_bounds m left 1); [|reflexivity].
  destruct (m !! Z.to_nat left); reflexivity.
Qed.

Lemma swap_u16_reverse m a :
  swap_u16 m a
  = if in_bounds m a 2 then Some (reverse_range m a 2) else None.
Proof.
  unfold swap_u16. destruct (in_bounds m a 2) eqn:H.
  - destruct (in_bounds_split m a 2 H) as (pre & mid & post & -> & <- & Hmid).
    destruct mid as [|b0 [|b1 [|? ?]]]; try discriminate.
    change 2%nat with (length [b0; b1]). rewrite reverse_range_app.
    erewrite (swap_bytes_at pre _ _ _ 0 1); [reflexivity|lia|lia|reflexivity..].
  - apply swap_bytes_None. bounds.
    destruct (Z.ltb_spec a 0); [left|right]; bounds; lia.
Qed.

Lemma swap_u32_reverse m a :
  swap_u32 m a
  = if in_bounds m a 4 then Some (reverse_range m a 4) else None.
Proof.
  unfold swap_u32. destruct (in_bounds m a 4) eqn:H.
  - destruct (in_bounds_split m a 4 H) as (pre & mid & post & -> & <- & Hmid).
    destruct mid as [|b0 [|b1 [|b2 [|b3 [|? ?]]]]]; try discriminate.
    change 4%nat with (length [b0; b1; b2; b3]). rewrite reverse_range_app.
    erewrite (swap_bytes_at pre _ _ _ 0 3); [|lia|lia|reflexivity..].
    simpl.
    erewrite (swap_bytes_at pre _ _ _ 1 2); [reflexivity|lia|lia|reflexivity..].
  - rewrite swap_bytes_None; [reflexivity|]. bounds.
    destruct (Z.ltb_spec a 0); [left|right]; bounds; lia.
Qed.

(** The four exchanges of [BlobConstant::endian_swap] reverse the eight
    bytes of [value]. *)
Lemma swap_value_reverse m a :
  (m1 ← swap_bytes m a (a + 7);
   m2 ← swap_bytes m1 (a + 1) (a + 6);
   m3 ← swap_bytes m2 (a + 2) (a + 5);
   swap_bytes m3 (a + 3) (a + 4))
  = if in_bounds m a 8 then Some (reverse_range m a 8) else None.
Proof.
  destruct (in_bounds m a 8) eqn:H.
  - destruct (in_bounds_split m a 8 H) as (pre & mid & post & -> & <- & Hmid).
    do 9 (destruct mid as [|? mid]; try discriminate).
    match goal with
    | |- context [reverse_range (pre ++ ?l ++ post) _ 8%nat] =>
        change 8%nat with (length l)
    end.
    rewrite reverse_range_app.
    erewrite (swap_bytes_at pre _ _ _ 0 7); [|lia|lia|reflexivity..]. simpl.
    erewrite (swap_bytes_at pre _ _ _ 1 6); [|lia|lia|reflexivity..]. simpl.
    erewrite (swap_bytes_at pre _ _ _ 2 5); [|lia|lia|reflexivity..]. simpl.
    erewrite (swap_bytes_at pre _ _ _ 3 4); [reflexivity|lia|lia|reflexivity..].
  - rewrite swap_bytes_None; [reflexivity|]. bounds.
    destruct (Z.ltb_spec a 0); [left|right]; bounds; lia.
Qed.

Ltac split_bounds :=
  repeat match goal with
    | |- context [in_bounds ?m ?a ?n] =>
        let E := fresh "E" in destruct (in_bounds m a n) eqn:E; simpl
    end;
  bounds; try reflexivity; try lia.

Lemma BlobString_endian_swap_reverse m a :
  BlobString.endian_swap m a
  = if in_bounds m a 2 then Some (reverse_range m a 2) else None.
Proof.
  unfold BlobString.endian_swap, BlobString.length.
  rewrite Z.add_0_r. apply swap_u16_reverse.
Qed.

Lemma BlobField_endian_swap_reverse m a :
  BlobField.endian_swap m a
  = if in_bounds m a 12
    then Some (reverse_range (reverse_range (reverse_range m a 4) (a + 4) 4)
                 (a + 8) 4)
    else None.
Proof.
  unfold BlobField.endian_swap, BlobField.declaredName,
    BlobField.declaredType, BlobField.offset.
  rewrite Z.add_0_r, swap_u32_reverse.
  destruct (in_bounds m a 4) eqn:E0; simpl.
  2: { split_bounds. }
  rewrite swap_u32_reverse, in_bounds_reverse_range.
  destruct (in_bounds m (a + 4) 4) eqn:E1; simpl.
  2: { split_bounds. }
  rewrite swap_u32_reverse, !in_bounds_reverse_range.
  split_bounds.
Qed.

Lemma BlobConstant_endian_swap_reverse m a :
  BlobConstant.endian_swap m a
  = if in_bounds m a 12
    then Some (reverse_range (reverse_range m a 4) (a + 4) 8)
    else None.
Proof.
  unfold BlobConstant.endian_swap, BlobConstant.name, BlobConstant.value.
  cbv zeta. rewrite !Z.add_0_r, swap_u32_reverse.
  destruct (in_bounds m a 4) eqn:E0; simpl.
  2: { split_bounds. }
  rewrite swap_value_reverse, in_bounds_reverse_range.
  split_bounds.
Qed.

Lemma BlobStruct_endian_swap_reverse m a :
  BlobStruct.endian_swap m a
  = if in_bounds m a 20
    then Some (reverse_range (reverse_range (reverse_range (reverse_range
                 (reverse_range m a 4) (a + 4) 4) (a + 8) 4) (a + 12) 4)
                 (a + 16) 4)
    else None.
Proof.
  unfold BlobStruct.endian_swap, BlobStruct.nameOffset, BlobStruct.superName,
    BlobStruct.sizeOf, BlobStruct.fieldCount, BlobStruct.constCount.
  rewrite Z.add_0_r, swap_u32_reverse.
  destruct (in_bounds m a 4) eqn:E0; simpl.
  2: { split_bounds. }
  rewrite swap_u32_reverse, in_bounds_reverse_range.
  destruct (in_bounds m (a + 4) 4) eqn:E1; simpl.
  2: { split_bounds. }
  rewrite swap_u32_reverse, !in_bounds_reverse_range.
  destruct (in_bounds m (a + 8) 4) eqn:E2; simpl.
  2: { split_bounds. }
  rewrite swap_u32_reverse, !in_bounds_reverse_range.
  destruct (in_bounds m (a + 12) 4) eqn:E3; simpl.
  2: { split_bounds. }
  rewrite swap_u32_reverse, !in_bounds_reverse_range.
  split_bounds.
Qed.

Lemma BlobHeaderV1_endian_swap_reverse m a :
  BlobHeaderV1.endian_swap m a
  = if in_bounds m a 20
    then Some (reverse_range (reverse_range (reverse_range
                 (reverse_range m a 4) (a + 8) 4) (a + 12) 4) (a + 16) 4)
    else None.
Proof.
  unfold BlobHeaderV1.endian_swap, BlobHeaderV1.coreVersion,
    BlobHeaderV1.structDataSize, BlobHeaderV1.stringTableDataSize,
    BlobHeaderV1.structureCount.
  rewrite Z.add_0_r, swap_u32_reverse.
  destruct (in_bounds m a 4) eqn:E0; simpl.
  2: { split_bounds. }
  rewrite swap_u32_reverse, in_bounds_reverse_range.
  destruct (in_bounds m (a + 8) 4) eqn:E1; simpl.
  2: { split_bounds. }
  rewrite swap_u32_reverse, !in_bounds_reverse_range.
  destruct (in_bounds m (a + 12) 4) eqn:E2; simpl.
  2: { split_bounds. }
  rewrite swap_u32_reverse, !in_bounds_reverse_range.
  split_bounds.
Qed.

Lemma load_u8_length m m' a :
  length m' = length m ->
  (in_bounds m a 1 = true -> m' !! Z.to_nat a = m !! Z.to_nat a) ->
  load_u8 m' a = load_u8 m a.
Proof.
  intros Hl H. unfold load_u8. rewrite (in_bounds_length _ _ _ _ Hl).
  destruct (in_bounds m a 1); auto.
Qed.

(** Address [a + k] of a reversed range holds what was at the mirror
    address [a + (n - 1 - k)]. *)
Lemma load_u8_reverse_range_inside m a (n : nat) k :
  in_bounds m a (Z.of_nat n) = true ->
  0 <= k < Z.of_nat n ->
  load_u8 (reverse_range m a n) (a + k) = load_u8 m (a + (Z.of_nat n - 1 - k)).
Proof.
  intros H Hk. unfold load_u8. rewrite in_bounds_reverse_range.
  replace (in_bounds m (a + k) 1) with true by (symmetry; bounds; lia).
  replace (in_bounds m (a + _) 1) with true by (symmetry; bounds; lia).
  bounds.
  replace (Z.to_nat (a + k)) with (Z.to_nat a + Z.to_nat k)%nat by lia.
  rewrite lookup_reverse_range_inside by (bounds; lia).
  f_equal. lia.
Qed.

Lemma load_u8_same_outside m m' a n b :
  same_outside m m' a n -> b < a \/ a + n <= b ->
  load_u8 m' b = load_u8 m b.
Proof.
  intros [Hl Hs] Hb. apply load_u8_length; [exact Hl|].
  intros Hin. bounds. apply Hs. lia.
Qed.

Lemma same_outside_sym m m' a n :
  same_outside m m' a n -> same_outside m' m a n.
Proof.
  intros [Hl Hs]. split; [congruence|]. intros i Hi. symmetry. auto.
Qed.

(** Reversals of disjoint ranges commute. *)
Lemma reverse_range_two m a n1 n2 pre m1 m2 post :
  m = pre ++ m1 ++ m2 ++ post ->
  a = Z.of_nat (length pre) -> n1 = length m1 -> n2 = length m2 ->
  reverse_range (reverse_range m a n1) (a + Z.of_nat n1) n2
  = pre ++ reverse m1 ++ reverse m2 ++ post.
Proof.
  intros -> -> -> ->.
  rewrite (reverse_range_app pre m1 (m2 ++ post)).
  rewrite (app_assoc pre (reverse m1)).
  replace (Z.of_nat (length pre) + Z.of_nat (length m1))
    with (Z.of_nat (length (pre ++ reverse m1)))
    by (rewrite length_app, length_reverse; lia).
  rewrite reverse_range_app, <- app_assoc. reflexivity.
Qed.

Lemma in_bounds_split2 m a n1 n2 :
  in_bounds m a (Z.of_nat (n1 + n2)) = true ->
  exists pre m1 m2 post,
    m = pre ++ m1 ++ m2 ++ post /\ a = Z.of_nat (length pre)
    /\ n1 = length m1 /\ n2 = length m2.
Proof.
  intros H.
  destruct (in_bounds_split _ _ _ H) as (pre & mid & post & -> & <- & Hmid).
  exists pre, (take n1 mid), (drop n1 mid), post.
  rewrite (app_assoc (take n1 mid)), take_drop.
  rewrite length_take, length_drop. repeat split; lia.
Qed.

Lemma BlobConstant_endian_swap_involutive m a m' :
  BlobConstant.endian_swap m a = Some m' ->
  BlobConstant.endian_swap m' a = Some m.
Proof.
  rewrite !BlobConstant_endian_swap_reverse.
  destruct (in_bounds m a 12) eqn:H; [|discriminate]. intros [= <-].
  rewrite !in_bounds_reverse_range, H. f_equal.
  destruct (in_bounds_split2 m a 4 8 H) as (pre & m1 & m2 & post & E & Ha & H1 & H2).
  change (a + 4) with (a + Z.of_nat 4).
  rewrite (reverse_range_two m a 4 8 pre m1 m2 post E Ha H1 H2).
  rewrite (reverse_range_two _ a 4 8 pre (reverse m1) (reverse m2) post
             eq_refl Ha); rewrite ?length_reverse, ?reverse_involutive; auto.
Qed.

(** C8. The swap primitives reverse the bytes of their operand where it
    lies and are their own inverse, for every content of the operand:
    [swap_u16] and [swap_u32] reverse two and four bytes, and the swap
    of a constant record exchanges the bytes 0 and 7, 1 and 6, 2 and 5,
    3 and 4 of its [value], at any address [a] (nothing is assumed of
    its alignment).  Bytes outside of the operand are left alone, and a
    read in one byte order after the swap is a read in the other byte
    order before it. *)
Theorem swap_primitives_reverse_in_place (m : memory) (a : Z) :
  (in_bounds m a 2 = true ->
   exists m',
     swap_u16 m a = Some m'
     /\ load_bytes m' a 2 = reverse <$> load_bytes m a 2
     /\ (forall o, load_u16 o m' a = load_u16 (opposite o) m a)
     /\ same_outside m m' a 2
     /\ swap_u16 m' a = Some m)
  /\ (in_bounds m a 4 = true ->
      exists m',
        swap_u32 m a = Some m'
        /\ load_bytes m' a 4 = reverse <$> load_bytes m a 4
        /\ (forall o, load_u32 o m' a = load_u32 (opposite o) m a)
        /\ same_outside m m' a 4
        /\ swap_u32 m' a = Some m)
  /\ (in_bounds m a 12 = true ->
      exists m',
        BlobConstant.endian_swap m a = Some m'
        /\ (forall k, 0 <= k < 8 ->
            load_u8 m' (a + BlobConstant.value + k)
            = load_u8 m (a + BlobConstant.value + (7 - k)))
        /\ (forall o, load_u32 o m' (a + BlobConstant.name)
                      = load_u32 (opposite o) m (a + BlobConstant.name))
        /\ (forall o, load_u64 o m' (a + BlobConstant.value)
                      = load_u64 (opposite o) m (a + BlobConstant.value))
        /\ same_outside m m' a 12
        /\ BlobConstant.endian_swap m' a = Some m).
Proof.
  split; [|split]; intros H.
  - exists (reverse_range m a 2). rewrite !swap_u16_reverse, H.
    rewrite in_bounds_reverse_range, H.
    repeat split.
    + apply load_bytes_reverse_range.
    + intros o. apply load_uint_reverse_range.
    + apply length_reverse_range.
    + intros i Hi. apply lookup_reverse_range_outside; assumption.
    + f_equal. apply reverse_range_involutive, H.
  - exists (reverse_range m a 4). rewrite !swap_u32_reverse, H.
    rewrite in_bounds_reverse_range, H.
    repeat split.
    + apply load_bytes_reverse_range.
    + intros o. apply load_uint_reverse_range.
    + apply length_reverse_range.
    + intros i Hi. apply lookup_reverse_range_outside; assumption.
    + f_equal. apply reverse_range_involutive, H.
  - pose proof (BlobConstant_endian_swap_involutive m a) as Hinv.
    rewrite BlobConstant_endian_swap_reverse, H in Hinv |- *.
    eexists. split; [reflexivity|].
    assert (H4 : in_bounds m a (Z.of_nat 4) = true) by (bounds; lia).
    assert (H8 : in_bounds (reverse_range m a 4) (a + 4) (Z.of_nat 8) = true)
      by (rewrite in_bounds_reverse_range; bounds; lia).
    pose proof (same_outside_reverse_range _ _ _ H4) as S4.
    pose proof (same_outside_reverse_range _ _ _ H8) as S8.
    unfold BlobConstant.value, BlobConstant.name. rewrite Z.add_0_r.
    repeat split.
    + intros k Hk.
      rewrite (load_u8_reverse_range_inside _ _ 8) by (assumption || lia).
      rewrite (load_u8_same_outside _ _ _ _ _ S4) by lia.
      f_equal; lia.
    + intros o. unfold load_u32.
      rewrite (load_uint_same_outside _ _ _ _ _ _ _ S8) by lia.
      apply load_uint_reverse_range.
    + intros o. unfold load_u64. rewrite load_uint_reverse_range.
      apply (load_uint_same_outside _ _ _ _ _ _ _ S4). lia.
    + rewrite !length_reverse_range. reflexivity.
    + intros i Hi.
      rewrite lookup_reverse_range_outside by (assumption || lia).
      apply lookup_reverse_range_outside; [assumption|lia].
    + apply Hinv. reflexivity.
Qed.

Lemma swap_primitives_reverse_in_place_witness :
  (in_bounds thirteen_bytes 1 2 = true
   /\ in_bounds thirteen_bytes 1 4 = true
   /\ in_bounds thirteen_bytes 1 12 = true)
  /\ (exists m', swap_u16 thirteen_bytes 1 = Some m'
                 /\ swap_u16 m' 1 = Some thirteen_bytes)
  /\ (exists m', swap_u32 thirteen_bytes 1 = Some m'
                 /\ swap_u32 m' 1 = Some thirteen_bytes)
  /\ (exists m', BlobConstant.endian_swap thirteen_bytes 1 = Some m'
                 /\ BlobConstant.endian_swap m' 1 = Some thirteen_bytes).
Proof.
  destruct (swap_primitives_reverse_in_place thirteen_bytes 1)
    as (H2 & H4 & H12).
  split; [repeat split|]. split; [|split].
  - destruct H2 as (m' & ? & _ & _ & _ & ?); [reflexivity|]. exists m'. auto.
  - destruct H4 as (m' & ? & _ & _ & _ & ?); [reflexivity|]. exists m'. auto.
  - destruct H12 as (m' & ? & _ & _ & _ & _ & ?); [reflexivity|].
    exists m'. auto.
Defined.

(** ** Stepping through the monad *)

Lemma bind_Done {A B} (c : M A) (k : A -> M B) s b s' :
  (c ≫= k) s = Done b s' <->
  exists a s1, c s = Done a s1 /\ k a s1 = Done b s'.
Proof.
  unfold mbind, M_bind. destruct (c s) as [a s1| |]; split.
  - eauto.
  - intros (? & ? & [= <- <-] & ?). assumption.
  - discriminate.
  - intros (? & ? & ? & _). discriminate.
  - discriminate.
  - intros (? & ? & ? & _). discriminate.
Qed.

Lemma bind_Timeout {A B} (c : M A) (k : A -> M B) s :
  (c ≫= k) s = Timeout <->
  c s = Timeout \/ exists a s1, c s = Done a s1 /\ k a s1 = Timeout.
Proof.
  unfold mbind, M_bind. destruct (c s) as [a s1| |]; split.
  - eauto.
  - intros [?|(? & ? & [= <- <-] & ?)]; [discriminate|assumption].
  - discriminate.
  - intros [?|(? & ? & ? & _)]; discriminate.
  - auto.
  - auto.
Qed.

Lemma bind_eq {A B} (c : M A) (k : A -> M B) s a s1 :
  c s = Done a s1 -> (c ≫= k) s = k a s1.
Proof. unfold mbind, M_bind. intros ->. reflexivity. Qed.

Lemma mret_eq {A} (a : A) s : (mret a : M A) s = Done a s.
Proof. reflexivity. Qed.

Lemma of_option_Done {A} (f : state -> option A) s a s' :
  of_option f s = Done a s' <-> f s = Some a /\ s' = s.
Proof.
  unfold of_option. destruct (f s); split.
  - intros [= <- <-]. auto.
  - intros [[= <-] ->]. reflexivity.
  - discriminate.
  - intros [? _]. discriminate.
Qed.

Lemma of_option_not_Timeout {A} (f : state -> option A) s :
  of_option f s <> Timeout.
Proof. unfold of_option. destruct (f s); discriminate. Qed.

Lemma buf_update_Done f s u s' :
  buf_update f s = Done u s' <->
  exists b, f (blobBuffer s) = Some b
            /\ s' = mkState (blobHdrV1 s) b (output s).
Proof.
  unfold buf_update. destruct (f (blobBuffer s)) as [b|]; split.
  - intros [= <- <-]. eauto.
  - intros (? & [= <-] & ->). destruct u. reflexivity.
  - discriminate.
  - intros (? & ? & _). discriminate.
Qed.

Lemma buf_update_not_Timeout f s : buf_update f s <> Timeout.
Proof. unfold buf_update. destruct (f _); discriminate. Qed.

Lemma hdr_update_Done f s u s' :
  hdr_update f s = Done u s' <->
  exists h, f (blobHdrV1 s) = Some h
            /\ s' = mkState h (blobBuffer s) (output s).
Proof.
  unfold hdr_update. destruct (f (blobHdrV1 s)) as [h|]; split.
  - intros [= <- <-]. eauto.
  - intros (? & [= <-] & ->). destruct u. reflexivity.
  - discriminate.
  - intros (? & ? & _). discriminate.
Qed.

Lemma printf_Done e s u s' :
  printf e s = Done u s' <->
  s' = mkState (blobHdrV1 s) (blobBuffer s) (output s ++ [e]).
Proof.
  unfold printf. split.
  - intros [= <- <-]. reflexivity.
  - intros ->. destruct u. reflexivity.
Qed.

Lemma loop_fuel_Done s n s' :
  loop_fuel s = Done n s' <-> n = S (length (blobBuffer s)) /\ s' = s.
Proof.
  unfold loop_fuel. split.
  - intros [= <- <-]. auto.
  - intros [-> ->]. reflexivity.
Qed.

(** Breaks a hypothesis [c s = Done a s'] along the binds of [c]. *)
Ltac step_in H :=
  let a := fresh "v" in
  let s1 := fresh "s" in
  let H1 := fresh "Hs" in
  first
    [ apply bind_Done in H as (a & s1 & H1 & H)
    | unfold buf_u16, buf_u32, buf_u64, buf_string, hdr_u8, hdr_u32 in H;
      apply of_option_Done in H as [H ->]
    | apply buf_update_Done in H as (a & H & ->)
    | apply hdr_update_Done in H as (a & H & ->)
    | apply printf_Done in H as ->
    | apply loop_fuel_Done in H as [-> ->] ].

Lemma of_option_bind {A B} (f : state -> option A) (k : A -> M B) s :
  (of_option f ≫= k) s
  = match f s with Some a => k a s | None => Fault end.
Proof. unfold mbind, M_bind, of_option. destruct (f s); reflexivity. Qed.


Lemma bind_Fault {A B} (c : M A) (k : A -> M B) s :
  c s = Fault -> (c ≫= k) s = Fault.
Proof. unfold mbind, M_bind. intros ->. reflexivity. Qed.

(** Loads inside the buffer succeed. *)
Lemma buf_load_Done host n a s v :
  load_uint host n (blobBuffer s) a = Some v ->
  of_option (fun s => load_uint host n (blobBuffer s) a) s = Done v s.
Proof. intros H. unfold of_option. rewrite H. reflexivity. Qed.

Lemma buf_u16_total host a s :
  in_bounds (blobBuffer s) a 2 = true ->
  exists v, buf_u16 host a s = Done v s.
Proof.
  intros B. destruct (load_uint_is_Some host 2 _ _ B) as [v Hv].
  exists v. apply buf_load_Done. exact Hv.
Qed.

Lemma buf_u32_total host a s :
  in_bounds (blobBuffer s) a 4 = true ->
  exists v, buf_u32 host a s = Done v s.
Proof.
  intros B. destruct (load_uint_is_Some host 4 _ _ B) as [v Hv].
  exists v. apply buf_load_Done. exact Hv.
Qed.

Lemma buf_u64_total host a s :
  in_bounds (blobBuffer s) a 8 = true ->
  exists v, buf_u64 host a s = Done v s.
Proof.
  intros B. destruct (load_uint_is_Some host 8 _ _ B) as [v Hv].
  exists v. apply buf_load_Done. exact Hv.
Qed.

(** ** The header *)

Lemma header_fields_after_swap o h :
  in_bounds h 0 20 = true ->
  exists h',
    BlobHeaderV1.endian_swap h 0 = Some h'
    /\ length h' = length h
    /\ load_u32 o h' BlobHeaderV1.coreVersion
       = load_u32 (opposite o) h BlobHeaderV1.coreVersion
    /\ load_u32 o h' BlobHeaderV1.structDataSize
       = load_u32 (opposite o) h BlobHeaderV1.structDataSize
    /\ load_u32 o h' BlobHeaderV1.stringTableDataSize
       = load_u32 (opposite o) h BlobHeaderV1.stringTableDataSize
    /\ load_u32 o h' BlobHeaderV1.structureCount
       = load_u32 (opposite o) h BlobHeaderV1.structureCount
    /\ (forall a, 4 <= a < 8 -> load_u8 h' a = load_u8 h a).
Proof.
  intros H. rewrite BlobHeaderV1_endian_swap_reverse, H.
  eexists. split; [reflexivity|].
  change (0 + 8) with 8. change (0 + 12) with 12. change (0 + 16) with 16.
  unfold BlobHeaderV1.coreVersion, BlobHeaderV1.structDataSize,
    BlobHeaderV1.stringTableDataSize, BlobHeaderV1.structureCount, load_u32.
  assert (B : forall a, 0 <= a <= 16 -> in_bounds h a (Z.of_nat 4) = true)
    by (intros; bounds; lia).
  repeat split.
  - rewrite !length_reverse_range. reflexivity.
  - rewrite !load_uint_reverse_range_other
      by (rewrite ?in_bounds_reverse_range; (apply B; lia) || lia).
    apply load_uint_reverse_range.
  - rewrite !load_uint_reverse_range_other
      by (rewrite ?in_bounds_reverse_range; (apply B; lia) || lia).
    rewrite load_uint_reverse_range.
    apply load_uint_reverse_range_other; [apply B|]; lia.
  - rewrite !load_uint_reverse_range_other
      by (rewrite ?in_bounds_reverse_range; (apply B; lia) || lia).
    rewrite load_uint_reverse_range.
    rewrite !load_uint_reverse_range_other
      by (rewrite ?in_bounds_reverse_range; (apply B; lia) || lia).
    reflexivity.
  - rewrite load_uint_reverse_range.
    rewrite !load_uint_reverse_range_other
      by (rewrite ?in_bounds_reverse_range; (apply B; lia) || lia).
    reflexivity.
  - intros a Ha.
    repeat (erewrite load_u8_same_outside;
            [|apply same_outside_reverse_range;
              rewrite ?in_bounds_reverse_range; apply B; lia|lia]).
    reflexivity.
Qed.

(** C1. When the raw [coreVersion] of the header exceeds [0xFFFF] the
    decoder sets [swapsNeeded] and swaps the four multi-byte fields of
    the header ([coreVersion], [structDataSize], [stringTableDataSize],
    [structureCount]) before any of them is used: afterwards each reads
    as the value stored in the other byte order, and the one-byte fields
    are as they were.  In particular a header written with
    [coreVersion = 1] in the byte order of the host or in the other one
    decodes to [coreVersion = 1]; only in the second case are swaps
    needed. *)
Theorem byte_order_inference (host : byte_order) (s : state) :
  length (blobHdrV1 s) = 20%nat ->
  (forall raw,
     load_u32 host (blobHdrV1 s) BlobHeaderV1.coreVersion = Some raw ->
     65535 < raw ->
     exists h',
       fix_byte_order host s
       = Done true (mkState h' (blobBuffer s) (output s))
       /\ load_u32 host h' BlobHeaderV1.coreVersion
          = load_u32 (opposite host) (blobHdrV1 s) BlobHeaderV1.coreVersion
       /\ load_u32 host h' BlobHeaderV1.structDataSize
          = load_u32 (opposite host) (blobHdrV1 s) BlobHeaderV1.structDataSize
       /\ load_u32 host h' BlobHeaderV1.stringTableDataSize
          = load_u32 (opposite host) (blobHdrV1 s)
              BlobHeaderV1.stringTableDataSize
       /\ load_u32 host h' BlobHeaderV1.structureCount
          = load_u32 (opposite host) (blobHdrV1 s) BlobHeaderV1.structureCount
       /\ (forall a, 4 <= a < 8 -> load_u8 h' a = load_u8 (blobHdrV1 s) a))
  /\ (forall o rest,
        blobHdrV1 s = u32 o 1 ++ rest ->
        exists s',
          fix_byte_order host s = Done (bool_decide (o <> host)) s'
          /\ hdr_u32 host BlobHeaderV1.coreVersion s' = Done 1 s').
Proof.
  intros Hlen. split.
  - intros raw Hraw Hbig.
    destruct (header_fields_after_swap host (blobHdrV1 s)) as (h' & Hswap & _ & F).
    { bounds. lia. }
    exists h'. split; [|exact F].
    unfold fix_byte_order.
    erewrite bind_eq by (apply of_option_Done; split; [exact Hraw|reflexivity]).
    replace (65535 <? raw) with true by (symmetry; apply Z.ltb_lt; exact Hbig).
    unfold when.
    erewrite bind_eq; [reflexivity|].
    apply (proj2 (hdr_update_Done _ _ tt _)).
    eexists. split; [exact Hswap|reflexivity].
  - intros o rest E. destruct s as [h b out]. simpl in *. subst h.
    destruct o; simpl in Hlen;
      do 17 (destruct rest as [|? rest]; simpl in Hlen; try discriminate Hlen);
      destruct host; eexists; (split; [cbv; reflexivity|]); cbv; reflexivity.
Qed.

Lemma byte_order_inference_witness :
  (length (blobHdrV1 (state_with_header (zoo BigEndian))) = 20%nat
   /\ load_u32 LittleEndian (blobHdrV1 (state_with_header (zoo BigEndian)))
        BlobHeaderV1.coreVersion = Some 16777216
   /\ 65535 < 16777216
   /\ blobHdrV1 (state_with_header (zoo BigEndian))
      = u32 BigEndian 1
          ++ drop 4 (blobHdrV1 (state_with_header (zoo BigEndian))))
  /\ (exists h',
        fix_byte_order LittleEndian (state_with_header (zoo BigEndian))
        = Done true (mkState h' [] [])
        /\ load_u32 LittleEndian h' BlobHeaderV1.coreVersion = Some 1
        /\ load_u32 LittleEndian h' BlobHeaderV1.structDataSize = Some 96
        /\ load_u32 LittleEndian h' BlobHeaderV1.stringTableDataSize = Some 48
        /\ load_u32 LittleEndian h' BlobHeaderV1.structureCount = Some 3)
  /\ (exists s',
        fix_byte_order LittleEndian (state_with_header (zoo BigEndian))
        = Done true s'
        /\ hdr_u32 LittleEndian BlobHeaderV1.coreVersion s' = Done 1 s').
Proof.
  destruct (byte_order_inference LittleEndian (state_with_header (zoo BigEndian))
              eq_refl) as [Ha Hb].
  split; [repeat split; reflexivity || lia|]. split.
  - destruct (Ha 16777216 eq_refl eq_refl) as (h' & H0 & H1 & H2 & H3 & H4 & _).
    exists h'. repeat split; assumption.
  - exact (Hb BigEndian
             (drop 4 (blobHdrV1 (state_with_header (zoo BigEndian)))) eq_refl).
Defined.

(** ** One string entry *)

Lemma when_Done (b : bool) (c : M unit) s u s' :
  when b c s = Done u s' <->
  if b then c s = Done u s' else s' = s.
Proof.
  unfold when. destruct b; [reflexivity|]. split.
  - intros [= <- <-]. reflexivity.
  - intros ->. destruct u. reflexivity.
Qed.

Lemma land_1 v : Z.land v 1 = v mod 2.
Proof. change 1 with (Z.ones 1). rewrite Z.land_ones by lia. reflexivity. Qed.

Lemma read_string_Done host swapsNeeded stringDataStart cur num s next s' :
  read_string host swapsNeeded stringDataStart cur num s = Done next s' ->
  exists len data,
    in_bounds (blobBuffer s) cur 2 = true
    /\ blobBuffer s'
       = (if swapsNeeded then reverse_range (blobBuffer s) cur 2
          else blobBuffer s)
    /\ blobHdrV1 s' = blobHdrV1 s
    /\ load_u16 (file_order host swapsNeeded) (blobBuffer s) cur = Some len
    /\ load_u16 host (blobBuffer s') cur = Some len
    /\ printf_s (bytes_from (blobBuffer s') (cur + 2)) len = Some data
    /\ output s' = output s ++ [Out_string num (cur - stringDataStart) len data]
    /\ next = cur + (len + 2 + len mod 2).
Proof.
  unfold read_string, BlobString.length, BlobString.data,
    BlobString.sizeof_length.
  intros H. rewrite Z.add_0_r in H.
  step_in H. step_in H. step_in H. step_in H.
  step_in Hs0. step_in Hs1. step_in Hs2. injection H as <- <-.
  rename v0 into len, v1 into data. exists len, data.
  apply when_Done in Hs. destruct swapsNeeded.
  - step_in Hs. rewrite BlobString_endian_swap_reverse in Hs.
    destruct (in_bounds (blobBuffer s) cur 2) eqn:B; [|discriminate].
    injection Hs as <-. simpl in *.
    repeat split; try assumption; try reflexivity.
    + unfold load_u16 in *. rewrite <- load_uint_reverse_range. assumption.
    + rewrite land_1. reflexivity.
  - subst s0. simpl in *.
    repeat split; try assumption; try reflexivity.
    + apply (load_uint_in_bounds _ 2 _ _ _ Hs0).
    + rewrite land_1. reflexivity.
Qed.

Lemma printf_s_length s precision data :
  printf_s s precision = Some data ->
  Z.of_nat (length data) <= Z.max 0 precision /\ data `prefix_of` s
  /\ Forall (fun c => is_nul c = false) data.
Proof.
  revert precision data. induction s as [|c t IH]; intros precision data.
  - simpl. destruct (precision <=? 0); [|discriminate].
    intros [= <-]. simpl. split; [lia|]. split; [apply prefix_nil|constructor].
  - simpl. destruct (Z.leb_spec precision 0).
    + intros [= <-]. simpl. split; [lia|]. split; [apply prefix_nil|constructor].
    + destruct (is_nul c) eqn:N.
      * intros [= <-]. simpl. split; [lia|]. split; [apply prefix_nil|constructor].
      * destruct (printf_s t (precision - 1)) as [d|] eqn:E; [|discriminate].
        intros [= <-]. destruct (IH _ _ E) as (L & P & F).
        simpl. split; [lia|]. split; [apply prefix_cons; exact P|].
        constructor; assumption.
Qed.

(** Without a NUL among them, [%.*s] prints exactly the [precision]
    bytes of the content. *)
Lemma printf_s_exact s (n : nat) :
  (n <= length s)%nat ->
  Forall (fun c => is_nul c = false) (take n s) ->
  printf_s s (Z.of_nat n) = Some (take n s).
Proof.
  revert n. induction s as [|c t IH]; intros n Hn Hnul.
  - simpl in Hn. assert (n = 0%nat) as -> by lia. reflexivity.
  - destruct n as [|n]; [reflexivity|].
    cbn [printf_s]. replace (Z.of_nat (S n) <=? 0) with false
      by (symmetry; apply Z.leb_gt; lia).
    simpl in Hnul. inversion Hnul as [|? ? Hc Ht]; subst.
    rewrite Hc. replace (Z.of_nat (S n) - 1) with (Z.of_nat n) by lia.
    rewrite IH; [reflexivity|simpl in Hn; lia|assumption].
Qed.

Lemma le_value_bound bs : le_value bs < 256 ^ Z.of_nat (length bs).
Proof.
  induction bs as [|b t IH]; [simpl; lia|].
  cbn [le_value length]. rewrite Nat2Z.inj_succ, Z.pow_succ_r by lia.
  pose proof (byte_val_range b). lia.
Qed.

Lemma load_uint_bound o n m a v :
  load_uint o n m a = Some v -> 0 <= v < 256 ^ Z.of_nat n.
Proof.
  intros H. split; [eapply load_uint_nonneg; eassumption|].
  unfold load_uint, load_bytes in H.
  destruct (in_bounds m a (Z.of_nat n)) eqn:B; [|discriminate].
  injection H as <-. bounds.
  assert (L : length (take n (drop (Z.to_nat a) m)) = n)
    by (rewrite length_take, length_drop; lia).
  destruct o; simpl.
  - rewrite <- L at 2. apply le_value_bound.
  - rewrite <- L at 2. rewrite <- length_reverse. apply le_value_bound.
Qed.

Lemma printf_s_total s precision :
  precision <= Z.of_nat (length s) -> is_Some (printf_s s precision).
Proof.
  revert precision. induction s as [|c t IH]; intros p Hp; cbn [printf_s].
  - replace (p <=? 0) with true
      by (symmetry; apply Z.leb_le; simpl in Hp; lia).
    eexists; reflexivity.
  - destruct (p <=? 0) eqn:E; [eexists; reflexivity|].
    destruct (is_nul c); [eexists; reflexivity|].
    destruct (IH (p - 1)) as [d Hd]; [simpl in Hp; lia|].
    rewrite Hd. eexists; reflexivity.
Qed.

(** An entry that lies inside the buffer is read. *)
Lemma read_string_total host swapsNeeded stringDataStart cur num s len :
  load_u16 (file_order host swapsNeeded) (blobBuffer s) cur = Some len ->
  in_bounds (blobBuffer s) (cur + BlobString.data) len = true ->
  exists s',
    read_string host swapsNeeded stringDataStart cur num s
    = Done (cur + len + 2 + len mod 2) s'.
Proof.
  intros Hlen Hc. unfold BlobString.data in Hc.
  assert (B : in_bounds (blobBuffer s) cur 2 = true)
    by apply (load_uint_in_bounds _ 2 _ _ _ Hlen).
  assert (R : 0 <= len < 65536) by (apply (load_uint_bound _ 2 _ _ _ Hlen)).
  set (m1 := if swapsNeeded then reverse_range (blobBuffer s) cur 2
             else blobBuffer s).
  assert (Hswap :
    when swapsNeeded (buf_update (fun m => BlobString.endian_swap m cur)) s
    = Done tt (mkState (blobHdrV1 s) m1 (output s))).
  { subst m1. destruct swapsNeeded; simpl.
    - unfold buf_update. rewrite BlobString_endian_swap_reverse, B.
      reflexivity.
    - destruct s; reflexivity. }
  assert (Hl1 : load_uint host 2 m1 cur = Some len).
  { subst m1. destruct swapsNeeded; [|exact Hlen].
    unfold load_u16 in *. rewrite load_uint_reverse_range. exact Hlen. }
  assert (Hb1 : bytes_from m1 (cur + 2) = bytes_from (blobBuffer s) (cur + 2)).
  { subst m1. destruct swapsNeeded; [|reflexivity].
    eapply bytes_from_same_outside;
      [apply (same_outside_reverse_range _ _ 2); exact B|]. lia. }
  destruct (printf_s_total (bytes_from (blobBuffer s) (cur + 2)) len)
    as [data Hdata].
  { unfold bytes_from.
    replace (in_bounds (blobBuffer s) (cur + 2) 0) with true
      by (symmetry; bounds; lia).
    rewrite length_drop. bounds. lia. }
  unfold read_string, BlobString.length, BlobString.data,
    BlobString.sizeof_length.
  rewrite Z.add_0_r.
  rewrite (bind_eq _ _ _ _ _ Hswap).
  rewrite (bind_eq _ _ _ _ _
             (buf_load_Done host 2 cur (mkState (blobHdrV1 s) m1 (output s))
                len Hl1)).
  unfold buf_string. rewrite of_option_bind. cbn [blobBuffer].
  rewrite Hb1, Hdata.
  eexists. unfold mbind, M_bind, printf, mret, M_ret. rewrite land_1.
  replace (cur + (len + 2 + len mod 2)) with (cur + len + 2 + len mod 2)
    by lia.
  reflexivity.
Qed.

(** ** One field record and one constant record *)

Lemma same_outside_if (b : bool) m m' a n :
  (b = true -> same_outside m m' a n) ->
  same_outside m (if b then m' else m) a n.
Proof. destruct b; [auto|]. intros _. apply same_outside_refl. Qed.

Lemma field_words_after_swap o m a :
  in_bounds m a 12 = true ->
  let m' := reverse_range (reverse_range (reverse_range m a 4) (a + 4) 4)
              (a + 8) 4 in
  same_outside m m' a 12
  /\ load_u32 o m' a = load_u32 (opposite o) m a
  /\ load_u32 o m' (a + 4) = load_u32 (opposite o) m (a + 4)
  /\ load_u32 o m' (a + 8) = load_u32 (opposite o) m (a + 8).
Proof.
  intros H m'. subst m'. unfold load_u32.
  assert (B : forall b, a <= b <= a + 8 -> in_bounds m b (Z.of_nat 4) = true)
    by (intros; bounds; lia).
  split; [|split; [|split]].
  - split; [rewrite !length_reverse_range; reflexivity|].
    intros i Hi.
    rewrite !lookup_reverse_range_outside
      by (rewrite ?in_bounds_reverse_range; (apply B; lia) || lia).
    reflexivity.
  - rewrite !load_uint_reverse_range_other
      by (rewrite ?in_bounds_reverse_range; (apply B; lia) || lia).
    apply load_uint_reverse_range.
  - rewrite !load_uint_reverse_range_other
      by (rewrite ?in_bounds_reverse_range; (apply B; lia) || lia).
    rewrite load_uint_reverse_range.
    apply load_uint_reverse_range_other; [apply B|]; lia.
  - rewrite load_uint_reverse_range.
    rewrite !load_uint_reverse_range_other
      by (rewrite ?in_bounds_reverse_range; (apply B; lia) || lia).
    reflexivity.
Qed.

Lemma constant_words_after_swap o m a :
  in_bounds m a 12 = true ->
  let m' := reverse_range (reverse_range m a 4) (a + 4) 8 in
  same_outside m m' a 12
  /\ load_u32 o m' a = load_u32 (opposite o) m a
  /\ load_u64 o m' (a + 4) = load_u64 (opposite o) m (a + 4).
Proof.
  intros H m'. subst m'. unfold load_u32, load_u64.
  assert (B4 : in_bounds m a (Z.of_nat 4) = true) by (bounds; lia).
  assert (B8 : in_bounds m (a + 4) (Z.of_nat 8) = true) by (bounds; lia).
  split; [|split].
  - split; [rewrite !length_reverse_range; reflexivity|].
    intros i Hi.
    rewrite !lookup_reverse_range_outside
      by (rewrite ?in_bounds_reverse_range; assumption || lia).
    reflexivity.
  - rewrite load_uint_reverse_range_other
      by (rewrite ?in_bounds_reverse_range; assumption || lia).
    apply load_uint_reverse_range.
  - rewrite load_uint_reverse_range.
    apply load_uint_reverse_range_other; [assumption|lia].
Qed.

Lemma in_bounds_join m a n k :
  in_bounds m a n = true -> in_bounds m (a + n) k = true -> 0 <= n ->
  in_bounds m a (n + k) = true.
Proof. intros. bounds. lia. Qed.

Lemma read_field_Done host swapsNeeded stringDataStart cur s f next s' :
  read_field host swapsNeeded stringDataStart cur s = Done (f, next) s' ->
  next = cur + 12
  /\ in_bounds (blobBuffer s) cur 12 = true
  /\ blobHdrV1 s' = blobHdrV1 s
  /\ output s' = output s
  /\ (swapsNeeded = false -> blobBuffer s' = blobBuffer s)
  /\ same_outside (blobBuffer s) (blobBuffer s') cur 12
  /\ field_at (file_order host swapsNeeded) (blobBuffer s) stringDataStart cur f
  /\ load_u16 host (blobBuffer s') (Field.name f - BlobString.data)
     = Some (Field.nameLength f)
  /\ load_u16 host (blobBuffer s') (Field.type f - BlobString.data)
     = Some (Field.typeLength f).
Proof.
  unfold read_field, field_at, BlobField.declaredName, BlobField.declaredType,
    BlobField.offset, BlobField.sizeof, BlobString.length, BlobString.data.
  intros H. rewrite !Z.add_0_r in *.
  do 6 step_in H. injection H as <- <- <-.
  step_in Hs0. step_in Hs1. step_in Hs2. step_in Hs3. step_in Hs4.
  apply when_Done in Hs. simpl. rewrite ?Z.add_0_r in *.
  replace (BLOBSTRING_AT stringDataStart v0 + 2 - 2)
    with (BLOBSTRING_AT stringDataStart v0) by lia.
  replace (BLOBSTRING_AT stringDataStart v2 + 2 - 2)
    with (BLOBSTRING_AT stringDataStart v2) by lia.
  destruct swapsNeeded; simpl.
  - step_in Hs. rewrite BlobField_endian_swap_reverse in Hs.
    destruct (in_bounds (blobBuffer s) cur 12) eqn:B; [|discriminate].
    injection Hs as <-. simpl in *.
    destruct (field_words_after_swap host _ _ B) as (S & W0 & W1 & W2).
    rewrite W0 in Hs0. rewrite W1 in Hs2. rewrite W2 in Hs4.
    repeat split; try assumption; try reflexivity; try discriminate;
      try apply S.
    exists v0, v2. repeat split; assumption.
  - subst s0.
    assert (B : in_bounds (blobBuffer s) cur 12 = true).
    { apply (load_uint_in_bounds _ 4) in Hs0, Hs4. bounds. lia. }
    repeat split; try assumption; try reflexivity.
    exists v0, v2. repeat split; assumption.
Qed.

Lemma read_constant_Done host swapsNeeded stringDataStart cur s c next s' :
  read_constant host swapsNeeded stringDataStart cur s = Done (c, next) s' ->
  next = cur + 12
  /\ in_bounds (blobBuffer s) cur 12 = true
  /\ blobHdrV1 s' = blobHdrV1 s
  /\ output s' = output s
  /\ (swapsNeeded = false -> blobBuffer s' = blobBuffer s)
  /\ same_outside (blobBuffer s) (blobBuffer s') cur 12
  /\ constant_at (file_order host swapsNeeded) (blobBuffer s) stringDataStart
       cur c
  /\ load_u16 host (blobBuffer s') (Constant.name c - BlobString.data)
     = Some (Constant.nameLength c).
Proof.
  unfold read_constant, constant_at, BlobConstant.name, BlobConstant.value,
    BlobConstant.sizeof, BlobString.length, BlobString.data.
  intros H. rewrite !Z.add_0_r in *.
  do 4 step_in H. injection H as <- <- <-.
  step_in Hs0. step_in Hs1. step_in Hs2.
  apply when_Done in Hs. simpl. rewrite ?Z.add_0_r in *.
  replace (BLOBSTRING_AT stringDataStart v0 + 2 - 2)
    with (BLOBSTRING_AT stringDataStart v0) by lia.
  destruct swapsNeeded; simpl.
  - step_in Hs. rewrite BlobConstant_endian_swap_reverse in Hs.
    destruct (in_bounds (blobBuffer s) cur 12) eqn:B; [|discriminate].
    injection Hs as <-. simpl in *.
    destruct (constant_words_after_swap host _ _ B) as (S & W0 & W1).
    rewrite W0 in Hs0. rewrite W1 in Hs2.
    repeat split; try assumption; try reflexivity; try discriminate;
      try apply S.
    exists v0. repeat split; assumption.
  - subst s0.
    assert (B : in_bounds (blobBuffer s) cur 12 = true).
    { apply (load_uint_in_bounds _ 4) in Hs0.
      apply (load_uint_in_bounds _ 8) in Hs2. bounds. lia. }
    repeat split; try assumption; try reflexivity.
    exists v0. repeat split; assumption.
Qed.

(** ** The loops over the fields and the constants *)

Lemma field_decoded_frame host swapsNeeded m m1 stringDataStart limit c n a f :
  same_outside m m1 c n -> c + n <= a -> c + n <= limit ->
  field_decoded host swapsNeeded m1 stringDataStart limit a f ->
  field_decoded host swapsNeeded m stringDataStart limit a f.
Proof.
  intros S Ha Hl ((dn & dt & F0 & F1 & F2 & F3 & F4) & N & T).
  unfold field_decoded, field_at, load_u32, load_u16, BlobField.declaredName,
    BlobField.declaredType, BlobField.offset, BlobString.data in *.
  rewrite (load_uint_same_outside _ _ _ _ _ _ _ S) in F0 by lia.
  rewrite (load_uint_same_outside _ _ _ _ _ _ _ S) in F1 by lia.
  rewrite (load_uint_same_outside _ _ _ _ _ _ _ S) in F2 by lia.
  split; [exists dn, dt; auto|].
  split; intros H.
  - rewrite <- (load_uint_same_outside _ _ _ _ _ _ _ S) by lia. auto.
  - rewrite <- (load_uint_same_outside _ _ _ _ _ _ _ S) by lia. auto.
Qed.

Lemma constant_decoded_frame host swapsNeeded m m1 stringDataStart limit c n a k :
  same_outside m m1 c n -> c + n <= a -> c + n <= limit ->
  constant_decoded host swapsNeeded m1 stringDataStart limit a k ->
  constant_decoded host swapsNeeded m stringDataStart limit a k.
Proof.
  intros S Ha Hl ((cn & F0 & F1 & F2) & N).
  unfold constant_decoded, constant_at, load_u32, load_u64, load_u16,
    BlobConstant.name, BlobConstant.value, BlobString.data in *.
  rewrite (load_uint_same_outside _ _ _ _ _ _ _ S) in F0 by lia.
  rewrite (load_uint_same_outside _ _ _ _ _ _ _ S) in F1 by lia.
  split; [exists cn; auto|].
  intros H.
  rewrite <- (load_uint_same_outside _ _ _ _ _ _ _ S) by lia. auto.
Qed.

Lemma wrap32_small v : 0 <= v < 2 ^ 32 -> wrap32 v = v.
Proof. intros. unfold wrap32. apply Z.mod_small. assumption. Qed.

Lemma wrap32_range v : 0 <= wrap32 v < 2 ^ 32.
Proof. unfold wrap32. apply Z.mod_pos_bound. lia. Qed.

Section FieldLoop.
Variables (host : byte_order) (swapsNeeded : bool).
Variables (stringDataStart blobStruct n : Z).

(** With a count of [2^32 - 1] the counter wraps and the loop condition
    always holds: the loop cannot come to an end. *)
Lemma read_fields_loop_max fuel : forall cur i acc s r s',
  n = 2 ^ 32 - 1 ->
  load_u32 host (blobBuffer s) (blobStruct + BlobStruct.fieldCount) = Some n ->
  blobStruct + 16 <= cur -> 0 <= i < 2 ^ 32 ->
  read_fields_loop fuel host swapsNeeded stringDataStart blobStruct cur i acc s
  <> Done r s'.
Proof.
  induction fuel as [|fuel IH]; intros cur i acc s r s' Hn Hload Hcur Hi H;
    [discriminate|].
  cbn [read_fields_loop] in H. step_in H. step_in Hs.
  rewrite Hload in Hs. injection Hs as <-.
  replace (i <=? n) with true in H by (symmetry; apply Z.leb_le; lia).
  step_in H. destruct v as [f next].
  destruct (read_field_Done _ _ _ _ _ _ _ _ Hs) as (-> & _ & _ & _ & _ & Hso & _).
  eapply IH; [exact Hn| | | |exact H].
  - unfold load_u32, BlobStruct.fieldCount in *.
    rewrite (load_uint_same_outside _ _ _ _ _ _ _ Hso) by lia. exact Hload.
  - lia.
  - apply wrap32_range.
Qed.

Lemma read_fields_loop_Done fuel : forall cur i acc s fields cur' s',
  read_fields_loop fuel host swapsNeeded stringDataStart blobStruct cur i acc s
  = Done (fields, cur') s' ->
  load_u32 host (blobBuffer s) (blobStruct + BlobStruct.fieldCount) = Some n ->
  n + 1 < 2 ^ 32 -> blobStruct + 16 <= cur -> 1 <= i <= n + 1 ->
  exists new,
    fields = acc ++ new
    /\ Z.of_nat (length new) = n + 1 - i
    /\ cur' = cur + 12 * (n + 1 - i)
    /\ blobHdrV1 s' = blobHdrV1 s
    /\ output s' = output s
    /\ (swapsNeeded = false -> blobBuffer s' = blobBuffer s)
    /\ same_outside (blobBuffer s) (blobBuffer s') cur (cur' - cur)
    /\ (forall (k : nat) f, new !! k = Some f ->
        field_decoded host swapsNeeded (blobBuffer s) stringDataStart cur'
          (cur + 12 * Z.of_nat k) f).
Proof.
  induction fuel as [|fuel IH]; intros cur i acc s fields cur' s' H Hload Hn Hcur Hi;
    [discriminate|].
  cbn [read_fields_loop] in H. step_in H. step_in Hs.
  rewrite Hload in Hs. injection Hs as <-.
  destruct (Z.leb_spec i n) as [Hle|Hgt].
  - step_in H. destruct v as [f next].
    destruct (read_field_Done _ _ _ _ _ _ _ _ Hs)
      as (-> & B & Hh & Ho & Hb & Hso & Fat & Fn & Ft).
    rewrite wrap32_small in H by lia.
    apply IH in H as (new & -> & Hlen & -> & Hh' & Ho' & Hb' & Hso' & Hall);
      [| |lia|lia|lia].
    2: { unfold load_u32, BlobStruct.fieldCount in *.
         rewrite (load_uint_same_outside _ _ _ _ _ _ _ Hso) by lia.
         exact Hload. }
    exists (f :: new). rewrite <- app_assoc. simpl.
    split; [reflexivity|]. split; [lia|]. split; [lia|].
    split; [congruence|]. split; [congruence|].
    split; [intros E; rewrite Hb', Hb by assumption; reflexivity|].
    assert (Hpos : 0 <= Z.of_nat (length new)) by lia.
    split.
    + eapply same_outside_trans.
      * eapply same_outside_weaken; [exact Hso|lia|lia].
      * eapply same_outside_weaken; [exact Hso'|lia|lia].
    + intros [|k] g Hg.
      * injection Hg as <-. rewrite Z.mul_0_r, Z.add_0_r.
        apply (field_decoded_frame _ _ _ _ _ _ _ _ _ _
                 (same_outside_refl (blobBuffer s) cur 0)); [lia|lia|].
        split; [exact Fat|]. unfold load_u16, BlobString.data in *.
        split; intros Hlim.
        -- rewrite <- Fn. symmetry.
           apply (load_uint_same_outside _ _ _ _ _ _ _ Hso). lia.
        -- rewrite <- Ft. symmetry.
           apply (load_uint_same_outside _ _ _ _ _ _ _ Hso). lia.
      * apply (field_decoded_frame _ _ _ _ _ _ _ _ _ _ Hso); [lia|lia|].
        replace (cur + 12 * Z.of_nat (S k)) with (cur + 12 + 12 * Z.of_nat k)
          by lia.
        apply Hall. exact Hg.
  - injection H as <- <- <-. exists []. rewrite app_nil_r. simpl.
    assert (i = n + 1) as -> by lia.
    replace (cur + 12 * (n + 1 - (n + 1)) - cur) with 0 by lia.
    do 6 (split; [reflexivity || lia || auto|]).
    split; [apply same_outside_refl|].
    intros k f Hk. discriminate.
Qed.

End FieldLoop.

Section ConstantLoop.
Variables (host : byte_order) (swapsNeeded : bool).
Variables (stringDataStart blobStruct n : Z).

(** With a count of [2^32 - 1] the counter wraps and the loop condition
    always holds: the loop cannot come to an end. *)
Lemma read_constants_loop_max fuel : forall cur i acc s r s',
  n = 2 ^ 32 - 1 ->
  load_u32 host (blobBuffer s) (blobStruct + BlobStruct.constCount) = Some n ->
  blobStruct + 20 <= cur -> 0 <= i < 2 ^ 32 ->
  read_constants_loop fuel host swapsNeeded stringDataStart blobStruct cur i acc s
  <> Done r s'.
Proof.
  induction fuel as [|fuel IH]; intros cur i acc s r s' Hn Hload Hcur Hi H;
    [discriminate|].
  cbn [read_constants_loop] in H. step_in H. step_in Hs.
  rewrite Hload in Hs. injection Hs as <-.
  replace (i <=? n) with true in H by (symmetry; apply Z.leb_le; lia).
  step_in H. destruct v as [f next].
  destruct (read_constant_Done _ _ _ _ _ _ _ _ Hs) as (-> & _ & _ & _ & _ & Hso & _).
  eapply IH; [exact Hn| | | |exact H].
  - unfold load_u32, BlobStruct.constCount in *.
    rewrite (load_uint_same_outside _ _ _ _ _ _ _ Hso) by lia. exact Hload.
  - lia.
  - apply wrap32_range.
Qed.

Lemma read_constants_loop_Done fuel : forall cur i acc s constants cur' s',
  read_constants_loop fuel host swapsNeeded stringDataStart blobStruct cur i acc s
  = Done (constants, cur') s' ->
  load_u32 host (blobBuffer s) (blobStruct + BlobStruct.constCount) = Some n ->
  n + 1 < 2 ^ 32 -> blobStruct + 20 <= cur -> 1 <= i <= n + 1 ->
  exists new,
    constants = acc ++ new
    /\ Z.of_nat (length new) = n + 1 - i
    /\ cur' = cur + 12 * (n + 1 - i)
    /\ blobHdrV1 s' = blobHdrV1 s
    /\ output s' = output s
    /\ (swapsNeeded = false -> blobBuffer s' = blobBuffer s)
    /\ same_outside (blobBuffer s) (blobBuffer s') cur (cur' - cur)
    /\ (forall (k : nat) f, new !! k = Some f ->
        constant_decoded host swapsNeeded (blobBuffer s) stringDataStart cur'
          (cur + 12 * Z.of_nat k) f).
Proof.
  induction fuel as [|fuel IH]; intros cur i acc s constants cur' s' H Hload Hn Hcur Hi;
    [discriminate|].
  cbn [read_constants_loop] in H. step_in H. step_in Hs.
  rewrite Hload in Hs. injection Hs as <-.
  destruct (Z.leb_spec i n) as [Hle|Hgt].
  - step_in H. destruct v as [f next].
    destruct (read_constant_Done _ _ _ _ _ _ _ _ Hs)
      as (-> & B & Hh & Ho & Hb & Hso & Fat & Fn).
    rewrite wrap32_small in H by lia.
    apply IH in H as (new & -> & Hlen & -> & Hh' & Ho' & Hb' & Hso' & Hall);
      [| |lia|lia|lia].
    2: { unfold load_u32, BlobStruct.constCount in *.
         rewrite (load_uint_same_outside _ _ _ _ _ _ _ Hso) by lia.
         exact Hload. }
    exists (f :: new). rewrite <- app_assoc. simpl.
    split; [reflexivity|]. split; [lia|]. split; [lia|].
    split; [congruence|]. split; [congruence|].
    split; [intros E; rewrite Hb', Hb by assumption; reflexivity|].
    assert (Hpos : 0 <= Z.of_nat (length new)) by lia.
    split.
    + eapply same_outside_trans.
      * eapply same_outside_weaken; [exact Hso|lia|lia].
      * eapply same_outside_weaken; [exact Hso'|lia|lia].
    + intros [|k] g Hg.
      * injection Hg as <-. rewrite Z.mul_0_r, Z.add_0_r.
        apply (constant_decoded_frame _ _ _ _ _ _ _ _ _ _
                 (same_outside_refl (blobBuffer s) cur 0)); [lia|lia|].
        split; [exact Fat|]. unfold load_u16, BlobString.data in *.
        intros Hlim. rewrite <- Fn. symmetry.
        apply (load_uint_same_outside _ _ _ _ _ _ _ Hso). lia.
      * apply (constant_decoded_frame _ _ _ _ _ _ _ _ _ _ Hso); [lia|lia|].
        replace (cur + 12 * Z.of_nat (S k)) with (cur + 12 + 12 * Z.of_nat k)
          by lia.
        apply Hall. exact Hg.
  - injection H as <- <- <-. exists []. rewrite app_nil_r. simpl.
    assert (i = n + 1) as -> by lia.
    replace (cur + 12 * (n + 1 - (n + 1)) - cur) with 0 by lia.
    do 6 (split; [reflexivity || lia || auto|]).
    split; [apply same_outside_refl|].
    intros k f Hk. discriminate.
Qed.

End ConstantLoop.

Lemma load_u32_bound o m a v : load_u32 o m a = Some v -> 0 <= v < 2 ^ 32.
Proof. intros H. apply (load_uint_bound _ 4) in H. exact H. Qed.

Lemma read_fields_Done host swapsNeeded stringDataStart blobStruct cur s
    fields cur' s' :
  read_fields host swapsNeeded stringDataStart blobStruct cur s
  = Done (fields, cur') s' ->
  blobStruct + 16 <= cur ->
  exists n,
    load_u32 host (blobBuffer s) (blobStruct + BlobStruct.fieldCount) = Some n
    /\ Z.of_nat (length fields) = n
    /\ cur' = cur + 12 * n
    /\ blobHdrV1 s' = blobHdrV1 s
    /\ output s' = output s
    /\ (swapsNeeded = false -> blobBuffer s' = blobBuffer s)
    /\ same_outside (blobBuffer s) (blobBuffer s') cur (cur' - cur)
    /\ (forall (k : nat) f, fields !! k = Some f ->
        field_decoded host swapsNeeded (blobBuffer s) stringDataStart cur'
          (cur + 12 * Z.of_nat k) f).
Proof.
  unfold read_fields. intros H Hcur. step_in H. step_in Hs.
  pose proof H as H0. cbn [read_fields_loop] in H0. step_in H0. step_in Hs.
  clear H0. rename v into n. exists n.
  pose proof (load_u32_bound _ _ _ _ Hs) as Hn.
  destruct (Z.eq_dec n (2 ^ 32 - 1)) as [E|E].
  - exfalso.
    eapply read_fields_loop_max; [exact E|exact Hs|exact Hcur| |exact H].
    change (2 ^ 32) with 4294967296. lia.
  - apply (read_fields_loop_Done _ _ _ _ n) in H
      as (new & -> & Hlen & -> & R); [|assumption|lia|lia|lia].
    simpl. split; [assumption|]. split; [lia|].
    replace (n + 1 - 1) with n in * by lia. split; [reflexivity|]. exact R.
Qed.

Lemma read_constants_Done host swapsNeeded stringDataStart blobStruct cur s
    constants cur' s' :
  read_constants host swapsNeeded stringDataStart blobStruct cur s
  = Done (constants, cur') s' ->
  blobStruct + 20 <= cur ->
  exists n,
    load_u32 host (blobBuffer s) (blobStruct + BlobStruct.constCount) = Some n
    /\ Z.of_nat (length constants) = n
    /\ cur' = cur + 12 * n
    /\ blobHdrV1 s' = blobHdrV1 s
    /\ output s' = output s
    /\ (swapsNeeded = false -> blobBuffer s' = blobBuffer s)
    /\ same_outside (blobBuffer s) (blobBuffer s') cur (cur' - cur)
    /\ (forall (k : nat) c, constants !! k = Some c ->
        constant_decoded host swapsNeeded (blobBuffer s) stringDataStart cur'
          (cur + 12 * Z.of_nat k) c).
Proof.
  unfold read_constants. intros H Hcur. step_in H. step_in Hs.
  pose proof H as H0. cbn [read_constants_loop] in H0. step_in H0. step_in Hs.
  clear H0. rename v into n. exists n.
  pose proof (load_u32_bound _ _ _ _ Hs) as Hn.
  destruct (Z.eq_dec n (2 ^ 32 - 1)) as [E|E].
  - exfalso.
    eapply read_constants_loop_max; [exact E|exact Hs|exact Hcur| |exact H].
    change (2 ^ 32) with 4294967296. lia.
  - apply (read_constants_loop_Done _ _ _ _ n) in H
      as (new & -> & Hlen & -> & R); [|assumption|lia|lia|lia].
    simpl. split; [assumption|]. split; [lia|].
    replace (n + 1 - 1) with n in * by lia. split; [reflexivity|]. exact R.
Qed.



(** ** One structure *)

Lemma struct_words_after_swap o m a :
  in_bounds m a 20 = true ->
  let m' := reverse_range (reverse_range (reverse_range (reverse_range
              (reverse_range m a 4) (a + 4) 4) (a + 8) 4) (a + 12) 4)
              (a + 16) 4 in
  same_outside m m' a 20
  /\ load_u32 o m' a = load_u32 (opposite o) m a
  /\ load_u32 o m' (a + 4) = load_u32 (opposite o) m (a + 4)
  /\ load_u32 o m' (a + 8) = load_u32 (opposite o) m (a + 8)
  /\ load_u32 o m' (a + 12) = load_u32 (opposite o) m (a + 12)
  /\ load_u32 o m' (a + 16) = load_u32 (opposite o) m (a + 16).
Proof.
  intros H m'. subst m'. unfold load_u32.
  assert (B : forall b, a <= b <= a + 16 -> in_bounds m b (Z.of_nat 4) = true)
    by (intros; bounds; lia).
  split; [|split; [|split; [|split; [|split]]]].
  - split; [rewrite !length_reverse_range; reflexivity|].
    intros i Hi.
    rewrite !lookup_reverse_range_outside
      by (rewrite ?in_bounds_reverse_range; (apply B; lia) || lia).
    reflexivity.
  - rewrite !load_uint_reverse_range_other
      by (rewrite ?in_bounds_reverse_range; (apply B; lia) || lia).
    apply load_uint_reverse_range.
  - rewrite !load_uint_reverse_range_other
      by (rewrite ?in_bounds_reverse_range; (apply B; lia) || lia).
    rewrite load_uint_reverse_range.
    apply load_uint_reverse_range_other; [apply B|]; lia.
  - rewrite !load_uint_reverse_range_other
      by (rewrite ?in_bounds_reverse_range; (apply B; lia) || lia).
    rewrite load_uint_reverse_range.
    rewrite !load_uint_reverse_range_other
      by (rewrite ?in_bounds_reverse_range; (apply B; lia) || lia).
    reflexivity.
  - rewrite !load_uint_reverse_range_other
      by (rewrite ?in_bounds_reverse_range; (apply B; lia) || lia).
    rewrite load_uint_reverse_range.
    rewrite !load_uint_reverse_range_other
      by (rewrite ?in_bounds_reverse_range; (apply B; lia) || lia).
    reflexivity.
  - rewrite load_uint_reverse_range.
    rewrite !load_uint_reverse_range_other
      by (rewrite ?in_bounds_reverse_range; (apply B; lia) || lia).
    reflexivity.
Qed.

(** The swap of a structure record, when swaps are needed: the record is
    inside the buffer, and its five words then read in the byte order of
    the host as they read in the byte order of the blob before. *)
Lemma struct_swap_Done host swapsNeeded cur s u s1 :
  when swapsNeeded
    (buf_update (fun m => BlobStruct.endian_swap m cur)) s = Done u s1 ->
  blobHdrV1 s1 = blobHdrV1 s
  /\ output s1 = output s
  /\ (swapsNeeded = false -> s1 = s)
  /\ (swapsNeeded = true -> in_bounds (blobBuffer s) cur 20 = true)
  /\ same_outside (blobBuffer s) (blobBuffer s1) cur 20
  /\ (forall k, k = 0 \/ k = 4 \/ k = 8 \/ k = 12 \/ k = 16 ->
      load_u32 host (blobBuffer s1) (cur + k)
      = load_u32 (file_order host swapsNeeded) (blobBuffer s) (cur + k)).
Proof.
  intros H. apply when_Done in H. destruct swapsNeeded.
  - step_in H. rewrite BlobStruct_endian_swap_reverse in H.
    destruct (in_bounds (blobBuffer s) cur 20) eqn:B; [|discriminate].
    injection H as <-. simpl.
    destruct (struct_words_after_swap host _ _ B)
      as (Hso & W0 & W1 & W2 & W3 & W4).
    do 2 (split; [reflexivity|]). split; [discriminate|].
    split; [reflexivity|]. split; [exact Hso|].
    intros k [->|[->|[->|[->| ->]]]]; rewrite ?Z.add_0_r; assumption.
  - subst s1. simpl. do 2 (split; [reflexivity|]). split; [reflexivity|].
    split; [discriminate|]. split; [apply same_outside_refl|]. reflexivity.
Qed.

Lemma read_struct_Done host swapsNeeded stringDataStart cur s st next s' :
  read_struct host swapsNeeded stringDataStart cur s = Done (st, next) s' ->
  exists nameOffset superName fc cc,
    load_u32 (file_order host swapsNeeded) (blobBuffer s)
      (cur + BlobStruct.nameOffset) = Some nameOffset
    /\ load_u32 (file_order host swapsNeeded) (blobBuffer s)
         (cur + BlobStruct.superName) = Some superName
    /\ load_u32 (file_order host swapsNeeded) (blobBuffer s)
         (cur + BlobStruct.sizeOf) = Some (Structure.size st)
    /\ load_u32 (file_order host swapsNeeded) (blobBuffer s)
         (cur + BlobStruct.fieldCount) = Some fc
    /\ load_u32 (file_order host swapsNeeded) (blobBuffer s)
         (cur + BlobStruct.constCount) = Some cc
    /\ Structure.name st
       = BLOBSTRING_AT stringDataStart nameOffset + BlobString.data
    /\ load_u16 host (after_struct_swap swapsNeeded (blobBuffer s) cur)
         (BLOBSTRING_AT stringDataStart nameOffset)
       = Some (Structure.nameLength st)
    /\ (if NO_SUPER_NAME =? superName
        then Structure.superName st = None
             /\ Structure.superNameLength st = 0
        else Structure.superName st
             = Some (BLOBSTRING_AT stringDataStart superName + BlobString.data)
             /\ load_u16 host (after_struct_swap swapsNeeded (blobBuffer s) cur)
                  (BLOBSTRING_AT stringDataStart superName)
                = Some (Structure.superNameLength st))
    /\ same_outside (blobBuffer s)
         (after_struct_swap swapsNeeded (blobBuffer s) cur) cur 20
    /\ Z.of_nat (length (Structure.fields st)) = fc
    /\ Z.of_nat (length (Structure.constants st)) = cc
    /\ next = cur + 20 + 12 * fc + 12 * cc
    /\ blobHdrV1 s' = blobHdrV1 s
    /\ output s' = output s
    /\ (swapsNeeded = false -> blobBuffer s' = blobBuffer s)
    /\ same_outside (blobBuffer s) (blobBuffer s') cur (next - cur)
    /\ (forall (k : nat) f, Structure.fields st !! k = Some f ->
        field_decoded host swapsNeeded (blobBuffer s) stringDataStart next
          (cur + 20 + 12 * Z.of_nat k) f)
    /\ (forall (k : nat) c, Structure.constants st !! k = Some c ->
        constant_decoded host swapsNeeded (blobBuffer s) stringDataStart next
          (cur + 20 + 12 * fc + 12 * Z.of_nat k) c).
Proof.
  unfold read_struct, BlobStruct.sizeof, BlobString.length.
  intros H. do 5 step_in H.
  destruct v3 as [super superNameLength]. do 2 step_in H.
  destruct v4 as [fields afterFields]. step_in H.
  destruct v4 as [constants afterConstants].
  injection H as <- <- <-.
  step_in Hs0. step_in Hs1. step_in Hs2. step_in Hs4.
  rewrite ?Z.add_0_r in *.
  rename v0 into nameOffset, v1 into nameLength, v2 into superName, v3 into size.
  destruct (struct_swap_Done host _ _ _ _ _ Hs)
    as (Hh1 & Ho1 & Hn1 & Hb1 & Hso1 & W).
  assert (A : after_struct_swap swapsNeeded (blobBuffer s) cur = blobBuffer s0).
  { unfold after_struct_swap. apply when_Done in Hs. destruct swapsNeeded.
    - step_in Hs. rewrite Hs. reflexivity.
    - subst s0. reflexivity. }
  assert (Hs3' : (if NO_SUPER_NAME =? superName
                  then super = None /\ superNameLength = 0
                  else super = Some (BLOBSTRING_AT stringDataStart superName
                                     + BlobString.data)
                       /\ load_u16 host (blobBuffer s0)
                            (BLOBSTRING_AT stringDataStart superName)
                          = Some superNameLength) /\ s4 = s0).
  { destruct (NO_SUPER_NAME =? superName).
    - injection Hs3 as <- <- <-. auto.
    - step_in Hs3. step_in Hs7. injection Hs3 as <- <- <-.
      rewrite ?Z.add_0_r in Hs7. auto. }
  destruct Hs3' as [Hsuper ->]. clear Hs3.
  apply read_fields_Done in Hs5
    as (fc & Hfc & Lf & -> & Hh5 & Ho5 & Hb5 & Hso5 & Fs); [|lia].
  apply read_constants_Done in Hs6
    as (cc & Hcc & Lc & -> & Hh6 & Ho6 & Hb6 & Hso6 & Cs); [|lia].
  assert (Hfc0 := load_u32_bound _ _ _ _ Hfc).
  assert (Hcc0 := load_u32_bound _ _ _ _ Hcc).
  assert (Hcc' : load_u32 host (blobBuffer s0) (cur + BlobStruct.constCount)
                 = Some cc).
  { unfold load_u32 in *. rewrite <- Hcc. symmetry.
    apply (load_uint_same_outside _ _ _ _ _ _ _ Hso5).
    unfold BlobStruct.constCount. simpl. lia. }
  exists nameOffset, superName, fc, cc. simpl.
  unfold BlobStruct.nameOffset, BlobStruct.superName, BlobStruct.sizeOf,
    BlobStruct.fieldCount, BlobStruct.constCount in *.
  pose proof (W 0 ltac:(tauto)) as W0. rewrite ?Z.add_0_r in *.
  rewrite <- W0, <- (W 4), <- (W 8), <- (W 12), <- (W 16) by tauto.
  rewrite A.
  do 7 (split; [assumption || reflexivity|]).
  split; [exact Hsuper|]. split; [exact Hso1|].
  do 2 (split; [assumption|]). split; [lia|].
  split; [congruence|]. split; [congruence|].
  split.
  { intros E. rewrite Hb6, Hb5 by assumption.
    rewrite (Hn1 E). reflexivity. }
  split.
  { eapply same_outside_trans;
      [eapply same_outside_weaken; [exact Hso1|lia|lia]|].
    eapply same_outside_trans;
      [eapply same_outside_weaken; [exact Hso5|lia|lia]|].
    eapply same_outside_weaken; [exact Hso6|lia|lia]. }
  split.
  - intros k f Hk.
    apply (field_decoded_frame _ _ _ _ _ _ _ _ _ _ Hso1); [lia|lia|].
    specialize (Fs k f Hk).
    destruct Fs as (F1 & F2 & F3). split; [exact F1|].
    split; intros Hlim; [apply F2|apply F3]; lia.
  - intros k c Hk.
    apply (constant_decoded_frame _ _ _ _ _ _ _ _ _ _ Hso1); [lia|lia|].
    apply (constant_decoded_frame _ _ _ _ _ _ _ _ _ _ Hso5); [lia|lia|].
    apply Cs. exact Hk.
Qed.

Lemma result_Done {A} (c : M A) s a :
  result c s = Some a -> c s = Done a (final_state c s).
Proof.
  unfold result, final_state. destruct (c s); [|discriminate..].
  intros [= <-]. reflexivity.
Qed.

(** ** Blocks inside the buffer are decoded *)

Lemma field_swap_total host swapsNeeded cur s :
  in_bounds (blobBuffer s) cur 12 = true ->
  exists m1,
    when swapsNeeded (buf_update (fun m => BlobField.endian_swap m cur)) s
    = Done tt (mkState (blobHdrV1 s) m1 (output s))
    /\ same_outside (blobBuffer s) m1 cur 12
    /\ (forall k, k = 0 \/ k = 4 \/ k = 8 ->
        load_u32 host m1 (cur + k)
        = load_u32 (file_order host swapsNeeded) (blobBuffer s) (cur + k)).
Proof.
  intros B. destruct swapsNeeded; simpl.
  - unfold buf_update. rewrite BlobField_endian_swap_reverse, B.
    eexists. split; [reflexivity|].
    destruct (field_words_after_swap host _ _ B) as (Hso & W0 & W1 & W2).
    split; [exact Hso|].
    intros k [->|[->| ->]]; rewrite ?Z.add_0_r; assumption.
  - exists (blobBuffer s). split; [destruct s; reflexivity|].
    split; [apply same_outside_refl|reflexivity].
Qed.

Lemma constant_swap_total host swapsNeeded cur s :
  in_bounds (blobBuffer s) cur 12 = true ->
  exists m1,
    when swapsNeeded (buf_update (fun m => BlobConstant.endian_swap m cur)) s
    = Done tt (mkState (blobHdrV1 s) m1 (output s))
    /\ same_outside (blobBuffer s) m1 cur 12
    /\ load_u32 host m1 cur
       = load_u32 (file_order host swapsNeeded) (blobBuffer s) cur.
Proof.
  intros B. destruct swapsNeeded; simpl.
  - unfold buf_update. rewrite BlobConstant_endian_swap_reverse, B.
    eexists. split; [reflexivity|].
    destruct (constant_words_after_swap host _ _ B) as (Hso & W0 & _).
    split; assumption.
  - exists (blobBuffer s). split; [destruct s; reflexivity|].
    split; [apply same_outside_refl|reflexivity].
Qed.

Lemma struct_swap_total host swapsNeeded cur s :
  in_bounds (blobBuffer s) cur 20 = true ->
  exists m1,
    when swapsNeeded (buf_update (fun m => BlobStruct.endian_swap m cur)) s
    = Done tt (mkState (blobHdrV1 s) m1 (output s))
    /\ same_outside (blobBuffer s) m1 cur 20
    /\ (forall k, k = 0 \/ k = 4 \/ k = 8 \/ k = 12 \/ k = 16 ->
        load_u32 host m1 (cur + k)
        = load_u32 (file_order host swapsNeeded) (blobBuffer s) (cur + k)).
Proof.
  intros B. destruct swapsNeeded; simpl.
  - unfold buf_update. rewrite BlobStruct_endian_swap_reverse, B.
    eexists. split; [reflexivity|].
    destruct (struct_words_after_swap host _ _ B)
      as (Hso & W0 & W1 & W2 & W3 & W4).
    split; [exact Hso|].
    intros k [->|[->|[->|[->| ->]]]]; rewrite ?Z.add_0_r; assumption.
  - exists (blobBuffer s). split; [destruct s; reflexivity|].
    split; [apply same_outside_refl|reflexivity].
Qed.

Lemma read_field_total host swapsNeeded stringDataStart cur s :
  field_record_ok (file_order host swapsNeeded) (blobBuffer s)
    stringDataStart cur ->
  exists f s',
    read_field host swapsNeeded stringDataStart cur s = Done (f, cur + 12) s'.
Proof.
  intros (dn & dt & Hdn & Hdt & Boff & Bn & Bt).
  unfold BlobField.declaredName, BlobField.declaredType, BlobField.offset in *.
  rewrite Z.add_0_r in Hdn.
  assert (B : in_bounds (blobBuffer s) cur 12 = true).
  { apply (load_uint_in_bounds _ 4) in Hdn. bounds. lia. }
  destruct (field_swap_total host swapsNeeded cur s B) as (m1 & Hswap & Hso & W).
  pose proof (W 0 ltac:(tauto)) as W0. rewrite Z.add_0_r in W0.
  pose proof (W 4 ltac:(tauto)) as W4. pose proof (W 8 ltac:(tauto)) as W8.
  rewrite Hdn in W0. rewrite Hdt in W4.
  set (s1 := mkState (blobHdrV1 s) m1 (output s)) in *.
  assert (L : forall a n, in_bounds (blobBuffer s1) a n
                          = in_bounds (blobBuffer s) a n)
    by (intros; apply in_bounds_length, Hso).
  destruct (buf_u16_total host (BLOBSTRING_AT stringDataStart dn) s1)
    as (nl & Hnl); [rewrite L; exact Bn|].
  destruct (buf_u16_total host (BLOBSTRING_AT stringDataStart dt) s1)
    as (tl & Htl); [rewrite L; exact Bt|].
  destruct (buf_u32_total host (cur + 8) s1) as (off & Hoff);
    [rewrite L; exact Boff|].
  unfold read_field, BlobField.declaredName, BlobField.declaredType,
    BlobField.offset, BlobField.sizeof, BlobString.length.
  rewrite !Z.add_0_r.
  rewrite (bind_eq _ _ _ _ _ Hswap).
  rewrite (bind_eq _ _ _ _ _ (buf_load_Done host 4 _ s1 _ W0)).
  rewrite Z.add_0_r, (bind_eq _ _ _ _ _ Hnl).
  rewrite (bind_eq _ _ _ _ _ (buf_load_Done host 4 _ s1 _ W4)).
  rewrite Z.add_0_r, (bind_eq _ _ _ _ _ Htl).
  rewrite (bind_eq _ _ _ _ _ Hoff).
  eexists. eexists. reflexivity.
Qed.

Lemma read_constant_total host swapsNeeded stringDataStart cur s :
  constant_record_ok (file_order host swapsNeeded) (blobBuffer s)
    stringDataStart cur ->
  exists c s',
    read_constant host swapsNeeded stringDataStart cur s
    = Done (c, cur + 12) s'.
Proof.
  intros (cn & Hcn & Bv & Bn).
  unfold BlobConstant.name, BlobConstant.value in *.
  rewrite Z.add_0_r in Hcn.
  assert (B : in_bounds (blobBuffer s) cur 12 = true).
  { apply (load_uint_in_bounds _ 4) in Hcn. bounds. lia. }
  destruct (constant_swap_total host swapsNeeded cur s B)
    as (m1 & Hswap & Hso & W0).
  rewrite Hcn in W0.
  set (s1 := mkState (blobHdrV1 s) m1 (output s)) in *.
  assert (L : forall a n, in_bounds (blobBuffer s1) a n
                          = in_bounds (blobBuffer s) a n)
    by (intros; apply in_bounds_length, Hso).
  destruct (buf_u16_total host (BLOBSTRING_AT stringDataStart cn) s1)
    as (nl & Hnl); [rewrite L; exact Bn|].
  destruct (buf_u64_total host (cur + 4) s1) as (v & Hv);
    [rewrite L; exact Bv|].
  unfold read_constant, BlobConstant.name, BlobConstant.value,
    BlobConstant.sizeof, BlobString.length.
  rewrite !Z.add_0_r.
  rewrite (bind_eq _ _ _ _ _ Hswap).
  rewrite (bind_eq _ _ _ _ _ (buf_load_Done host 4 _ s1 _ W0)).
  rewrite Z.add_0_r, (bind_eq _ _ _ _ _ Hnl).
  rewrite (bind_eq _ _ _ _ _ Hv).
  eexists. eexists. reflexivity.
Qed.

Lemma field_record_ok_frame o m m1 stringDataStart c n a :
  same_outside m m1 c n -> c + n <= a ->
  field_record_ok o m stringDataStart a ->
  field_record_ok o m1 stringDataStart a.
Proof.
  intros Hso Ha (dn & dt & Hdn & Hdt & Boff & Bn & Bt).
  exists dn, dt.
  unfold load_u32, BlobField.declaredName, BlobField.declaredType,
    BlobField.offset in *.
  rewrite !(load_uint_same_outside _ _ _ _ _ _ _ Hso) by lia.
  rewrite !(in_bounds_length _ _ _ _ (proj1 Hso)). auto.
Qed.

Lemma constant_record_ok_frame o m m1 stringDataStart c n a :
  same_outside m m1 c n -> c + n <= a ->
  constant_record_ok o m stringDataStart a ->
  constant_record_ok o m1 stringDataStart a.
Proof.
  intros Hso Ha (cn & Hcn & Bv & Bn).
  exists cn. unfold load_u32, BlobConstant.name, BlobConstant.value in *.
  rewrite !(load_uint_same_outside _ _ _ _ _ _ _ Hso) by lia.
  rewrite !(in_bounds_length _ _ _ _ (proj1 Hso)). auto.
Qed.

Lemma read_fields_loop_total host swapsNeeded stringDataStart blobStruct n
    (k : nat) : forall fuel cur i acc s,
  load_u32 host (blobBuffer s) (blobStruct + BlobStruct.fieldCount) = Some n ->
  n + 1 < 2 ^ 32 -> i = n + 1 - Z.of_nat k -> 1 <= i ->
  blobStruct + 16 <= cur -> (k < fuel)%nat ->
  (forall j, 0 <= j < Z.of_nat k ->
     field_record_ok (file_order host swapsNeeded) (blobBuffer s)
       stringDataStart (cur + 12 * j)) ->
  exists fields s',
    read_fields_loop fuel host swapsNeeded stringDataStart blobStruct
      cur i acc s = Done (fields, cur + 12 * Z.of_nat k) s'.
Proof.
  induction k as [|k IH]; intros fuel cur i acc s Hn Hmax Hi H1 Hcur Hfuel Hok;
    (destruct fuel as [|fuel]; [lia|]); cbn [read_fields_loop];
    rewrite (bind_eq _ _ _ _ _ (buf_load_Done host 4 _ s _ Hn)).
  - replace (i <=? n) with false by (symmetry; apply Z.leb_gt; lia).
    rewrite Z.mul_0_r, Z.add_0_r. eexists. eexists. reflexivity.
  - replace (i <=? n) with true by (symmetry; apply Z.leb_le; lia).
    destruct (read_field_total host swapsNeeded stringDataStart cur s)
      as (f & s1 & Hf).
    { specialize (Hok 0 ltac:(lia)). rewrite Z.mul_0_r, Z.add_0_r in Hok.
      exact Hok. }
    rewrite (bind_eq _ _ _ _ _ Hf).
    destruct (read_field_Done _ _ _ _ _ _ _ _ Hf)
      as (_ & _ & _ & _ & _ & Hso & _).
    rewrite wrap32_small by lia.
    destruct (IH fuel (cur + 12) (i + 1) (acc ++ [f]) s1)
      as (fields & s' & Hloop); try lia.
    + unfold load_u32, BlobStruct.fieldCount in *.
      rewrite (load_uint_same_outside _ _ _ _ _ _ _ Hso) by lia. exact Hn.
    + intros j Hj.
      apply (field_record_ok_frame _ _ _ _ _ _ _ Hso); [lia|].
      replace (cur + 12 + 12 * j) with (cur + 12 * (j + 1)) by lia.
      apply Hok. lia.
    + exists fields, s'. rewrite Hloop. do 2 f_equal. lia.
Qed.

Lemma read_constants_loop_total host swapsNeeded stringDataStart blobStruct n
    (k : nat) : forall fuel cur i acc s,
  load_u32 host (blobBuffer s) (blobStruct + BlobStruct.constCount) = Some n ->
  n + 1 < 2 ^ 32 -> i = n + 1 - Z.of_nat k -> 1 <= i ->
  blobStruct + 20 <= cur -> (k < fuel)%nat ->
  (forall j, 0 <= j < Z.of_nat k ->
     constant_record_ok (file_order host swapsNeeded) (blobBuffer s)
       stringDataStart (cur + 12 * j)) ->
  exists constants s',
    read_constants_loop fuel host swapsNeeded stringDataStart blobStruct
      cur i acc s = Done (constants, cur + 12 * Z.of_nat k) s'.
Proof.
  induction k as [|k IH]; intros fuel cur i acc s Hn Hmax Hi H1 Hcur Hfuel Hok;
    (destruct fuel as [|fuel]; [lia|]); cbn [read_constants_loop];
    rewrite (bind_eq _ _ _ _ _ (buf_load_Done host 4 _ s _ Hn)).
  - replace (i <=? n) with false by (symmetry; apply Z.leb_gt; lia).
    rewrite Z.mul_0_r, Z.add_0_r. eexists. eexists. reflexivity.
  - replace (i <=? n) with true by (symmetry; apply Z.leb_le; lia).
    destruct (read_constant_total host swapsNeeded stringDataStart cur s)
      as (c & s1 & Hc).
    { specialize (Hok 0 ltac:(lia)). rewrite Z.mul_0_r, Z.add_0_r in Hok.
      exact Hok. }
    rewrite (bind_eq _ _ _ _ _ Hc).
    destruct (read_constant_Done _ _ _ _ _ _ _ _ Hc)
      as (_ & _ & _ & _ & _ & Hso & _).
    rewrite wrap32_small by lia.
    destruct (IH fuel (cur + 12) (i + 1) (acc ++ [c]) s1)
      as (constants & s' & Hloop); try lia.
    + unfold load_u32, BlobStruct.constCount in *.
      rewrite (load_uint_same_outside _ _ _ _ _ _ _ Hso) by lia. exact Hn.
    + intros j Hj.
      apply (constant_record_ok_frame _ _ _ _ _ _ _ Hso); [lia|].
      replace (cur + 12 + 12 * j) with (cur + 12 * (j + 1)) by lia.
      apply Hok. lia.
    + exists constants, s'. rewrite Hloop. do 2 f_equal. lia.
Qed.

Lemma read_fields_total host swapsNeeded stringDataStart blobStruct cur s n :
  load_u32 host (blobBuffer s) (blobStruct + BlobStruct.fieldCount) = Some n ->
  n < 4294967295 -> 0 <= cur -> blobStruct + 16 <= cur ->
  (forall j, 0 <= j < n ->
     field_record_ok (file_order host swapsNeeded) (blobBuffer s)
       stringDataStart (cur + 12 * j)) ->
  exists fields s',
    read_fields host swapsNeeded stringDataStart blobStruct cur s
    = Done (fields, cur + 12 * n) s'.
Proof.
  intros Hn Hmax H0 Hcur Hok.
  pose proof (load_u32_bound _ _ _ _ Hn) as Hb.
  assert (Hfuel : (Z.to_nat n < S (length (blobBuffer s)))%nat).
  { destruct (Z.eq_dec n 0) as [->|Hnz]; [lia|].
    destruct (Hok (n - 1) ltac:(lia)) as (dn & _ & Hdn & _).
    apply (load_uint_in_bounds _ 4) in Hdn.
    unfold BlobField.declaredName in Hdn. bounds. lia. }
  destruct (read_fields_loop_total host swapsNeeded stringDataStart blobStruct
              n (Z.to_nat n) (S (length (blobBuffer s))) cur 1 [] s)
    as (fields & s' & Hloop); try assumption; try lia.
  - intros j Hj. apply Hok. lia.
  - exists fields, s'. unfold read_fields.
    erewrite bind_eq by reflexivity. rewrite Hloop. do 2 f_equal. lia.
Qed.

Lemma read_constants_total host swapsNeeded stringDataStart blobStruct cur s n :
  load_u32 host (blobBuffer s) (blobStruct + BlobStruct.constCount) = Some n ->
  n < 4294967295 -> 0 <= cur -> blobStruct + 20 <= cur ->
  (forall j, 0 <= j < n ->
     constant_record_ok (file_order host swapsNeeded) (blobBuffer s)
       stringDataStart (cur + 12 * j)) ->
  exists constants s',
    read_constants host swapsNeeded stringDataStart blobStruct cur s
    = Done (constants, cur + 12 * n) s'.
Proof.
  intros Hn Hmax H0 Hcur Hok.
  pose proof (load_u32_bound _ _ _ _ Hn) as Hb.
  assert (Hfuel : (Z.to_nat n < S (length (blobBuffer s)))%nat).
  { destruct (Z.eq_dec n 0) as [->|Hnz]; [lia|].
    destruct (Hok (n - 1) ltac:(lia)) as (cn & Hcn & _).
    apply (load_uint_in_bounds _ 4) in Hcn.
    unfold BlobConstant.name in Hcn. bounds. lia. }
  destruct (read_constants_loop_total host swapsNeeded stringDataStart
              blobStruct n (Z.to_nat n) (S (length (blobBuffer s))) cur 1 [] s)
    as (constants & s' & Hloop); try assumption; try lia.
  - intros j Hj. apply Hok. lia.
  - exists constants, s'. unfold read_constants.
    erewrite bind_eq by reflexivity. rewrite Hloop. do 2 f_equal. lia.
Qed.

(** A structure block that lies inside the buffer, with the strings it
    refers to, is decoded. *)
Lemma read_struct_total host swapsNeeded stringDataStart cur s :
  0 <= cur ->
  struct_block_ok (file_order host swapsNeeded) (blobBuffer s)
    stringDataStart cur ->
  exists st next s',
    read_struct host swapsNeeded stringDataStart cur s = Done (st, next) s'.
Proof.
  intros H0 (no & sn & fc & cc & Hno & Hsn & Bsz & Hfc & Hcc & Bn & Bs
             & Hfmax & Hcmax & Hf & Hc).
  unfold BlobStruct.nameOffset, BlobStruct.superName, BlobStruct.sizeOf,
    BlobStruct.fieldCount, BlobStruct.constCount, BlobStruct.sizeof,
    BlobField.sizeof, BlobConstant.sizeof in *.
  rewrite Z.add_0_r in Hno.
  assert (B : in_bounds (blobBuffer s) cur 20 = true).
  { apply (load_uint_in_bounds _ 4) in Hno, Hcc. bounds. lia. }
  destruct (struct_swap_total host swapsNeeded cur s B) as (m1 & Hswap & Hso & W).
  pose proof (W 0 ltac:(tauto)) as W0. rewrite Z.add_0_r in W0.
  pose proof (W 4 ltac:(tauto)) as W4. pose proof (W 8 ltac:(tauto)) as W8.
  pose proof (W 12 ltac:(tauto)) as W12. pose proof (W 16 ltac:(tauto)) as W16.
  rewrite Hno in W0. rewrite Hsn in W4. rewrite Hfc in W12. rewrite Hcc in W16.
  set (s1 := mkState (blobHdrV1 s) m1 (output s)) in *.
  assert (L : forall a n, in_bounds (blobBuffer s1) a n
                          = in_bounds (blobBuffer s) a n)
    by (intros; apply in_bounds_length, Hso).
  destruct (buf_u16_total host (BLOBSTRING_AT stringDataStart no) s1)
    as (nl & Hnl); [rewrite L; exact Bn|].
  destruct (buf_u32_total host (cur + 8) s1) as (size & Hsize);
    [rewrite L; exact Bsz|].
  assert (Hsuper : exists super,
            (if NO_SUPER_NAME =? sn then mret (None, 0)
             else
               l ← buf_u16 host
                     (BLOBSTRING_AT stringDataStart sn + BlobString.length);
               mret (Some (BLOBSTRING_AT stringDataStart sn + BlobString.data),
                     l)) s1 = Done super s1).
  { destruct (Z.eqb_spec NO_SUPER_NAME sn) as [E|E].
    - eexists. reflexivity.
    - destruct (buf_u16_total host (BLOBSTRING_AT stringDataStart sn) s1)
        as (l & Hl); [rewrite L; apply Bs; congruence|].
      unfold BlobString.length. rewrite Z.add_0_r.
      rewrite (bind_eq _ _ _ _ _ Hl). eexists. reflexivity. }
  destruct Hsuper as ([super superNameLength] & Hsuper).
  destruct (read_fields_total host swapsNeeded stringDataStart cur (cur + 20)
              s1 fc) as (fields & s2 & Hfields); try assumption; try lia.
  { intros j Hj. apply (field_record_ok_frame _ _ _ _ _ _ _ Hso); [lia|].
    apply Hf. exact Hj. }
  destruct (read_fields_Done _ _ _ _ _ _ _ _ _ Hfields ltac:(lia))
    as (n & Hn & _ & _ & _ & _ & _ & Hso2 & _).
  replace (cur + 20 + 12 * fc - (cur + 20)) with (12 * fc) in Hso2 by lia.
  pose proof (load_u32_bound _ _ _ _ Hfc) as Hfc0.
  destruct (read_constants_total host swapsNeeded stringDataStart cur
              (cur + 20 + 12 * fc) s2 cc)
    as (constants & s3 & Hconstants); try assumption; try lia.
  { unfold load_u32, BlobStruct.constCount in *.
    rewrite (load_uint_same_outside _ _ _ _ _ _ _ Hso2) by lia. exact W16. }
  { intros j Hj.
    apply (constant_record_ok_frame _ _ _ _ _ _ _ Hso2); [lia|].
    apply (constant_record_ok_frame _ _ _ _ _ _ _ Hso); [lia|].
    apply Hc. exact Hj. }
  unfold read_struct, BlobStruct.nameOffset, BlobStruct.superName,
    BlobStruct.sizeOf, BlobStruct.sizeof.
  rewrite (bind_eq _ _ _ _ _ Hswap).
  rewrite Z.add_0_r.
  rewrite (bind_eq _ _ _ _ _ (buf_load_Done host 4 _ s1 _ W0)).
  unfold BlobString.length at 1. rewrite Z.add_0_r.
  rewrite (bind_eq _ _ _ _ _ Hnl).
  rewrite (bind_eq _ _ _ _ _ (buf_load_Done host 4 _ s1 _ W4)).
  rewrite (bind_eq _ _ _ _ _ Hsuper).
  rewrite (bind_eq _ _ _ _ _ Hsize).
  rewrite (bind_eq _ _ _ _ _ Hfields).
  rewrite (bind_eq _ _ _ _ _ Hconstants).
  do 3 eexists. reflexivity.
Qed.

(** The first structure block of the sample blob lies inside it. *)
Lemma zoo_first_block_ok o : struct_block_ok o (zoo o) 116 20.
Proof.
  exists 0, NO_SUPER_NAME, 2, 1.
  destruct o;
    (do 6 (split; [reflexivity|]);
     split; [intros E; destruct E; reflexivity|];
     do 2 (split; [reflexivity|]);
     split; intros j Hj;
     [assert (E : j = 0 \/ j = 1) by lia;
      destruct E as [-> | ->]; [exists 18, 26|exists 32, 26];
      repeat split; reflexivity
     |assert (E : j = 0) by lia; subst j; exists 40;
      repeat split; reflexivity]).
Qed.

(** ** The super name *)






(** ** The pass over the string table *)

Lemma string_entries_frame o m m1 stringDataEnd c n cur es :
  same_outside m m1 c n -> c + n <= cur ->
  string_entries o m1 stringDataEnd cur es ->
  string_entries o m stringDataEnd cur es.
Proof.
  intros Hso Hc H. induction H as [cur He|cur len rest Hlt Hlen Hrest IH].
  - constructor. assumption.
  - pose proof (load_uint_nonneg _ _ _ _ _ Hlen) as Hpos.
    pose proof (Z.mod_pos_bound len 2 ltac:(lia)).
    econstructor; [assumption| |apply IH; lia].
    unfold load_u16 in *. rewrite <- Hlen. symmetry.
    apply (load_uint_same_outside _ _ _ _ _ _ _ Hso). lia.
Qed.

Lemma string_entries_det o m stringDataEnd cur es :
  string_entries o m stringDataEnd cur es ->
  forall es', string_entries o m stringDataEnd cur es' -> es = es'.
Proof.
  intros H. induction H as [cur He|cur len rest Hlt Hlen Hrest IH];
    intros es' H'; inversion H'; subst; try lia; [reflexivity|].
  f_equal. apply IH.
  match goal with
  | H : load_u16 o m cur = Some ?l |- _ =>
      rewrite Hlen in H; injection H as <-
  end.
  assumption.
Qed.

Lemma string_entries_bounds o m stringDataEnd cur es :
  string_entries o m stringDataEnd cur es ->
  Forall (fun e => cur <= e < stringDataEnd
                   /\ in_bounds m e 2 = true) es
  /\ StronglySorted (fun a b => a + 2 <= b) es.
Proof.
  intros H. induction H as [cur He|cur len rest Hlt Hlen Hrest [IH1 IH2]].
  - split; constructor.
  - pose proof (load_uint_nonneg _ _ _ _ _ Hlen) as Hpos.
    pose proof (Z.mod_pos_bound len 2 ltac:(lia)).
    split.
    + constructor.
      * split; [lia|]. apply (load_uint_in_bounds _ 2 _ _ _ Hlen).
      * eapply Forall_impl; [exact IH1|]. simpl. intros e [? ?].
        split; [lia|assumption].
    + constructor; [exact IH2|].
      eapply Forall_impl; [exact IH1|]. simpl. intros e [? ?]. lia.
Qed.

Lemma swap_lengths_length m es : length (swap_lengths m es) = length m.
Proof.
  revert m. induction es as [|e es IH]; intros m; [reflexivity|].
  simpl. rewrite IH. apply length_reverse_range.
Qed.

(** A read away from the swapped length fields sees the original
    bytes. *)
Lemma load_uint_swap_lengths_other o k es : forall m a,
  Forall (fun e => in_bounds m e 2 = true
                   /\ (a + Z.of_nat k <= e \/ e + 2 <= a)) es ->
  load_uint o k (swap_lengths m es) a = load_uint o k m a.
Proof.
  induction es as [|e es IH]; intros m a H; [reflexivity|].
  inversion H as [|? ? [Hb Hd] Hrest]; subst. simpl.
  rewrite IH.
  - apply (load_uint_reverse_range_other _ _ _ _ 2); assumption.
  - eapply Forall_impl; [exact Hrest|]. simpl. intros x [? ?].
    rewrite in_bounds_reverse_range. auto.
Qed.

(** Each swapped length field then reads, in one byte order, as it read
    in the other before. *)
Lemma load_u16_swap_lengths o es : forall m,
  Forall (fun e => in_bounds m e 2 = true) es ->
  StronglySorted (fun a b => a + 2 <= b) es ->
  Forall (fun e => load_u16 o (swap_lengths m es) e
                   = load_u16 (opposite o) m e) es.
Proof.
  induction es as [|e es IH]; intros m Hb Hs; [constructor|].
  inversion Hb as [|? ? Hbe Hbes]; subst.
  inversion Hs as [|? ? Hses Hge]; subst.
  constructor.
  - simpl. unfold load_u16. rewrite load_uint_swap_lengths_other.
    + apply load_uint_reverse_range.
    + rewrite Forall_forall in *. intros x Hx.
      rewrite in_bounds_reverse_range. split; [auto|].
      left. specialize (Hge x Hx). simpl. lia.
  - simpl.
    assert (IH' := IH (reverse_range m e 2)).
    eapply Forall_impl.
    + apply Forall_and. split; [|exact Hge]. apply IH'; [|exact Hses].
      eapply Forall_impl; [exact Hbes|]. simpl. intros x Hx.
      rewrite in_bounds_reverse_range. exact Hx.
    + simpl. intros x [Hx Hgx]. rewrite Hx. unfold load_u16.
      apply (load_uint_reverse_range_other _ _ _ _ 2); [assumption|]. simpl. lia.
Qed.

Section StringsLoop.
Variables (host : byte_order) (swapsNeeded : bool).
Variables (stringDataStart stringDataEnd : Z).

Lemma read_strings_loop_Done fuel : forall cur num s u s',
  read_strings_loop fuel host swapsNeeded stringDataStart stringDataEnd
    cur num s = Done u s' ->
  exists es,
    string_entries (file_order host swapsNeeded) (blobBuffer s) stringDataEnd
      cur es
    /\ blobBuffer s'
       = (if swapsNeeded then swap_lengths (blobBuffer s) es else blobBuffer s)
    /\ blobHdrV1 s' = blobHdrV1 s.
Proof.
  induction fuel as [|fuel IH]; intros cur num s u s' H; [discriminate|].
  cbn [read_strings_loop] in H.
  destruct (Z.ltb_spec cur stringDataEnd) as [Hlt|Hge].
  - step_in H.
    destruct (read_string_Done _ _ _ _ _ _ _ _ Hs)
      as (len & data & B & Hbuf & Hh & Hlen & _ & _ & _ & ->).
    apply IH in H as (es & He & Hbuf' & Hh').
    exists (cur :: es).
    assert (Hso : same_outside (blobBuffer s) (blobBuffer s0) cur 2).
    { rewrite Hbuf. apply same_outside_if. intros _.
      apply (same_outside_reverse_range _ _ 2). exact B. }
    pose proof (load_uint_nonneg _ _ _ _ _ Hlen) as Hpos.
    pose proof (Z.mod_pos_bound len 2 ltac:(lia)).
    split; [|split].
    + econstructor; [exact Hlt|exact Hlen|].
      eapply string_entries_frame; [exact Hso| |exact He]. lia.
    + rewrite Hbuf', Hbuf. destruct swapsNeeded; reflexivity.
    + congruence.
  - injection H as <- <-. exists []. split; [constructor; exact Hge|].
    split; [destruct swapsNeeded; reflexivity|reflexivity].
Qed.

End StringsLoop.

Lemma read_strings_Done host swapsNeeded stringDataStart stringDataEnd s u s' :
  read_strings host swapsNeeded stringDataStart stringDataEnd s = Done u s' ->
  exists es,
    string_entries (file_order host swapsNeeded) (blobBuffer s) stringDataEnd
      stringDataStart es
    /\ blobBuffer s'
       = (if swapsNeeded then swap_lengths (blobBuffer s) es else blobBuffer s)
    /\ blobHdrV1 s' = blobHdrV1 s.
Proof.
  unfold read_strings. intros H. step_in H. step_in Hs.
  eapply read_strings_loop_Done. exact H.
Qed.

Lemma string_entry_ok_frame o m m1 c n e :
  same_outside m m1 c n -> c + n <= e ->
  string_entry_ok o m e -> string_entry_ok o m1 e.
Proof.
  intros Hso Hc (len & Hlen & B). exists len. split.
  - unfold load_u16 in *. rewrite <- Hlen.
    apply (load_uint_same_outside _ _ _ _ _ _ _ Hso). lia.
  - rewrite (in_bounds_length _ _ _ _ (proj1 Hso)). exact B.
Qed.

Lemma sorted_entries_count (es : list Z) : forall lo hi,
  StronglySorted (fun a b => a + 2 <= b) es ->
  Forall (fun e => lo <= e /\ e + 2 <= hi) es ->
  2 * Z.of_nat (length es) <= Z.max 0 (hi - lo).
Proof.
  induction es as [|e es IH]; intros lo hi Hs Hb; [simpl; lia|].
  inversion Hs as [|? ? Hses Hge]; subst.
  inversion Hb as [|? ? [Hlo Hhi] Hbes]; subst.
  assert (H : 2 * Z.of_nat (length es) <= Z.max 0 (hi - (e + 2))).
  { apply IH; [exact Hses|].
    apply Forall_and in Hbes as [_ Hbhi].
    eapply Forall_impl; [apply Forall_and; split; [exact Hge|exact Hbhi]|].
    simpl. tauto. }
  cbn [length]. lia.
Qed.

Section StringsTotal.
Variables (host : byte_order) (swapsNeeded : bool).
Variables (stringDataStart stringDataEnd : Z).

Lemma read_strings_loop_total (es : list Z) : forall fuel cur num s,
  string_entries (file_order host swapsNeeded) (blobBuffer s) stringDataEnd
    cur es ->
  Forall (string_entry_ok (file_order host swapsNeeded) (blobBuffer s)) es ->
  (length es < fuel)%nat ->
  exists s',
    read_strings_loop fuel host swapsNeeded stringDataStart stringDataEnd
      cur num s = Done tt s'.
Proof.
  induction es as [|e es IH]; intros fuel cur num s He Hok Hfuel;
    (destruct fuel as [|fuel]; [simpl in Hfuel; lia|]);
    cbn [read_strings_loop]; inversion He; subst.
  - replace (cur <? stringDataEnd) with false
      by (symmetry; apply Z.ltb_ge; assumption).
    eexists. reflexivity.
  - replace (e <? stringDataEnd) with true
      by (symmetry; apply Z.ltb_lt; assumption).
    inversion Hok as [|? ? (len' & Hlen' & B) Hrest]; subst.
    assert (len' = len) as -> by congruence.
    destruct (read_string_total host swapsNeeded stringDataStart e num s len
                Hlen' B) as (s1 & Hread).
    rewrite (bind_eq _ _ _ _ _ Hread).
    destruct (read_string_Done _ _ _ _ _ _ _ _ Hread)
      as (_ & _ & B2 & Hbuf & _).
    assert (Hso : same_outside (blobBuffer s) (blobBuffer s1) e 2).
    { rewrite Hbuf. apply same_outside_if. intros _.
      apply (same_outside_reverse_range _ _ 2). exact B2. }
    pose proof (load_uint_nonneg _ _ _ _ _ Hlen') as Hpos.
    pose proof (Z.mod_pos_bound len 2 ltac:(lia)).
    replace (e + len + 2 + len mod 2) with (e + (len + 2 + len mod 2)) by lia.
    match goal with
    | Hr : string_entries _ _ _ (e + _) es |- _ =>
        destruct (string_entries_bounds _ _ _ _ _ Hr) as [Hb _];
        apply (IH fuel _ (wrap32 (num + 1)) s1)
    end.
    + eapply string_entries_frame;
        [apply same_outside_sym; exact Hso| |eassumption]. lia.
    + rewrite Forall_forall in *. intros x Hx.
      apply (string_entry_ok_frame _ _ _ _ _ _ Hso);
        [destruct (Hb x Hx); lia|auto].
    + simpl in Hfuel. lia.
Qed.

End StringsTotal.

(** A string table whose entries lie inside the buffer is enumerated to
    its end, and the pass leaves the length field of each entry
    swapped when swaps are needed. *)
Lemma read_strings_total host swapsNeeded stringDataStart stringDataEnd s es :
  0 <= stringDataStart ->
  string_entries (file_order host swapsNeeded) (blobBuffer s) stringDataEnd
    stringDataStart es ->
  Forall (string_entry_ok (file_order host swapsNeeded) (blobBuffer s)) es ->
  exists s',
    read_strings host swapsNeeded stringDataStart stringDataEnd s = Done tt s'
    /\ blobBuffer s'
       = (if swapsNeeded then swap_lengths (blobBuffer s) es else blobBuffer s)
    /\ blobHdrV1 s' = blobHdrV1 s.
Proof.
  intros H0 He Hok.
  destruct (string_entries_bounds _ _ _ _ _ He) as [Hb Hsorted].
  assert (Hcount : 2 * Z.of_nat (length es)
                   <= Z.max 0 (Z.of_nat (length (blobBuffer s)) - 0)).
  { apply sorted_entries_count; [exact Hsorted|].
    eapply Forall_impl; [exact Hb|]. simpl. intros e [? B]. bounds. lia. }
  destruct (read_strings_loop_total host swapsNeeded stringDataStart
              stringDataEnd es (S (length (blobBuffer s))) stringDataStart 1 s
              He Hok ltac:(lia)) as (s' & H).
  assert (H' : read_strings host swapsNeeded stringDataStart stringDataEnd s
               = Done tt s').
  { unfold read_strings. erewrite bind_eq by reflexivity. exact H. }
  exists s'. split; [exact H'|].
  destruct (read_strings_Done _ _ _ _ _ _ _ H') as (es' & He' & Hbuf & Hh).
  rewrite (string_entries_det _ _ _ _ _ He _ He'). split; assumption.
Qed.

(** ** The pass over the structures *)

Lemma string_ref_frame host m m1 stringDataStart limit c n data len :
  same_outside m m1 c n -> c + n <= limit ->
  string_ref host m1 stringDataStart limit data len ->
  string_ref host m stringDataStart limit data len.
Proof.
  intros Hso Hl [R1 R2]. split; [exact R1|]. intros H.
  rewrite <- (R2 H). unfold load_u16.
  apply (load_uint_same_outside _ _ _ _ _ _ _ (same_outside_sym _ _ _ _ Hso)).
  lia.
Qed.

Lemma string_ref_weaken host m stringDataStart limit limit' data len :
  limit <= limit' ->
  string_ref host m stringDataStart limit data len ->
  string_ref host m stringDataStart limit' data len.
Proof. intros Hl [R1 R2]. split; [exact R1|]. intros H. apply R2. lia. Qed.

Lemma lengths_read_from_frame host m m1 stringDataStart limit c n st :
  same_outside m m1 c n -> c + n <= limit ->
  lengths_read_from host m1 stringDataStart limit st ->
  lengths_read_from host m stringDataStart limit st.
Proof.
  intros Hso Hl (N & P & F & C).
  split; [|split; [|split]].
  - eapply string_ref_frame; eauto.
  - intros p Hp. eapply string_ref_frame; eauto.
  - eapply Forall_impl; [exact F|]. simpl. intros f [F1 F2].
    split; eapply string_ref_frame; eauto.
  - eapply Forall_impl; [exact C|]. simpl. intros k C1.
    eapply string_ref_frame; eauto.
Qed.

Lemma lengths_read_from_weaken host m stringDataStart limit limit' st :
  limit <= limit' ->
  lengths_read_from host m stringDataStart limit st ->
  lengths_read_from host m stringDataStart limit' st.
Proof.
  intros Hl (N & P & F & C). split; [|split; [|split]].
  - eapply string_ref_weaken; eauto.
  - intros p Hp. eapply string_ref_weaken; eauto.
  - eapply Forall_impl; [exact F|]. simpl. intros f [F1 F2].
    split; eapply string_ref_weaken; eauto.
  - eapply Forall_impl; [exact C|]. simpl. intros k C1.
    eapply string_ref_weaken; eauto.
Qed.

Lemma read_struct_lengths host swapsNeeded stringDataStart cur s st next s' :
  read_struct host swapsNeeded stringDataStart cur s = Done (st, next) s' ->
  cur + 20 <= next
  /\ blobHdrV1 s' = blobHdrV1 s
  /\ output s' = output s
  /\ (swapsNeeded = false -> blobBuffer s' = blobBuffer s)
  /\ same_outside (blobBuffer s) (blobBuffer s') cur (next - cur)
  /\ lengths_read_from host (blobBuffer s) stringDataStart next st.
Proof.
  intros H. apply read_struct_Done in H
    as (nameOffset & superName & fc & cc & Hno & Hsn & _ & _ & _ & Hname & Hnl
        & Hsuper & Hso1 & Lf & Lc & -> & Hh & Ho & Hb & Hso & Fs & Cs).
  split; [lia|]. do 4 (split; [assumption|]).
  assert (T : forall a, cur + 20 <= a ->
              load_u16 host (blobBuffer s) a
              = load_u16 host (after_struct_swap swapsNeeded (blobBuffer s) cur) a).
  { intros a Ha. unfold load_u16. symmetry.
    apply (load_uint_same_outside _ _ _ _ _ _ _ Hso1). lia. }
  apply load_u32_bound in Hno, Hsn.
  unfold lengths_read_from, string_ref, field_decoded, constant_decoded,
    field_at, constant_at, BLOBSTRING_AT, BlobString.data in *.
  split; [|split; [|split]].
  - rewrite Hname. split; [lia|]. intros H.
    replace (stringDataStart + nameOffset + 2 - 2)
      with (stringDataStart + nameOffset) in * by lia.
    rewrite T by lia. exact Hnl.
  - intros p Hp. destruct (NO_SUPER_NAME =? superName).
    + destruct Hsuper as [E _]. congruence.
    + destruct Hsuper as [E Hl]. rewrite Hp in E. injection E as ->.
      split; [lia|]. intros H.
      replace (stringDataStart + superName + 2 - 2)
        with (stringDataStart + superName) in * by lia.
      rewrite T by lia. exact Hl.
  - apply Forall_lookup. intros k f Hk.
    destruct (Fs k f Hk) as ((dn & dt & Hdn & Hdt & _ & En & Et) & F1 & F2).
    apply load_u32_bound in Hdn, Hdt.
    split; (split; [lia|assumption]).
  - apply Forall_lookup. intros k c Hk.
    destruct (Cs k c Hk) as ((cn & Hcn & _ & En) & C1).
    apply load_u32_bound in Hcn.
    split; [lia|assumption].
Qed.

Section StructsLoop.
Variables (host : byte_order) (swapsNeeded : bool).
Variables (stringDataStart structureCount : Z).

Lemma read_structs_loop_Done fuel : forall cur i acc s structs cur' s',
  read_structs_loop fuel host swapsNeeded stringDataStart structureCount
    cur i acc s = Done (structs, cur') s' ->
  exists new,
    structs = acc ++ new
    /\ cur <= cur'
    /\ blobHdrV1 s' = blobHdrV1 s
    /\ output s' = output s
    /\ (swapsNeeded = false -> blobBuffer s' = blobBuffer s)
    /\ same_outside (blobBuffer s) (blobBuffer s') cur (cur' - cur)
    /\ Forall (lengths_read_from host (blobBuffer s) stringDataStart cur') new.
Proof.
  induction fuel as [|fuel IH]; intros cur i acc s structs cur' s' H;
    [discriminate|].
  cbn [read_structs_loop] in H.
  destruct (i <=? structureCount).
  - step_in H. destruct v as [st next].
    destruct (read_struct_lengths _ _ _ _ _ _ _ _ Hs)
      as (Hnext & Hh & Ho & Hb & Hso & L).
    apply IH in H as (new & -> & Hle & Hh' & Ho' & Hb' & Hso' & L').
    exists (st :: new). rewrite <- app_assoc. simpl.
    split; [reflexivity|]. split; [lia|].
    split; [congruence|]. split; [congruence|].
    split; [intros E; rewrite Hb', Hb by assumption; reflexivity|].
    split.
    + eapply same_outside_trans.
      * eapply same_outside_weaken; [exact Hso|lia|lia].
      * eapply same_outside_weaken; [exact Hso'|lia|lia].
    + constructor.
      * eapply lengths_read_from_weaken; [|exact L]. lia.
      * eapply Forall_impl; [exact L'|]. simpl. intros st' Hst'.
        eapply lengths_read_from_frame; [exact Hso| |exact Hst']. lia.
  - injection H as <- <- <-. exists []. rewrite app_nil_r.
    replace (cur - cur) with 0 by lia.
    do 5 (split; [reflexivity || lia || auto|]).
    split; [apply same_outside_refl|constructor].
Qed.

End StructsLoop.

Lemma read_structs_Done host swapsNeeded stringDataStart structureCount cur s
    structs cur' s' :
  read_structs host swapsNeeded stringDataStart structureCount cur s
  = Done (structs, cur') s' ->
  cur <= cur'
  /\ blobHdrV1 s' = blobHdrV1 s
  /\ output s' = output s
  /\ (swapsNeeded = false -> blobBuffer s' = blobBuffer s)
  /\ same_outside (blobBuffer s) (blobBuffer s') cur (cur' - cur)
  /\ Forall (lengths_read_from host (blobBuffer s) stringDataStart cur')
       structs.
Proof.
  unfold read_structs. intros H. step_in H. step_in Hs.
  apply read_structs_loop_Done in H as (new & -> & R). exact R.
Qed.

(** ** Structure blocks inside the buffer are all decoded *)

Lemma same_outside_words_agree m m1 c n lo hi :
  same_outside m m1 c n -> c + n <= lo -> words_agree m m1 lo hi.
Proof.
  intros Hso Hc. split; [apply Hso|]. intros o a Ha _.
  apply (load_uint_same_outside _ _ _ _ _ _ _ Hso). lia.
Qed.

Lemma swap_lengths_words_agree m es lo hi :
  Forall (fun e => in_bounds m e 2 = true /\ hi <= e) es ->
  words_agree m (swap_lengths m es) lo hi.
Proof.
  intros H. split; [apply swap_lengths_length|]. intros o a _ Ha.
  apply load_uint_swap_lengths_other.
  eapply Forall_impl; [exact H|]. simpl. intros e [B He].
  split; [exact B|]. left. lia.
Qed.

Lemma in_bounds_words_agree m m1 lo hi a n :
  words_agree m m1 lo hi -> in_bounds m1 a n = in_bounds m a n.
Proof. intros [L _]. unfold in_bounds. rewrite L. reflexivity. Qed.

Lemma field_record_ok_agree o m m1 stringDataStart lo hi a :
  words_agree m m1 lo hi -> lo <= a -> a + 12 <= hi ->
  field_record_ok o m stringDataStart a ->
  field_record_ok o m1 stringDataStart a.
Proof.
  intros Hw Hlo Hhi (dn & dt & Hdn & Hdt & Boff & Bn & Bt).
  exists dn, dt.
  unfold BlobField.declaredName, BlobField.declaredType,
    BlobField.offset in *.
  rewrite !(proj2 Hw) by lia.
  rewrite !(in_bounds_words_agree _ _ _ _ _ _ Hw). auto.
Qed.

Lemma constant_record_ok_agree o m m1 stringDataStart lo hi a :
  words_agree m m1 lo hi -> lo <= a -> a + 12 <= hi ->
  constant_record_ok o m stringDataStart a ->
  constant_record_ok o m1 stringDataStart a.
Proof.
  intros Hw Hlo Hhi (cn & Hcn & Bv & Bn).
  exists cn. unfold BlobConstant.name, BlobConstant.value in *.
  rewrite !(proj2 Hw) by lia.
  rewrite !(in_bounds_words_agree _ _ _ _ _ _ Hw). auto.
Qed.

Lemma struct_block_ok_agree o m m1 stringDataStart lo hi a fc cc :
  words_agree m m1 lo hi -> lo <= a ->
  load_u32 o m (a + BlobStruct.fieldCount) = Some fc ->
  load_u32 o m (a + BlobStruct.constCount) = Some cc ->
  a + 20 + 12 * fc + 12 * cc <= hi ->
  struct_block_ok o m stringDataStart a ->
  struct_block_ok o m1 stringDataStart a.
Proof.
  intros Hw Hlo Hfc Hcc Hhi
    (no & sn & fc' & cc' & Hno & Hsn & Bsz & Hfc' & Hcc' & Bn & Bs
     & Hfmax & Hcmax & Hf & Hc).
  assert (fc' = fc) as -> by congruence.
  assert (cc' = cc) as -> by congruence.
  pose proof (load_u32_bound _ _ _ _ Hfc).
  pose proof (load_u32_bound _ _ _ _ Hcc).
  exists no, sn, fc, cc.
  unfold BlobStruct.nameOffset, BlobStruct.superName, BlobStruct.sizeOf,
    BlobStruct.fieldCount, BlobStruct.constCount, BlobStruct.sizeof,
    BlobField.sizeof, BlobConstant.sizeof in *.
  rewrite !(proj2 Hw) by lia.
  rewrite !(in_bounds_words_agree _ _ _ _ _ _ Hw).
  do 9 (split; [assumption|]).
  split; intros j Hj.
  - apply (field_record_ok_agree _ _ _ _ _ _ _ Hw); [lia|lia|auto].
  - apply (constant_record_ok_agree _ _ _ _ _ _ _ Hw); [lia|lia|auto].
Qed.

Lemma struct_blocks_le o m stringDataStart cur n last :
  struct_blocks o m stringDataStart cur n last ->
  cur + 20 * Z.of_nat n <= last.
Proof.
  induction 1 as [cur|cur fc cc n last Hok Hfc Hcc Hrest IH]; [simpl; lia|].
  pose proof (load_u32_bound _ _ _ _ Hfc).
  pose proof (load_u32_bound _ _ _ _ Hcc).
  unfold BlobStruct.sizeof, BlobField.sizeof, BlobConstant.sizeof in *. lia.
Qed.

Lemma struct_blocks_agree o m m1 stringDataStart lo hi cur n last :
  words_agree m m1 lo hi -> lo <= cur -> last <= hi ->
  struct_blocks o m stringDataStart cur n last ->
  struct_blocks o m1 stringDataStart cur n last.
Proof.
  intros Hw Hlo Hhi H.
  induction H as [cur|cur fc cc n last Hok Hfc Hcc Hrest IH];
    [constructor|].
  pose proof (load_u32_bound _ _ _ _ Hfc).
  pose proof (load_u32_bound _ _ _ _ Hcc).
  pose proof (struct_blocks_le _ _ _ _ _ _ Hrest) as Hle.
  unfold BlobStruct.sizeof, BlobField.sizeof, BlobConstant.sizeof,
    BlobStruct.fieldCount, BlobStruct.constCount in *.
  apply (blocks_next _ _ _ _ fc cc).
  - apply (struct_block_ok_agree _ _ _ _ _ _ _ fc cc Hw); auto; lia.
  - unfold BlobStruct.fieldCount. rewrite (proj2 Hw) by lia. exact Hfc.
  - unfold BlobStruct.constCount. rewrite (proj2 Hw) by lia. exact Hcc.
  - apply IH; [|exact Hhi].
    unfold BlobStruct.sizeof, BlobField.sizeof, BlobConstant.sizeof. lia.
Qed.

(** The blocks lie inside the buffer: there are no more of them than
    there are bytes. *)
Lemma struct_blocks_last o m stringDataStart cur n last :
  struct_blocks o m stringDataStart cur n last -> n <> 0%nat ->
  last <= Z.of_nat (length m).
Proof.
  induction 1 as [cur|cur fc cc n last Hok Hfc Hcc Hrest IH];
    [congruence|]. intros _.
  destruct n as [|n]; [|apply IH; discriminate].
  inversion Hrest; subst.
  destruct Hok as (no & sn & fc2 & cc2 & _ & _ & _ & F2 & C2 & _ & _
                   & _ & _ & Hf & Hc).
  assert (fc2 = fc) as -> by congruence.
  assert (cc2 = cc) as -> by congruence.
  pose proof (load_u32_bound _ _ _ _ Hfc).
  pose proof (load_u32_bound _ _ _ _ Hcc).
  unfold BlobStruct.sizeof, BlobField.sizeof, BlobConstant.sizeof,
    BlobStruct.fieldCount, BlobStruct.constCount in *.
  destruct (Z.eq_dec cc 0) as [->|Hcz].
  - destruct (Z.eq_dec fc 0) as [->|Hfz].
    + apply (load_uint_in_bounds _ 4) in Hcc. bounds. lia.
    + destruct (Hf (fc - 1) ltac:(lia)) as (dn & dt & _ & _ & Boff & _).
      unfold BlobField.offset in Boff. bounds. lia.
  - destruct (Hc (cc - 1) ltac:(lia)) as (cn & _ & Bv & _).
    unfold BlobConstant.value in Bv. bounds. lia.
Qed.

Lemma struct_blocks_count o m stringDataStart cur n last :
  struct_blocks o m stringDataStart cur n last -> 0 <= cur ->
  (n <= length m)%nat.
Proof.
  intros H H0. destruct n as [|n]; [lia|].
  pose proof (struct_blocks_le _ _ _ _ _ _ H).
  pose proof (struct_blocks_last _ _ _ _ _ _ H ltac:(discriminate)).
  lia.
Qed.

Section StructsTotal.
Variables (host : byte_order) (swapsNeeded : bool).
Variables (stringDataStart structureCount : Z).

Lemma read_structs_loop_total (n : nat) : forall fuel cur i acc s last,
  struct_blocks (file_order host swapsNeeded) (blobBuffer s) stringDataStart
    cur n last ->
  0 <= cur -> structureCount < 4294967295 ->
  i = structureCount + 1 - Z.of_nat n -> 1 <= i -> (n < fuel)%nat ->
  exists structs s',
    read_structs_loop fuel host swapsNeeded stringDataStart structureCount
      cur i acc s = Done (structs, last) s'.
Proof.
  induction n as [|n IH]; intros fuel cur i acc s last Hb H0 Hmax Hi H1 Hfuel;
    (destruct fuel as [|fuel]; [lia|]); cbn [read_structs_loop];
    inversion Hb; subst.
  - replace (structureCount + 1 - Z.of_nat 0 <=? structureCount) with false
      by (symmetry; apply Z.leb_gt; lia).
    do 2 eexists. reflexivity.
  - replace (structureCount + 1 - Z.of_nat (S n) <=? structureCount) with true
      by (symmetry; apply Z.leb_le; lia).
    match goal with
    | Hok : struct_block_ok _ _ _ _ |- _ =>
        destruct (read_struct_total _ _ _ _ _ H0 Hok)
          as (st & next & s1 & Hread)
    end.
    rewrite (bind_eq _ _ _ _ _ Hread).
    destruct (read_struct_Done _ _ _ _ _ _ _ _ Hread)
      as (_ & _ & fc' & cc' & _ & _ & _ & Hfc' & Hcc' & _ & _ & _ & _ & _ & _
          & Hnext & _ & _ & _ & Hso & _).
    assert (fc' = fc) as -> by congruence.
    assert (cc' = cc) as -> by congruence.
    pose proof (load_u32_bound _ _ _ _ Hfc').
    pose proof (load_u32_bound _ _ _ _ Hcc').
    unfold BlobStruct.sizeof, BlobField.sizeof, BlobConstant.sizeof in *.
    subst next.
    apply IH; try lia; try (rewrite wrap32_small; lia).
    eapply struct_blocks_agree; [| | |eassumption].
    + eapply (same_outside_words_agree _ _ _ _ _ last); [exact Hso|].
      apply Z.le_refl || lia.
    + lia.
    + apply Z.le_refl.
Qed.

End StructsTotal.

Lemma read_structs_total host swapsNeeded stringDataStart structureCount cur s
    last :
  struct_blocks (file_order host swapsNeeded) (blobBuffer s) stringDataStart
    cur (Z.to_nat structureCount) last ->
  0 <= cur -> 0 <= structureCount < 4294967295 ->
  exists structs s',
    read_structs host swapsNeeded stringDataStart structureCount cur s
    = Done (structs, last) s'.
Proof.
  intros Hb H0 Hmax.
  pose proof (struct_blocks_count _ _ _ _ _ _ Hb H0) as Hcount.
  destruct (read_structs_loop_total host swapsNeeded stringDataStart
              structureCount (Z.to_nat structureCount)
              (S (length (blobBuffer s))) cur 1 [] s last Hb H0)
    as (structs & s' & H); try lia.
  exists structs, s'. unfold read_structs.
  erewrite bind_eq by reflexivity. exact H.
Qed.

(** ** The two passes together *)

Lemma decode_Done host swapsNeeded s structs cur' s' :
  decode host swapsNeeded s = Done (structs, cur') s' ->
  exists sds stds es,
    load_u32 host (blobHdrV1 s) BlobHeaderV1.structDataSize = Some sds
    /\ load_u32 host (blobHdrV1 s) BlobHeaderV1.stringTableDataSize = Some stds
    /\ string_entries (file_order host swapsNeeded) (blobBuffer s)
         (BlobHeaderV1.sizeof + sds + stds) (BlobHeaderV1.sizeof + sds) es
    /\ BlobHeaderV1.sizeof <= cur'
    /\ blobHdrV1 s' = blobHdrV1 s
    /\ (swapsNeeded = false -> blobBuffer s' = blobBuffer s)
    /\ same_outside
         (if swapsNeeded then swap_lengths (blobBuffer s) es else blobBuffer s)
         (blobBuffer s') BlobHeaderV1.sizeof (cur' - BlobHeaderV1.sizeof)
    /\ Forall (lengths_read_from host
                 (if swapsNeeded then swap_lengths (blobBuffer s) es
                  else blobBuffer s)
                 (BlobHeaderV1.sizeof + sds) cur') structs.
Proof.
  unfold decode. intros H. do 5 step_in H.
  step_in Hs. step_in Hs0. step_in Hs1. step_in Hs2.
  rename v into sds, v0 into stds, v1 into count.
  apply read_strings_Done in Hs3 as (es & He & Hbuf & Hh). simpl in *.
  apply read_structs_Done in H as (Hle & Hh' & _ & Hb & Hso & L).
  exists sds, stds, es. rewrite <- Hbuf.
  do 4 (split; [assumption|]). split; [congruence|].
  split; [|split; assumption].
  intros E. rewrite (Hb E), Hbuf, E. reflexivity.
Qed.

(** A blob whose string entries and structure blocks lie inside the
    buffer, the blocks before the string table, is decoded: both passes
    complete, and the walker ends where the blocks end. *)
Lemma decode_total host swapsNeeded s sds stds count es last :
  load_u32 host (blobHdrV1 s) BlobHeaderV1.structDataSize = Some sds ->
  load_u32 host (blobHdrV1 s) BlobHeaderV1.stringTableDataSize = Some stds ->
  load_u32 host (blobHdrV1 s) BlobHeaderV1.structureCount = Some count ->
  count < 4294967295 ->
  string_entries (file_order host swapsNeeded) (blobBuffer s)
    (BlobHeaderV1.sizeof + sds + stds) (BlobHeaderV1.sizeof + sds) es ->
  Forall (string_entry_ok (file_order host swapsNeeded) (blobBuffer s)) es ->
  struct_blocks (file_order host swapsNeeded) (blobBuffer s)
    (BlobHeaderV1.sizeof + sds) BlobHeaderV1.sizeof (Z.to_nat count) last ->
  last <= BlobHeaderV1.sizeof + sds ->
  exists structs s', decode host swapsNeeded s = Done (structs, last) s'.
Proof.
  intros Hsds Hstds Hcount Hmax He Hok Hb Hlast.
  pose proof (load_u32_bound _ _ _ _ Hsds) as Rsds.
  pose proof (load_u32_bound _ _ _ _ Hcount) as Rcount.
  set (s0 := mkState (blobHdrV1 s) (blobBuffer s)
               (output s ++ [Out_strings_title])).
  destruct (read_strings_total host swapsNeeded (BlobHeaderV1.sizeof + sds)
              (BlobHeaderV1.sizeof + sds + stds) s0 es)
    as (s1 & Hstrings & Hbuf & _); [unfold BlobHeaderV1.sizeof; lia|exact He
                                   |exact Hok|].
  cbn [blobBuffer s0] in Hbuf.
  destruct (string_entries_bounds _ _ _ _ _ He) as [Hbounds _].
  assert (Hw : words_agree (blobBuffer s) (blobBuffer s1) 0
                 (BlobHeaderV1.sizeof + sds)).
  { rewrite Hbuf. destruct swapsNeeded.
    - apply swap_lengths_words_agree.
      eapply Forall_impl; [exact Hbounds|]. simpl. intros e [[? ?] B].
      split; [exact B|lia].
    - split; reflexivity. }
  destruct (read_structs_total host swapsNeeded (BlobHeaderV1.sizeof + sds)
              count BlobHeaderV1.sizeof s1 last)
    as (structs & s2 & Hstructs).
  { eapply struct_blocks_agree; [exact Hw| |exact Hlast|exact Hb].
    unfold BlobHeaderV1.sizeof. lia. }
  { unfold BlobHeaderV1.sizeof. lia. }
  { lia. }
  exists structs, s2. unfold decode, hdr_u32.
  rewrite of_option_bind, Hsds. cbv beta iota.
  rewrite of_option_bind, Hstds. cbv beta iota.
  rewrite of_option_bind, Hcount. cbv beta iota.
  change ((printf Out_strings_title ≫= ?k) s) with (k tt s0).
  cbv beta. rewrite (bind_eq _ _ _ _ _ Hstrings). exact Hstructs.
Qed.

(** C10. When swaps are needed and the two passes complete, the pass
    over the string table has exchanged the two bytes of the length
    field of every entry of the table, each once (the fields are
    disjoint): each then reads in the byte order of the host as it read
    in the byte order of the blob, and no other byte is changed.  The
    pass over the structures swaps only the records it walks and reads
    the length of every string it resolves from the buffer as the first
    pass left it, in the byte order of the host and without a swap of
    its own: a length is the one stored in the blob when its entry was
    visited by the first pass, and the byte-swapped value when it was
    not.  The two passes do complete on a blob whose string entries and
    structure blocks lie inside the buffer, the blocks before the
    string table. *)
Theorem string_lengths_swapped_once host s :
  (forall sds stds count es last,
     load_u32 host (blobHdrV1 s) BlobHeaderV1.structDataSize = Some sds ->
     load_u32 host (blobHdrV1 s) BlobHeaderV1.stringTableDataSize
     = Some stds ->
     load_u32 host (blobHdrV1 s) BlobHeaderV1.structureCount = Some count ->
     count < 4294967295 ->
     string_entries (opposite host) (blobBuffer s)
       (BlobHeaderV1.sizeof + sds + stds) (BlobHeaderV1.sizeof + sds) es ->
     Forall (string_entry_ok (opposite host) (blobBuffer s)) es ->
     struct_blocks (opposite host) (blobBuffer s)
       (BlobHeaderV1.sizeof + sds) BlobHeaderV1.sizeof (Z.to_nat count) last ->
     last <= BlobHeaderV1.sizeof + sds ->
     exists structs s', decode host true s = Done (structs, last) s')
  /\ (forall structs cur' s',
     decode host true s = Done (structs, cur') s' ->
     exists sds stds es,
       load_u32 host (blobHdrV1 s) BlobHeaderV1.structDataSize = Some sds
       /\ load_u32 host (blobHdrV1 s) BlobHeaderV1.stringTableDataSize = Some stds
       /\ string_entries (opposite host) (blobBuffer s)
            (BlobHeaderV1.sizeof + sds + stds) (BlobHeaderV1.sizeof + sds) es
       /\ StronglySorted (fun a b => a + 2 <= b) es
       /\ Forall (fun e =>
             load_u16 host (swap_lengths (blobBuffer s) es) e
             = load_u16 (opposite host) (blobBuffer s) e) es
       /\ (forall o k a,
             Forall (fun e => a + Z.of_nat k <= e \/ e + 2 <= a) es ->
             load_uint o k (swap_lengths (blobBuffer s) es) a
             = load_uint o k (blobBuffer s) a)
       /\ same_outside (swap_lengths (blobBuffer s) es) (blobBuffer s')
            BlobHeaderV1.sizeof (cur' - BlobHeaderV1.sizeof)
       /\ (cur' <= BlobHeaderV1.sizeof + sds ->
           Forall (lengths_read_from host (swap_lengths (blobBuffer s) es)
                     (BlobHeaderV1.sizeof + sds) (BlobHeaderV1.sizeof + sds))
             structs
           /\ Forall (fun st =>
                 (In (Structure.name st - BlobString.data) es ->
                  load_u16 (opposite host) (blobBuffer s)
                    (Structure.name st - BlobString.data)
                  = Some (Structure.nameLength st))
                 /\ (Forall (fun e =>
                        Structure.name st <= e
                        \/ e + 2 <= Structure.name st - BlobString.data) es ->
                     load_u16 host (blobBuffer s)
                       (Structure.name st - BlobString.data)
                     = Some (Structure.nameLength st)))
                structs)).
Proof.
  split; [intros sds stds count es last; apply (decode_total host true)|].
  intros structs cur' s' H. apply decode_Done in H
    as (sds & stds & es & Hsds & Hstds & He & Hcur & _ & _ & Hso & L).
  simpl in *. exists sds, stds, es.
  destruct (string_entries_bounds _ _ _ _ _ He) as [Hb Hsorted].
  assert (Hin : Forall (fun e => in_bounds (blobBuffer s) e 2 = true) es)
    by (eapply Forall_impl; [exact Hb|]; simpl; tauto).
  assert (Hother : forall o k a,
            Forall (fun e => a + Z.of_nat k <= e \/ e + 2 <= a) es ->
            load_uint o k (swap_lengths (blobBuffer s) es) a
            = load_uint o k (blobBuffer s) a).
  { intros o k a Ha. apply load_uint_swap_lengths_other.
    apply Forall_and. split; assumption. }
  pose proof (load_u16_swap_lengths host es _ Hin Hsorted) as Hnative.
  do 4 (split; [assumption|]). split; [exact Hnative|].
  split; [exact Hother|]. split; [exact Hso|].
  intros Hlim.
  assert (L' : Forall (lengths_read_from host (swap_lengths (blobBuffer s) es)
                         (BlobHeaderV1.sizeof + sds) (BlobHeaderV1.sizeof + sds))
                 structs).
  { eapply Forall_impl; [exact L|]. simpl. intros st.
    apply lengths_read_from_weaken. exact Hlim. }
  split; [exact L'|].
  eapply Forall_impl; [exact L'|]. simpl. intros st ([N1 N2] & _).
  specialize (N2 N1). split.
  - intros Hvisited. rewrite <- N2. symmetry.
    rewrite Forall_forall in Hnative. apply Hnative.
    apply list_elem_of_In. exact Hvisited.
  - intros Hnot. rewrite <- N2. symmetry. apply (Hother host 2%nat).
    eapply Forall_impl; [exact Hnot|]. unfold BlobString.data. simpl.
    intros e. lia.
Qed.

Lemma zoo_string_entries o :
  string_entries o (zoo o) 164 116 [116; 122; 130; 134; 142; 148; 156].
Proof.
  destruct o.
  - apply (entries_next _ _ _ 116 4); [reflexivity..|].
    apply (entries_next _ _ _ 122 5); [reflexivity..|].
    apply (entries_next _ _ _ 130 2); [reflexivity..|].
    apply (entries_next _ _ _ 134 5); [reflexivity..|].
    apply (entries_next _ _ _ 142 3); [reflexivity..|].
    apply (entries_next _ _ _ 148 6); [reflexivity..|].
    apply (entries_next _ _ _ 156 5); [reflexivity..|].
    apply entries_end. discriminate.
  - apply (entries_next _ _ _ 116 4); [reflexivity..|].
    apply (entries_next _ _ _ 122 5); [reflexivity..|].
    apply (entries_next _ _ _ 130 2); [reflexivity..|].
    apply (entries_next _ _ _ 134 5); [reflexivity..|].
    apply (entries_next _ _ _ 142 3); [reflexivity..|].
    apply (entries_next _ _ _ 148 6); [reflexivity..|].
    apply (entries_next _ _ _ 156 5); [reflexivity..|].
    apply entries_end. discriminate.
Qed.

Lemma zoo_string_entries_ok o :
  Forall (string_entry_ok o (zoo o)) [116; 122; 130; 134; 142; 148; 156].
Proof.
  destruct o;
    repeat (apply Forall_cons; split;
            [eexists; split; vm_compute; reflexivity|]);
    constructor.
Qed.

Lemma zoo_struct_blocks o : struct_blocks o (zoo o) 116 20 3 116.
Proof.
  apply (blocks_next _ _ _ 20 2 1);
    [apply zoo_first_block_ok|destruct o; reflexivity..|].
  apply (blocks_next _ _ _ 76 0 0); [|destruct o; reflexivity..|].
  { exists 6, 0, 0, 0.
    destruct o;
      (do 6 (split; [reflexivity|]); split; [intros _; reflexivity|];
       do 2 (split; [reflexivity|]); split; intros j Hj; lia). }
  apply (blocks_next _ _ _ 96 0 0); [|destruct o; reflexivity..|].
  { exists 14, NO_SUPER_NAME, 0, 0.
    destruct o;
      (do 6 (split; [reflexivity|]);
       split; [intros E; destruct E; reflexivity|];
       do 2 (split; [reflexivity|]); split; intros j Hj; lia). }
  apply blocks_end.
Qed.

Lemma string_lengths_swapped_once_witness :
  (load_u32 LittleEndian (blobHdrV1 (loaded LittleEndian (zoo BigEndian)))
     BlobHeaderV1.structDataSize = Some 96
   /\ load_u32 LittleEndian (blobHdrV1 (loaded LittleEndian (zoo BigEndian)))
        BlobHeaderV1.stringTableDataSize = Some 48
   /\ load_u32 LittleEndian (blobHdrV1 (loaded LittleEndian (zoo BigEndian)))
        BlobHeaderV1.structureCount = Some 3
   /\ 3 < 4294967295
   /\ string_entries BigEndian (zoo BigEndian) 164 116
        [116; 122; 130; 134; 142; 148; 156]
   /\ Forall (string_entry_ok BigEndian (zoo BigEndian))
        [116; 122; 130; 134; 142; 148; 156]
   /\ struct_blocks BigEndian (zoo BigEndian) 116 20 3 116
   /\ 116 <= 116
   /\ exists structs s',
       decode LittleEndian true (loaded LittleEndian (zoo BigEndian))
       = Done (structs, 116) s')
  /\ decode LittleEndian true (loaded LittleEndian (zoo BigEndian))
     = Done (zoo_decoded, 116)
         (final_state (decode LittleEndian true)
            (loaded LittleEndian (zoo BigEndian)))
  /\ Forall (fun e =>
        load_u16 LittleEndian
          (swap_lengths (zoo BigEndian) [116; 122; 130; 134; 142; 148; 156]) e
        = load_u16 BigEndian (zoo BigEndian) e)
       [116; 122; 130; 134; 142; 148; 156]
  /\ Forall (lengths_read_from LittleEndian
               (swap_lengths (zoo BigEndian)
                  [116; 122; 130; 134; 142; 148; 156]) 116 116) zoo_decoded
  /\ Forall (fun st =>
        load_u16 BigEndian (zoo BigEndian)
          (Structure.name st - BlobString.data)
        = Some (Structure.nameLength st)) zoo_decoded.
Proof.
  assert (H : decode LittleEndian true (loaded LittleEndian (zoo BigEndian))
              = Done (zoo_decoded, 116)
                  (final_state (decode LittleEndian true)
                     (loaded LittleEndian (zoo BigEndian))))
    by (vm_compute; reflexivity).
  assert (P1 : load_u32 LittleEndian
                 (blobHdrV1 (loaded LittleEndian (zoo BigEndian)))
                 BlobHeaderV1.structDataSize = Some 96)
    by (vm_compute; reflexivity).
  assert (P2 : load_u32 LittleEndian
                 (blobHdrV1 (loaded LittleEndian (zoo BigEndian)))
                 BlobHeaderV1.stringTableDataSize = Some 48)
    by (vm_compute; reflexivity).
  assert (P3 : load_u32 LittleEndian
                 (blobHdrV1 (loaded LittleEndian (zoo BigEndian)))
                 BlobHeaderV1.structureCount = Some 3)
    by (vm_compute; reflexivity).
  assert (P4 : 3 < 4294967295) by lia.
  assert (P5 : 116 <= 116) by lia.
  destruct (string_lengths_swapped_once LittleEndian
              (loaded LittleEndian (zoo BigEndian))) as [Ha Hb].
  split.
  { do 4 (split; [assumption|]).
    split; [apply zoo_string_entries|].
    split; [apply zoo_string_entries_ok|].
    split; [apply zoo_struct_blocks|]. split; [exact P5|].
    exact (Ha 96 48 3 [116; 122; 130; 134; 142; 148; 156] 116 P1 P2 P3 P4
             (zoo_string_entries BigEndian) (zoo_string_entries_ok BigEndian)
             (zoo_struct_blocks BigEndian) P5). }
  split; [exact H|].
  destruct (Hb _ _ _ H)
    as (sds & stds & es & Hsds & Hstds & He & _ & Hn & _ & _ & Hl).
  injection Hsds as <-. injection Hstds as <-.
  assert (E : es = [116; 122; 130; 134; 142; 148; 156])
    by (eapply string_entries_det; [exact He|apply zoo_string_entries]).
  subst es. split; [exact Hn|].
  destruct Hl as [Hl1 Hl2]; [discriminate|]. split; [exact Hl1|].
  unfold zoo_decoded in *.
  repeat (apply Forall_cons in Hl2 as [[? _] Hl2]).
  repeat (apply Forall_cons; split); [| | |constructor];
    match goal with
    | H : In _ _ -> _ |- _ => vm_compute in H; vm_compute; apply H; tauto
    end.
Defined.

(** ** The report leaves the buffer alone *)

Lemma buf_string_Done a precision s data s' :
  buf_string a precision s = Done data s' ->
  s' = s /\ printf_s (bytes_from (blobBuffer s) a) precision = Some data.
Proof. intros H. step_in H. auto. Qed.

Lemma for_each_buffer {A} (f : A -> M unit) l :
  (forall x s u s', f x s = Done u s' -> blobBuffer s' = blobBuffer s) ->
  forall s u s', for_each f l s = Done u s' -> blobBuffer s' = blobBuffer s.
Proof.
  intros Hf. induction l as [|x l IH]; intros s u s' H.
  - injection H as <- <-. reflexivity.
  - cbn [for_each] in H. step_in H.
    rewrite (IH _ _ _ H). eapply Hf. exact Hs.
Qed.

Lemma print_field_buffer field s u s' :
  print_field field s = Done u s' -> blobBuffer s' = blobBuffer s.
Proof.
  unfold print_field. intros H. do 2 step_in H.
  step_in Hs. step_in Hs0. step_in H. reflexivity.
Qed.

Lemma print_constant_buffer constant s u s' :
  print_constant constant s = Done u s' -> blobBuffer s' = blobBuffer s.
Proof.
  unfold print_constant. intros H. step_in H.
  step_in Hs. step_in H. reflexivity.
Qed.

Lemma print_struct_buffer builtStruct s u s' :
  print_struct builtStruct s = Done u s' -> blobBuffer s' = blobBuffer s.
Proof.
  unfold print_struct. intros H. do 5 step_in H.
  step_in Hs. step_in Hs0. step_in Hs2.
  apply (for_each_buffer _ _ print_field_buffer) in Hs3.
  apply (for_each_buffer _ _ print_constant_buffer) in H.
  rewrite H, Hs3. simpl.
  destruct (Structure.superName builtStruct).
  - step_in Hs1. step_in Hs0. step_in Hs1. reflexivity.
  - step_in Hs1. reflexivity.
Qed.

Lemma report_buffer structs s u s' :
  report structs s = Done u s' -> blobBuffer s' = blobBuffer s.
Proof.
  unfold report. intros H. do 2 step_in H. step_in Hs. step_in Hs0.
  apply (for_each_buffer _ _ print_struct_buffer) in H. exact H.
Qed.

(** ** The buffer during the decode *)

(** C9 does not hold as it is stated: the buffer is modified when swaps
    are needed.  A big-endian blob read on a little-endian host ends
    with a buffer that differs from the bytes read from the file. *)
Lemma buffer_modified_by_swaps :
  fread (zoo BigEndian) 164 = zoo BigEndian
  /\ blobBuffer (loaded LittleEndian (zoo BigEndian)) = zoo BigEndian
  /\ exists s',
      main LittleEndian (zoo BigEndian) = Done 0 s'
      /\ load_u8 (zoo BigEndian) 117 = Some x04
      /\ load_u8 (blobBuffer s') 117 = Some x00
      /\ blobBuffer s' <> zoo BigEndian.
Proof.
  split; [reflexivity|]. split; [reflexivity|].
  exists (match main LittleEndian (zoo BigEndian) with
          | Done _ s' => s'
          | _ => buffer_state []
          end).
  split; [vm_compute; reflexivity|].
  split; [reflexivity|]. split; [vm_compute; reflexivity|].
  vm_compute. discriminate.
Qed.

(** C9, as the code has it.  The decoder leaves the buffer as it was
    read when no swap is needed, and the report never writes to it.
    When swaps are needed the decoder swaps in place: the buffer keeps
    its size, the pass over the string table exchanges the two bytes of
    the length field of every entry, and the pass over the structures
    changes only bytes of the records it walks, between the end of the
    header and the final position of its cursor. *)
Theorem buffer_modified_only_by_swaps host :
  (forall s r s', decode host false s = Done r s' ->
                  blobBuffer s' = blobBuffer s)
  /\ (forall structs s u s', report structs s = Done u s' ->
                             blobBuffer s' = blobBuffer s)
  /\ (forall s structs cur' s',
        decode host true s = Done (structs, cur') s' ->
        length (blobBuffer s') = length (blobBuffer s)
        /\ exists sds stds es,
            load_u32 host (blobHdrV1 s) BlobHeaderV1.structDataSize = Some sds
            /\ load_u32 host (blobHdrV1 s) BlobHeaderV1.stringTableDataSize
               = Some stds
            /\ string_entries (opposite host) (blobBuffer s)
                 (BlobHeaderV1.sizeof + sds + stds) (BlobHeaderV1.sizeof + sds)
                 es
            /\ same_outside (swap_lengths (blobBuffer s) es) (blobBuffer s')
                 BlobHeaderV1.sizeof (cur' - BlobHeaderV1.sizeof)).
Proof.
  split; [|split].
  - intros s [structs cur'] s' H. apply decode_Done in H
      as (_ & _ & _ & _ & _ & _ & _ & _ & Hb & _). apply Hb. reflexivity.
  - apply report_buffer.
  - intros s structs cur' s' H. apply decode_Done in H
      as (sds & stds & es & Hsds & Hstds & He & _ & _ & _ & Hso & _).
    simpl in *. split.
    + rewrite (proj1 Hso). apply swap_lengths_length.
    + exists sds, stds, es. auto.
Qed.

Lemma buffer_modified_only_by_swaps_witness :
  (decode LittleEndian false (loaded LittleEndian (zoo LittleEndian))
   = Done (zoo_decoded, 116) (final_state (decode LittleEndian false)
                                (loaded LittleEndian (zoo LittleEndian)))
   /\ blobBuffer (final_state (decode LittleEndian false)
                   (loaded LittleEndian (zoo LittleEndian)))
      = zoo LittleEndian)
  /\ (report zoo_decoded (loaded LittleEndian (zoo LittleEndian))
      = Done tt (final_state (report zoo_decoded)
                   (loaded LittleEndian (zoo LittleEndian)))
      /\ blobBuffer (final_state (report zoo_decoded)
                      (loaded LittleEndian (zoo LittleEndian)))
         = zoo LittleEndian)
  /\ (decode LittleEndian true (loaded LittleEndian (zoo BigEndian))
      = Done (zoo_decoded, 116) (final_state (decode LittleEndian true)
                                   (loaded LittleEndian (zoo BigEndian)))
      /\ length (blobBuffer (final_state (decode LittleEndian true)
                               (loaded LittleEndian (zoo BigEndian))))
         = length (zoo BigEndian)).
Proof.
  destruct (buffer_modified_only_by_swaps LittleEndian) as (Ha & Hb & Hc).
  assert (H1 : decode LittleEndian false (loaded LittleEndian (zoo LittleEndian))
               = Done (zoo_decoded, 116)
                   (final_state (decode LittleEndian false)
                      (loaded LittleEndian (zoo LittleEndian))))
    by (vm_compute; reflexivity).
  assert (H2 : report zoo_decoded (loaded LittleEndian (zoo LittleEndian))
               = Done tt (final_state (report zoo_decoded)
                            (loaded LittleEndian (zoo LittleEndian))))
    by (vm_compute; reflexivity).
  assert (H3 : decode LittleEndian true (loaded LittleEndian (zoo BigEndian))
               = Done (zoo_decoded, 116)
                   (final_state (decode LittleEndian true)
                      (loaded LittleEndian (zoo BigEndian))))
    by (vm_compute; reflexivity).
  split; [split; [exact H1|exact (Ha _ _ _ H1)]|].
  split; [split; [exact H2|exact (Hb _ _ _ _ H2)]|].
  split; [exact H3|]. exact (proj1 (Hc _ _ _ _ H3)).
Defined.

(** ** Reading the file *)

Lemma fread_take file : forall n, fread file n = take (Z.to_nat n) file.
Proof.
  induction file as [|b t IH]; intros n; simpl.
  - rewrite take_nil. reflexivity.
  - destruct (Z.leb_spec n 0).
    + replace (Z.to_nat n) with 0%nat by lia. reflexivity.
    + rewrite IH. replace (Z.to_nat n) with (S (Z.to_nat (n - 1))) by lia.
      reflexivity.
Qed.

Lemma length_fread file n :
  0 <= n -> Z.of_nat (length (fread file n)) = Z.min n (Z.of_nat (length file)).
Proof. intros Hn. rewrite fread_take, length_take. lia. Qed.

Lemma fread_app file extra n :
  n <= Z.of_nat (length file) -> fread (file ++ extra) n = fread file n.
Proof.
  intros Hn. rewrite !fread_take. rewrite take_app_le by lia. reflexivity.
Qed.

Lemma fread_all file n :
  Z.of_nat (length file) <= n -> fread file n = file.
Proof. intros Hn. rewrite fread_take. apply take_ge. lia. Qed.

Lemma read_header_app file extra :
  20 <= Z.of_nat (length file) ->
  read_header (file ++ extra) = read_header file.
Proof.
  intros H. unfold read_header, BlobHeaderV1.sizeof.
  rewrite fread_app by lia. reflexivity.
Qed.

Lemma read_header_full file :
  20 <= Z.of_nat (length file) ->
  read_header file = (fread file 20, 20) /\ length (fread file 20) = 20%nat.
Proof.
  intros H. unfold read_header, BlobHeaderV1.sizeof.
  pose proof (length_fread file 20 ltac:(lia)) as L.
  assert (L' : length (fread file 20) = 20%nat) by lia.
  rewrite L'. simpl. rewrite app_nil_r. split; reflexivity.
Qed.

Lemma load_u8_is_Some m a :
  in_bounds m a 1 = true -> is_Some (load_u8 m a).
Proof.
  intros H. unfold load_u8. rewrite H. bounds.
  apply lookup_lt_is_Some. lia.
Qed.

Lemma hdr_u32_total host s field :
  in_bounds (blobHdrV1 s) field 4 = true ->
  exists v, hdr_u32 host field s = Done v s
            /\ load_u32 host (blobHdrV1 s) field = Some v.
Proof.
  intros H. destruct (load_uint_is_Some host 4 _ _ H) as [v Hv].
  exists v. split; [|exact Hv]. unfold hdr_u32, of_option.
  unfold load_u32. rewrite Hv. reflexivity.
Qed.

Lemma hdr_u8_total s field :
  in_bounds (blobHdrV1 s) field 1 = true ->
  exists v, hdr_u8 field s = Done v s.
Proof.
  intros H. destruct (load_u8_is_Some _ _ H) as [b Hb].
  exists (byte_val b). unfold hdr_u8, of_option. rewrite Hb. reflexivity.
Qed.

Lemma fix_byte_order_total host s :
  length (blobHdrV1 s) = 20%nat ->
  exists swapsNeeded h',
    fix_byte_order host s
    = Done swapsNeeded (mkState h' (blobBuffer s) (output s))
    /\ length h' = 20%nat.
Proof.
  intros L. unfold fix_byte_order.
  destruct (hdr_u32_total host s BlobHeaderV1.coreVersion) as (raw & Hraw & _).
  { bounds. unfold BlobHeaderV1.coreVersion. lia. }
  rewrite (bind_eq _ _ _ _ _ Hraw).
  destruct (65535 <? raw).
  - destruct (header_fields_after_swap host (blobHdrV1 s))
      as (h' & Hswap & Hl & _).
    { bounds. lia. }
    exists true, h'. split; [|congruence].
    erewrite bind_eq; [reflexivity|].
    apply (proj2 (hdr_update_Done _ _ tt _)). eauto.
  - exists false, (blobHdrV1 s). split; [|exact L].
    destruct s. reflexivity.
Qed.

Lemma print_header_total host s :
  length (blobHdrV1 s) = 20%nat ->
  exists coreVersion sizeofBool sizeofUDATA bitfieldFormat sds stds count,
    print_header host s
    = Done tt (mkState (blobHdrV1 s) (blobBuffer s)
                 (output s ++ [Out_header coreVersion sizeofBool sizeofUDATA
                                 bitfieldFormat sds stds count]))
    /\ load_u32 host (blobHdrV1 s) BlobHeaderV1.structDataSize = Some sds
    /\ load_u32 host (blobHdrV1 s) BlobHeaderV1.stringTableDataSize = Some stds
    /\ load_u32 host (blobHdrV1 s) BlobHeaderV1.structureCount = Some count.
Proof.
  intros L. unfold print_header.
  destruct (hdr_u32_total host s BlobHeaderV1.coreVersion) as (cv & H0 & _);
    [bounds; unfold BlobHeaderV1.coreVersion; lia|].
  destruct (hdr_u8_total s BlobHeaderV1.sizeofBool) as (sb & H1);
    [bounds; unfold BlobHeaderV1.sizeofBool; lia|].
  destruct (hdr_u8_total s BlobHeaderV1.sizeofUDATA) as (su & H2);
    [bounds; unfold BlobHeaderV1.sizeofUDATA; lia|].
  destruct (hdr_u8_total s BlobHeaderV1.bitfieldFormat) as (bf & H3);
    [bounds; unfold BlobHeaderV1.bitfieldFormat; lia|].
  destruct (hdr_u32_total host s BlobHeaderV1.structDataSize) as (sds & H4 & L4);
    [bounds; unfold BlobHeaderV1.structDataSize; lia|].
  destruct (hdr_u32_total host s BlobHeaderV1.stringTableDataSize)
    as (stds & H5 & L5);
    [bounds; unfold BlobHeaderV1.stringTableDataSize; lia|].
  destruct (hdr_u32_total host s BlobHeaderV1.structureCount)
    as (count & H6 & L6);
    [bounds; unfold BlobHeaderV1.structureCount; lia|].
  exists cv, sb, su, bf, sds, stds, count.
  rewrite (bind_eq _ _ _ _ _ H0), (bind_eq _ _ _ _ _ H1),
    (bind_eq _ _ _ _ _ H2), (bind_eq _ _ _ _ _ H3), (bind_eq _ _ _ _ _ H4),
    (bind_eq _ _ _ _ _ H5), (bind_eq _ _ _ _ _ H6).
  auto.
Qed.

(** The part of [run] that deals with the header does not depend on the
    rest of the file: it ends with the header in the byte order of the
    host and one line of output, and hands over to [load_and_decode]
    with the length that the header declares. *)
Lemma run_header host hdr :
  length hdr = 20%nat ->
  exists swapsNeeded h' coreVersion sizeofBool sizeofUDATA bitfieldFormat
         sds stds count,
    length h' = 20%nat
    /\ fix_byte_order host (mkState hdr [] [])
       = Done swapsNeeded (mkState h' [] [])
    /\ load_u32 host h' BlobHeaderV1.structDataSize = Some sds
    /\ load_u32 host h' BlobHeaderV1.stringTableDataSize = Some stds
    /\ load_u32 host h' BlobHeaderV1.structureCount = Some count
    /\ forall file,
        run host 20 file (mkState hdr [] [])
        = load_and_decode host swapsNeeded (BlobHeaderV1.sizeof + sds + stds)
            file
            (mkState h' []
               [Out_header coreVersion sizeofBool sizeofUDATA bitfieldFormat
                  sds stds count]).
Proof.
  intros L.
  destruct (fix_byte_order_total host (mkState hdr [] []) L)
    as (swapsNeeded & h' & Hfix & L').
  destruct (print_header_total host (mkState h' [] []) L')
    as (cv & sb & su & bf & sds & stds & count & Hprint & H4 & H5 & H6).
  simpl in *.
  exists swapsNeeded, h', cv, sb, su, bf, sds, stds, count.
  do 5 (split; [assumption|]).
  intros file. unfold run. simpl.
  rewrite (bind_eq _ _ _ _ _ Hfix), (bind_eq _ _ _ _ _ Hprint).
  unfold hdr_u32.
  rewrite of_option_bind. cbn [blobHdrV1]. rewrite H4.
  rewrite of_option_bind. cbn [blobHdrV1]. rewrite H5.
  reflexivity.
Qed.

(** ** The cases of [main] *)

Lemma main_short_header host file :
  Z.of_nat (length file) < 20 ->
  main host file
  = Done (-1) (mkState (fst (read_header file)) [] 
                 [Err_read_header (Z.of_nat (length file)) 20]).
Proof.
  intros H. unfold main, read_header, BlobHeaderV1.sizeof.
  rewrite fread_all by lia. unfold run, BlobHeaderV1.sizeof.
  replace (20 =? Z.of_nat (length file)) with false
    by (symmetry; apply Z.eqb_neq; lia).
  reflexivity.
Qed.

Lemma main_cases host hdr :
  length hdr = 20%nat ->
  exists swapsNeeded h' coreVersion sizeofBool sizeofUDATA bitfieldFormat
         sds stds count,
    length h' = 20%nat
    /\ fix_byte_order host (mkState hdr [] [])
       = Done swapsNeeded (mkState h' [] [])
    /\ load_u32 host h' BlobHeaderV1.structDataSize = Some sds
    /\ load_u32 host h' BlobHeaderV1.stringTableDataSize = Some stds
    /\ load_u32 host h' BlobHeaderV1.structureCount = Some count
    /\ forall file,
        fread file 20 = hdr ->
        (Z.of_nat (length file) < BlobHeaderV1.sizeof + sds + stds ->
         main host file
         = Done (-1)
             (mkState h' file
                [Out_header coreVersion sizeofBool sizeofUDATA bitfieldFormat
                   sds stds count;
                 Err_read_data (Z.of_nat (length file))
                   (BlobHeaderV1.sizeof + sds + stds)]))
        /\ (BlobHeaderV1.sizeof + sds + stds <= Z.of_nat (length file) ->
            main host file
            = decode_and_report host swapsNeeded
                (mkState h' (fread file (BlobHeaderV1.sizeof + sds + stds))
                   [Out_header coreVersion sizeofBool sizeofUDATA
                      bitfieldFormat sds stds count])).
Proof.
  intros L.
  destruct (run_header host _ L)
    as (swapsNeeded & h' & cv & sb & su & bf & sds & stds & count
        & L' & Hfix & H4 & H5 & H6 & Hrun).
  exists swapsNeeded, h', cv, sb, su, bf, sds, stds, count.
  do 5 (split; [assumption|]).
  pose proof (load_u32_bound _ _ _ _ H4).
  pose proof (load_u32_bound _ _ _ _ H5).
  intros file Hhdr.
  assert (Hlen : 20 <= Z.of_nat (length file)).
  { rewrite <- Hhdr in L. pose proof (length_fread file 20 ltac:(lia)). lia. }
  destruct (read_header_full file Hlen) as [Hrh _]. rewrite Hhdr in Hrh.
  unfold main. rewrite Hrh, Hrun.
  unfold load_and_decode, BlobHeaderV1.sizeof.
  set (n := 20 + sds + stds) in *.
  assert (Hload : forall s, load_blob file n s
            = Done (Z.min n (Z.of_nat (length file)))
                (mkState (blobHdrV1 s) (fread file n) (output s))).
  { intros s. unfold load_blob. rewrite length_fread by lia. reflexivity. }
  split; intros Hn; rewrite (bind_eq _ _ _ _ _ (Hload _)); simpl.
  - replace (n =? Z.min n (Z.of_nat (length file))) with false
      by (symmetry; apply Z.eqb_neq; lia).
    simpl. rewrite fread_all by lia.
    replace (Z.min n (Z.of_nat (length file))) with (Z.of_nat (length file))
      by lia.
    reflexivity.
  - replace (n =? Z.min n (Z.of_nat (length file))) with true
      by (symmetry; apply Z.eqb_eq; lia).
    reflexivity.
Qed.

(** ** The length of the file *)

(** C4 does not hold as it is stated: a file with a byte more than its
    header declares is read without an error, like the file without
    that byte. *)
Lemma longer_file_accepted :
  Z.of_nat (length (zoo LittleEndian ++ [xff])) = 165
  /\ load_u32 LittleEndian (zoo LittleEndian ++ [xff])
       BlobHeaderV1.structDataSize = Some 96
  /\ load_u32 LittleEndian (zoo LittleEndian ++ [xff])
       BlobHeaderV1.stringTableDataSize = Some 48
  /\ BlobHeaderV1.sizeof + 96 + 48 = 164
  /\ exists s',
      main LittleEndian (zoo LittleEndian ++ [xff]) = Done 0 s'
      /\ main LittleEndian (zoo LittleEndian) = Done 0 s'.
Proof.
  do 4 (split; [reflexivity|]).
  exists (match main LittleEndian (zoo LittleEndian) with
          | Done _ s' => s'
          | _ => buffer_state []
          end).
  split; vm_compute; reflexivity.
Qed.

(** C4, as the code has it.  The decoder reads
    [sizeof(header) + structDataSize + stringTableDataSize] bytes from
    the start of the file.  A file with fewer bytes is a fatal read
    error: the program reports the number of bytes read and the number
    expected and exits with -1 (so does a file too short for a header).
    A file with more bytes is not an error: the bytes after the declared
    length are never read, and the program behaves as on the file cut to
    that length. *)
Theorem blob_length_check host file :
  (Z.of_nat (length file) < BlobHeaderV1.sizeof ->
   main host file
   = Done (-1) (mkState (fst (read_header file)) []
                  [Err_read_header (Z.of_nat (length file))
                     BlobHeaderV1.sizeof]))
  /\ (BlobHeaderV1.sizeof <= Z.of_nat (length file) ->
      exists swapsNeeded h' coreVersion sizeofBool sizeofUDATA bitfieldFormat
             sds stds count,
        fix_byte_order host (state_with_header file)
        = Done swapsNeeded (mkState h' [] [])
        /\ load_u32 host h' BlobHeaderV1.structDataSize = Some sds
        /\ load_u32 host h' BlobHeaderV1.stringTableDataSize = Some stds
        /\ (Z.of_nat (length file) < BlobHeaderV1.sizeof + sds + stds ->
            main host file
            = Done (-1)
                (mkState h' file
                   [Out_header coreVersion sizeofBool sizeofUDATA
                      bitfieldFormat sds stds count;
                    Err_read_data (Z.of_nat (length file))
                      (BlobHeaderV1.sizeof + sds + stds)]))
        /\ (BlobHeaderV1.sizeof + sds + stds <= Z.of_nat (length file) ->
            main host file
            = decode_and_report host swapsNeeded
                (mkState h' (fread file (BlobHeaderV1.sizeof + sds + stds))
                   [Out_header coreVersion sizeofBool sizeofUDATA
                      bitfieldFormat sds stds count])
            /\ (forall extra, main host (file ++ extra) = main host file)
            /\ main host (fread file (BlobHeaderV1.sizeof + sds + stds))
               = main host file)).
Proof.
  split; [apply main_short_header|].
  unfold BlobHeaderV1.sizeof. intros Hlen.
  destruct (read_header_full file Hlen) as [Hrh L].
  destruct (main_cases host _ L)
    as (swapsNeeded & h' & cv & sb & su & bf & sds & stds & count
        & L' & Hfix & H4 & H5 & H6 & Hall).
  exists swapsNeeded, h', cv, sb, su, bf, sds, stds, count.
  pose proof (load_u32_bound _ _ _ _ H4).
  pose proof (load_u32_bound _ _ _ _ H5).
  split; [unfold state_with_header; rewrite Hrh; exact Hfix|].
  do 2 (split; [assumption|]).
  destruct (Hall file eq_refl) as [Hshort Hlong].
  split; [exact Hshort|]. intros Hn. unfold BlobHeaderV1.sizeof in *.
  split; [exact (Hlong Hn)|]. split.
  - intros extra.
    destruct (Hall (file ++ extra)) as [_ Hlong'];
      [apply fread_app; lia|].
    rewrite Hlong', (Hlong Hn); [|rewrite length_app; lia].
    rewrite fread_app by lia. reflexivity.
  - destruct (Hall (fread file (20 + sds + stds))) as [_ Hlong'].
    { rewrite !fread_take, take_take. f_equal. lia. }
    pose proof (length_fread file (20 + sds + stds) ltac:(lia)).
    rewrite Hlong', (Hlong Hn) by lia.
    rewrite (fread_all (fread _ _)) by lia. reflexivity.
Qed.

Lemma blob_length_check_witness :
  (Z.of_nat (length (take 7 (zoo LittleEndian))) < BlobHeaderV1.sizeof
   /\ main LittleEndian (take 7 (zoo LittleEndian))
      = Done (-1) (mkState (fst (read_header (take 7 (zoo LittleEndian)))) []
                     [Err_read_header 7 20]))
  /\ (BlobHeaderV1.sizeof <= Z.of_nat (length (take 100 (zoo LittleEndian)))
      /\ Z.of_nat (length (take 100 (zoo LittleEndian)))
         < BlobHeaderV1.sizeof + 96 + 48
      /\ exists s',
          main LittleEndian (take 100 (zoo LittleEndian)) = Done (-1) s'
          /\ last (output s') = Some (Err_read_data 100 164))
  /\ (BlobHeaderV1.sizeof + 96 + 48 <= Z.of_nat (length (zoo LittleEndian))
      /\ main LittleEndian (zoo LittleEndian ++ [xff])
         = main LittleEndian (zoo LittleEndian)).
Proof.
  split; [|split].
  - split; [reflexivity|].
    apply (proj1 (blob_length_check LittleEndian (take 7 (zoo LittleEndian)))).
    reflexivity.
  - split; [discriminate|]. split; [reflexivity|].
    destruct (proj2 (blob_length_check LittleEndian
                       (take 100 (zoo LittleEndian))))
      as (swapsNeeded & h' & cv & sb & su & bf & sds & stds & count
          & Hfix & H4 & H5 & Hshort & _); [discriminate|].
    injection Hfix as <- <-.
    injection H4 as <-. injection H5 as <-.
    eexists. split; [apply Hshort; reflexivity|reflexivity].
  - split; [discriminate|].
    destruct (proj2 (blob_length_check LittleEndian (zoo LittleEndian)))
      as (swapsNeeded & h' & cv & sb & su & bf & sds & stds & count
          & Hfix & H4 & H5 & _ & Hlong); [discriminate|].
    injection Hfix as <- <-.
    injection H4 as <-. injection H5 as <-.
    destruct Hlong as (_ & Hextra & _); [discriminate|].
    apply Hextra.
Defined.

(** ** The loops never run out of fuel *)

Lemma when_not_Timeout b f s : when b (buf_update f) s <> Timeout.
Proof. destruct b; [apply buf_update_not_Timeout|discriminate]. Qed.

Lemma printf_not_Timeout e s : printf e s <> Timeout.
Proof. discriminate. Qed.

(** Splits a hypothesis [c s = Timeout] along the binds of [c], closing
    the cases of the primitives. *)
Ltac timeout_in H :=
  repeat
    (let a := fresh "v" in
     let s1 := fresh "s" in
     let H1 := fresh "Hs" in
     apply bind_Timeout in H as [H|(a & s1 & H1 & H)];
     [solve [ exfalso; revert H;
              first [ apply of_option_not_Timeout
                    | apply when_not_Timeout
                    | apply buf_update_not_Timeout
                    | apply printf_not_Timeout ] ] | ]).

Lemma read_string_no_timeout host swapsNeeded stringDataStart cur num s :
  read_string host swapsNeeded stringDataStart cur num s <> Timeout.
Proof. unfold read_string. intros H. timeout_in H. discriminate. Qed.

Lemma read_field_no_timeout host swapsNeeded stringDataStart cur s :
  read_field host swapsNeeded stringDataStart cur s <> Timeout.
Proof. unfold read_field. intros H. timeout_in H. discriminate. Qed.

Lemma read_constant_no_timeout host swapsNeeded stringDataStart cur s :
  read_constant host swapsNeeded stringDataStart cur s <> Timeout.
Proof. unfold read_constant. intros H. timeout_in H. discriminate. Qed.

Lemma read_strings_loop_no_timeout host swapsNeeded stringDataStart
    stringDataEnd fuel : forall cur num s,
  Z.of_nat (length (blobBuffer s)) - cur < Z.of_nat fuel -> (1 <= fuel)%nat ->
  read_strings_loop fuel host swapsNeeded stringDataStart stringDataEnd
    cur num s <> Timeout.
Proof.
  induction fuel as [|fuel IH]; intros cur num s Hf H1 H; [lia|].
  cbn [read_strings_loop] in H.
  destruct (cur <? stringDataEnd); [|discriminate].
  apply bind_Timeout in H as [H|(next & s1 & Hs & H)].
  - exact (read_string_no_timeout _ _ _ _ _ _ H).
  - destruct (read_string_Done _ _ _ _ _ _ _ _ Hs)
      as (len & data & B & Hbuf & _ & Hlen & _ & _ & _ & ->).
    pose proof (load_uint_nonneg _ _ _ _ _ Hlen).
    pose proof (Z.mod_pos_bound len 2 ltac:(lia)).
    assert (L : length (blobBuffer s1) = length (blobBuffer s)).
    { rewrite Hbuf. destruct swapsNeeded; [|reflexivity].
      apply length_reverse_range. }
    bounds. apply IH in H; [exact H| |]; rewrite ?L; lia.
Qed.

Lemma read_fields_loop_no_timeout host swapsNeeded stringDataStart blobStruct
    fuel : forall cur i acc s,
  Z.of_nat (length (blobBuffer s)) - cur < Z.of_nat fuel -> (1 <= fuel)%nat ->
  read_fields_loop fuel host swapsNeeded stringDataStart blobStruct cur i acc s
  <> Timeout.
Proof.
  induction fuel as [|fuel IH]; intros cur i acc s Hf H1 H; [lia|].
  cbn [read_fields_loop] in H.
  apply bind_Timeout in H as [H|(n & s0 & Hn & H)];
    [exact (of_option_not_Timeout _ _ H)|].
  step_in Hn. destruct (i <=? n); [|discriminate].
  apply bind_Timeout in H as [H|([f next] & s1 & Hs & H)].
  - exact (read_field_no_timeout _ _ _ _ _ H).
  - destruct (read_field_Done _ _ _ _ _ _ _ _ Hs)
      as (-> & B & _ & _ & _ & [L _] & _).
    bounds. apply IH in H; [exact H| |]; rewrite ?L; lia.
Qed.

Lemma read_constants_loop_no_timeout host swapsNeeded stringDataStart
    blobStruct fuel : forall cur i acc s,
  Z.of_nat (length (blobBuffer s)) - cur < Z.of_nat fuel -> (1 <= fuel)%nat ->
  read_constants_loop fuel host swapsNeeded stringDataStart blobStruct
    cur i acc s <> Timeout.
Proof.
  induction fuel as [|fuel IH]; intros cur i acc s Hf H1 H; [lia|].
  cbn [read_constants_loop] in H.
  apply bind_Timeout in H as [H|(n & s0 & Hn & H)];
    [exact (of_option_not_Timeout _ _ H)|].
  step_in Hn. destruct (i <=? n); [|discriminate].
  apply bind_Timeout in H as [H|([c next] & s1 & Hs & H)].
  - exact (read_constant_no_timeout _ _ _ _ _ H).
  - destruct (read_constant_Done _ _ _ _ _ _ _ _ Hs)
      as (-> & B & _ & _ & _ & [L _] & _).
    bounds. apply IH in H; [exact H| |]; rewrite ?L; lia.
Qed.

Lemma read_struct_no_timeout host swapsNeeded stringDataStart cur s :
  0 <= cur ->
  read_struct host swapsNeeded stringDataStart cur s <> Timeout.
Proof.
  intros Hcur. unfold read_struct. intros H. timeout_in H.
  apply bind_Timeout in H as [H|([super superNameLength] & s4 & Hs3 & H)].
  { destruct (NO_SUPER_NAME =? v2); [discriminate|].
    timeout_in H. discriminate. }
  assert (Hsuper : s4 = s0 /\ s1 = s0 /\ s2 = s0 /\ s3 = s0
                   /\ length (blobBuffer s0) = length (blobBuffer s)).
  { step_in Hs0. step_in Hs1. step_in Hs2.
    destruct (struct_swap_Done host _ _ _ _ _ Hs) as (_ & _ & _ & _ & [L _] & _).
    repeat split; try reflexivity; [|assumption].
    destruct (NO_SUPER_NAME =? v2).
    - injection Hs3 as <- <- <-. reflexivity.
    - step_in Hs3. step_in Hs4. injection Hs3 as <- <- <-. reflexivity. }
  destruct Hsuper as (-> & -> & -> & -> & L).
  apply bind_Timeout in H as [H|(size & s5 & Hs5 & H)];
    [exact (of_option_not_Timeout _ _ H)|].
  step_in Hs5.
  apply bind_Timeout in H as [H|([fields afterFields] & s6 & Hs6 & H)].
  - unfold read_fields in H.
    apply bind_Timeout in H as [H|(fuel & s7 & Hs7 & H)]; [discriminate|].
    step_in Hs7. revert H. apply read_fields_loop_no_timeout;
      unfold BlobStruct.sizeof; lia.
  - pose proof Hs6 as Hs6'.
    apply read_fields_Done in Hs6'
      as (n & Hn & _ & -> & _ & _ & _ & [L6 _] & _);
      [|unfold BlobStruct.sizeof; lia].
    pose proof (load_u32_bound _ _ _ _ Hn).
    apply bind_Timeout in H as [H|([constants afterConstants] & s7 & Hs7 & H)];
      [|discriminate].
    unfold read_constants in H.
    apply bind_Timeout in H as [H|(fuel & s8 & Hs8 & H)]; [discriminate|].
    step_in Hs8. revert H. apply read_constants_loop_no_timeout;
      unfold BlobStruct.sizeof; lia.
Qed.

Lemma read_structs_loop_no_timeout host swapsNeeded stringDataStart
    structureCount fuel : forall cur i acc s,
  0 <= cur ->
  Z.of_nat (length (blobBuffer s)) - cur < Z.of_nat fuel -> (1 <= fuel)%nat ->
  read_structs_loop fuel host swapsNeeded stringDataStart structureCount
    cur i acc s <> Timeout.
Proof.
  induction fuel as [|fuel IH]; intros cur i acc s Hcur Hf H1 H; [lia|].
  cbn [read_structs_loop] in H.
  destruct (i <=? structureCount); [|discriminate].
  apply bind_Timeout in H as [H|([st next] & s1 & Hs & H)].
  - exact (read_struct_no_timeout _ _ _ _ _ Hcur H).
  - pose proof (read_struct_lengths _ _ _ _ _ _ _ _ Hs)
      as (Hnext & _ & _ & _ & [L _] & _).
    apply read_struct_Done in Hs
      as (? & ? & ? & ? & Hno & _).
    apply (load_uint_in_bounds _ 4) in Hno.
    unfold BlobStruct.nameOffset in Hno. bounds.
    apply IH in H; [exact H| | |]; rewrite ?L; lia.
Qed.

Lemma for_each_no_timeout {A} (f : A -> M unit) l :
  (forall x s, f x s <> Timeout) -> forall s, for_each f l s <> Timeout.
Proof.
  intros Hf. induction l as [|x l IH]; intros s H; [discriminate|].
  cbn [for_each] in H.
  apply bind_Timeout in H as [H|(u & s1 & _ & H)]; [exact (Hf _ _ H)|].
  exact (IH _ H).
Qed.

Lemma print_field_no_timeout field s : print_field field s <> Timeout.
Proof. unfold print_field. intros H. timeout_in H. discriminate. Qed.

Lemma print_constant_no_timeout constant s :
  print_constant constant s <> Timeout.
Proof. unfold print_constant. intros H. timeout_in H. discriminate. Qed.

Lemma print_struct_no_timeout builtStruct s :
  print_struct builtStruct s <> Timeout.
Proof.
  unfold print_struct. intros H. timeout_in H.
  apply bind_Timeout in H as [H|(u & s2 & _ & H)].
  { destruct (Structure.superName builtStruct);
      [timeout_in H|]; discriminate. }
  timeout_in H.
  apply bind_Timeout in H as [H|(u' & s4 & _ & H)].
  - exact (for_each_no_timeout _ _ print_field_no_timeout _ H).
  - exact (for_each_no_timeout _ _ print_constant_no_timeout _ H).
Qed.

Lemma report_no_timeout structs s : report structs s <> Timeout.
Proof.
  unfold report. intros H. timeout_in H.
  exact (for_each_no_timeout _ _ print_struct_no_timeout _ H).
Qed.

Lemma decode_no_timeout host swapsNeeded s :
  decode host swapsNeeded s <> Timeout.
Proof.
  unfold decode. intros H. timeout_in H.
  step_in Hs. step_in Hs0. step_in Hs1. step_in Hs2.
  pose proof (load_u32_bound _ _ _ _ Hs).
  apply bind_Timeout in H as [H|(u & s4 & _ & H)].
  - unfold read_strings in H.
    apply bind_Timeout in H as [H|(fuel & s5 & Hf & H)]; [discriminate|].
    step_in Hf. revert H. apply read_strings_loop_no_timeout;
      unfold BlobHeaderV1.sizeof; simpl; lia.
  - unfold read_structs in H.
    apply bind_Timeout in H as [H|(fuel & s5 & Hf & H)]; [discriminate|].
    step_in Hf. revert H. apply read_structs_loop_no_timeout;
      unfold BlobHeaderV1.sizeof; lia.
Qed.

Lemma decode_and_report_no_timeout host swapsNeeded s :
  decode_and_report host swapsNeeded s <> Timeout.
Proof.
  unfold decode_and_report. intros H.
  apply bind_Timeout in H as [H|([structs cur'] & s1 & _ & H)].
  - exact (decode_no_timeout _ _ _ H).
  - apply bind_Timeout in H as [H|(u & s2 & _ & H)]; [|discriminate].
    exact (report_no_timeout _ _ H).
Qed.

Lemma decode_and_report_Done host swapsNeeded s code s' :
  decode_and_report host swapsNeeded s = Done code s' -> code = 0.
Proof.
  unfold decode_and_report. intros H. step_in H. destruct v as [structs cur'].
  step_in H. injection H as <- <-. reflexivity.
Qed.

(** The model of the program is total: it ends with an exit code or with
    an access outside of the buffer. *)
Lemma main_no_timeout host file : main host file <> Timeout.
Proof.
  destruct (Z.ltb_spec (Z.of_nat (length file)) 20) as [Hlt|Hge].
  - rewrite main_short_header by assumption. discriminate.
  - destruct (read_header_full file Hge) as [_ L].
    destruct (main_cases host _ L)
      as (swapsNeeded & h' & cv & sb & su & bf & sds & stds & count
          & _ & _ & _ & _ & _ & Hall).
    destruct (Hall file eq_refl) as [Hshort Hlong].
    destruct (Z.ltb_spec (Z.of_nat (length file))
                (BlobHeaderV1.sizeof + sds + stds)) as [Hs|Hl].
    + rewrite (Hshort Hs). discriminate.
    + rewrite (Hlong Hl). apply decode_and_report_no_timeout.
Qed.

(** ** String references are not checked *)




(** ** The order of the report *)

(** The blob of the structures Zeta, Alpha and Mu is decoded in the
    order of the blob and reported in the order Alpha, Mu, Zeta, on
    either host and in either byte order. *)
Lemma zoo_report_order host o :
  exists s',
    main host (zoo o) = Done 0 s'
    /\ result (decode host (bool_decide (o <> host))) (loaded host (zoo o))
       = Some (zoo_decoded, 116)
    /\ reported_names (output s')
       = [ascii "Alpha"; ascii "Mu"; ascii "Zeta"].
Proof.
  exists (match main host (zoo o) with
          | Done _ s' => s'
          | _ => buffer_state []
          end).
  destruct host, o; vm_compute; repeat split.
Qed.

(** C6 at the blob [prefixes].  [compareStructs] compares with [strcmp],
    which does not stop at the length of a name but at the next NUL: it
    reads the name AB together with the length field of the entry that
    follows it (68, the byte of the letter D), and finds it greater than
    ABC.  The report lists ABC before AB, although AB comes first in the
    byte-wise order of the names. *)
Theorem sort_reads_past_the_name :
  exists s',
    main LittleEndian (prefixes LittleEndian) = Done 0 s'
    /\ reported_names (output s') = [ascii "ABC"; ascii "AB"]
    /\ bytes_ltb (ascii "AB") (ascii "ABC") = true
    /\ strcmp (bytes_from (blobBuffer s') 62) (bytes_from (blobBuffer s') 136)
       = Some 1
    /\ take 4 (bytes_from (blobBuffer s') 62) = [x41; x42; x44; x00].
Proof.
  exists (match main LittleEndian (prefixes LittleEndian) with
          | Done _ s' => s'
          | _ => buffer_state []
          end).
  vm_compute. repeat split.
Qed.

(** * Further properties of the reader *)

(** ** The exchange of two bytes (lines 36-43) *)

Lemma swap_bytes_Some m left right x y :
  in_bounds m left 1 = true -> in_bounds m right 1 = true ->
  m !! Z.to_nat left = Some x -> m !! Z.to_nat right = Some y ->
  swap_bytes m left right
  = Some (<[Z.to_nat right := x]> (<[Z.to_nat left := y]> m)).
Proof.
  intros Bl Br Hx Hy. unfold swap_bytes, load_u8, store_u8.
  rewrite Bl, Br, Hx, Hy. simpl.
  rewrite (in_bounds_length m) by apply length_insert.
  rewrite Br. reflexivity.
Qed.

Lemma in_bounds_lookup m a :
  in_bounds m a 1 = true -> is_Some (m !! Z.to_nat a).
Proof. intros B. apply lookup_lt_is_Some. bounds. lia. Qed.

(** X1. [swap_bytes] exchanges the bytes at its two addresses and
    leaves every other byte and the size of the object alone; a second
    exchange restores the object, and with twice the same address
    nothing changes.  An address outside of the object is an access
    outside of it. *)
Theorem swap_bytes_exchanges (m : memory) (left right : Z) :
  (in_bounds m left 1 = true -> in_bounds m right 1 = true ->
   exists m',
     swap_bytes m left right = Some m'
     /\ length m' = length m
     /\ load_u8 m' left = load_u8 m right
     /\ load_u8 m' right = load_u8 m left
     /\ (forall a, a <> left -> a <> right -> load_u8 m' a = load_u8 m a)
     /\ swap_bytes m' left right = Some m
     /\ (left = right -> m' = m))
  /\ (in_bounds m left 1 = false \/ in_bounds m right 1 = false ->
      swap_bytes m left right = None).
Proof.
  split; [|apply swap_bytes_None]. intros Bl Br.
  destruct (in_bounds_lookup _ _ Bl) as [x Hx].
  destruct (in_bounds_lookup _ _ Br) as [y Hy].
  set (L := Z.to_nat left) in *. set (R := Z.to_nat right) in *.
  assert (HL : (L < length m)%nat) by (eapply lookup_lt_Some; eauto).
  assert (HR : (R < length m)%nat) by (eapply lookup_lt_Some; eauto).
  set (m' := <[R := x]> (<[L := y]> m)).
  assert (Hlen : length m' = length m)
    by (unfold m'; rewrite !length_insert; reflexivity).
  assert (Hl' : m' !! L = Some y).
  { unfold m'. destruct (decide (L = R)) as [E|E].
    - rewrite <- E, list_lookup_insert_eq by (rewrite length_insert; lia).
      congruence.
    - rewrite list_lookup_insert_ne by congruence.
      apply list_lookup_insert_eq. lia. }
  assert (Hr' : m' !! R = Some x).
  { unfold m'. apply list_lookup_insert_eq. rewrite length_insert. lia. }
  exists m'. split; [apply swap_bytes_Some; assumption|].
  split; [exact Hlen|].
  assert (Hload : forall m0 a, in_bounds m0 a 1 = true ->
                    load_u8 m0 a = m0 !! Z.to_nat a)
    by (intros m0 a B; unfold load_u8; rewrite B; reflexivity).
  assert (Bl' : in_bounds m' left 1 = true)
    by (rewrite (in_bounds_length m) by exact Hlen; exact Bl).
  assert (Br' : in_bounds m' right 1 = true)
    by (rewrite (in_bounds_length m) by exact Hlen; exact Br).
  split; [rewrite !Hload by assumption; fold L R; congruence|].
  split; [rewrite !Hload by assumption; fold L R; congruence|].
  split.
  { intros a Hal Har. unfold load_u8.
    rewrite (in_bounds_length m) by exact Hlen.
    destruct (in_bounds m a 1) eqn:Ba; [|reflexivity]. bounds.
    unfold m'. rewrite !list_lookup_insert_ne by (unfold L, R; lia).
    reflexivity. }
  split.
  { rewrite (swap_bytes_Some m' left right y x) by assumption.
    fold L R. f_equal. apply list_eq. intros i. unfold m'.
    rewrite !list_lookup_insert, !length_insert.
    repeat case_decide; destruct_and?; subst; try congruence; try lia;
      try reflexivity.
    all: try (exfalso; tauto). }
  intros E. assert (L = R) as EL by (unfold L, R; congruence).
  unfold m'. rewrite <- EL in *. rewrite list_insert_insert_eq.
  apply list_insert_id. congruence.
Qed.

Lemma swap_bytes_exchanges_witness :
  (in_bounds thirteen_bytes 2 1 = true
   /\ in_bounds thirteen_bytes 11 1 = true)
  /\ exists m',
      swap_bytes thirteen_bytes 2 11 = Some m'
      /\ load_u8 m' 2 = Some x0c
      /\ load_u8 m' 11 = Some x03
      /\ swap_bytes m' 2 11 = Some thirteen_bytes.
Proof.
  split; [split; reflexivity|].
  destruct (proj1 (swap_bytes_exchanges thirteen_bytes 2 11) eq_refl eq_refl)
    as (m' & H1 & _ & H3 & H4 & _ & H6 & _).
  exists m'. repeat split; assumption.
Defined.

(** ** The swaps of the records (lines 62-119) *)

Lemma reverse_range_app_r pre l a k n :
  a = Z.of_nat (length pre) -> 0 <= k ->
  reverse_range (pre ++ l) (a + k) n = pre ++ reverse_range l k n.
Proof.
  intros -> Hk. unfold reverse_range.
  replace (Z.to_nat (Z.of_nat (length pre) + k))
    with (length pre + Z.to_nat k)%nat by lia.
  rewrite take_app_add, <- Nat.add_assoc, !drop_app_add, <- app_assoc.
  reflexivity.
Qed.

Lemma reverse_range_app_0 pre l n :
  reverse_range (pre ++ l) (Z.of_nat (length pre)) n
  = pre ++ reverse_range l 0 n.
Proof.
  rewrite <- (reverse_range_app_r pre l (Z.of_nat (length pre)) 0)
    by (reflexivity || lia).
  f_equal. lia.
Qed.

(** The bytes of a structure record after its swap. *)
Lemma BlobStruct_endian_swap_bytes pre post
    b0 b1 b2 b3 b4 b5 b6 b7 b8 b9 b10 b11 b12 b13 b14 b15 b16 b17 b18 b19 :
  BlobStruct.endian_swap
    (pre ++ [b0; b1; b2; b3; b4; b5; b6; b7; b8; b9; b10; b11; b12; b13; b14;
             b15; b16; b17; b18; b19] ++ post)
    (Z.of_nat (length pre))
  = Some (pre ++ [b3; b2; b1; b0; b7; b6; b5; b4; b11; b10; b9; b8; b15; b14;
                  b13; b12; b19; b18; b17; b16] ++ post).
Proof.
  rewrite BlobStruct_endian_swap_reverse.
  replace (in_bounds _ _ 20) with true
    by (symmetry; bounds; rewrite !length_app; simpl; lia).
  rewrite reverse_range_app_0.
  rewrite !(reverse_range_app_r pre) by (reflexivity || lia).
  reflexivity.
Qed.

Lemma BlobField_endian_swap_bytes pre post
    b0 b1 b2 b3 b4 b5 b6 b7 b8 b9 b10 b11 :
  BlobField.endian_swap
    (pre ++ [b0; b1; b2; b3; b4; b5; b6; b7; b8; b9; b10; b11] ++ post)
    (Z.of_nat (length pre))
  = Some (pre ++ [b3; b2; b1; b0; b7; b6; b5; b4; b11; b10; b9; b8] ++ post).
Proof.
  rewrite BlobField_endian_swap_reverse.
  replace (in_bounds _ _ 12) with true
    by (symmetry; bounds; rewrite !length_app; simpl; lia).
  rewrite reverse_range_app_0.
  rewrite !(reverse_range_app_r pre) by (reflexivity || lia).
  reflexivity.
Qed.

(** The bytes of a header after its swap: the four one-byte fields in
    the middle stay where they are. *)
Lemma BlobHeaderV1_endian_swap_bytes pre post
    b0 b1 b2 b3 b4 b5 b6 b7 b8 b9 b10 b11 b12 b13 b14 b15 b16 b17 b18 b19 :
  BlobHeaderV1.endian_swap
    (pre ++ [b0; b1; b2; b3; b4; b5; b6; b7; b8; b9; b10; b11; b12; b13; b14;
             b15; b16; b17; b18; b19] ++ post)
    (Z.of_nat (length pre))
  = Some (pre ++ [b3; b2; b1; b0; b4; b5; b6; b7; b11; b10; b9; b8; b15; b14;
                  b13; b12; b19; b18; b17; b16] ++ post).
Proof.
  rewrite BlobHeaderV1_endian_swap_reverse.
  replace (in_bounds _ _ 20) with true
    by (symmetry; bounds; rewrite !length_app; simpl; lia).
  rewrite reverse_range_app_0.
  rewrite !(reverse_range_app_r pre) by (reflexivity || lia).
  reflexivity.
Qed.

(** Splits a memory around the [n] bytes at [a], naming each byte. *)
Tactic Notation "split_record" constr(m) constr(a) constr(n) integer(k)
    constr(H) :=
  let pre := fresh "pre" in
  let mid := fresh "mid" in
  let post := fresh "post" in
  let Hmid := fresh "Hmid" in
  destruct (in_bounds_split m a n H) as (pre & mid & post & -> & <- & Hmid);
  do k (destruct mid as [|? mid]; [discriminate Hmid|]);
  destruct mid; [|discriminate Hmid]; clear Hmid.

Lemma BlobStruct_endian_swap_involutive m a m' :
  BlobStruct.endian_swap m a = Some m' ->
  BlobStruct.endian_swap m' a = Some m.
Proof.
  intros H.
  assert (B : in_bounds m a 20 = true).
  { rewrite BlobStruct_endian_swap_reverse in H.
    destruct (in_bounds m a 20); [reflexivity|discriminate]. }
  split_record m a 20%nat 20 B.
  rewrite BlobStruct_endian_swap_bytes in H. injection H as <-.
  apply BlobStruct_endian_swap_bytes.
Qed.

Lemma BlobField_endian_swap_involutive m a m' :
  BlobField.endian_swap m a = Some m' ->
  BlobField.endian_swap m' a = Some m.
Proof.
  intros H.
  assert (B : in_bounds m a 12 = true).
  { rewrite BlobField_endian_swap_reverse in H.
    destruct (in_bounds m a 12); [reflexivity|discriminate]. }
  split_record m a 12%nat 12 B.
  rewrite BlobField_endian_swap_bytes in H. injection H as <-.
  apply BlobField_endian_swap_bytes.
Qed.

Lemma BlobHeaderV1_endian_swap_involutive m a m' :
  BlobHeaderV1.endian_swap m a = Some m' ->
  BlobHeaderV1.endian_swap m' a = Some m.
Proof.
  intros H.
  assert (B : in_bounds m a 20 = true).
  { rewrite BlobHeaderV1_endian_swap_reverse in H.
    destruct (in_bounds m a 20); [reflexivity|discriminate]. }
  split_record m a 20%nat 20 B.
  rewrite BlobHeaderV1_endian_swap_bytes in H. injection H as <-.
  apply BlobHeaderV1_endian_swap_bytes.
Qed.

Lemma header_words_after_swap o m a :
  in_bounds m a 20 = true ->
  let m' := reverse_range (reverse_range (reverse_range
              (reverse_range m a 4) (a + 8) 4) (a + 12) 4) (a + 16) 4 in
  same_outside m m' a 20
  /\ load_u32 o m' a = load_u32 (opposite o) m a
  /\ load_u32 o m' (a + 8) = load_u32 (opposite o) m (a + 8)
  /\ load_u32 o m' (a + 12) = load_u32 (opposite o) m (a + 12)
  /\ load_u32 o m' (a + 16) = load_u32 (opposite o) m (a + 16)
  /\ (forall k, 4 <= k < 8 -> load_u8 m' (a + k) = load_u8 m (a + k)).
Proof.
  intros H m'. subst m'. unfold load_u32.
  assert (B : forall b, a <= b <= a + 16 -> in_bounds m b (Z.of_nat 4) = true)
    by (intros; bounds; lia).
  split; [|split; [|split; [|split; [|split]]]].
  - split; [rewrite !length_reverse_range; reflexivity|].
    intros i Hi.
    rewrite !lookup_reverse_range_outside
      by (rewrite ?in_bounds_reverse_range; (apply B; lia) || lia).
    reflexivity.
  - rewrite !load_uint_reverse_range_other
      by (rewrite ?in_bounds_reverse_range; (apply B; lia) || lia).
    apply load_uint_reverse_range.
  - rewrite !load_uint_reverse_range_other
      by (rewrite ?in_bounds_reverse_range; (apply B; lia) || lia).
    rewrite load_uint_reverse_range.
    apply load_uint_reverse_range_other; [apply B|]; lia.
  - rewrite !load_uint_reverse_range_other
      by (rewrite ?in_bounds_reverse_range; (apply B; lia) || lia).
    rewrite load_uint_reverse_range.
    rewrite !load_uint_reverse_range_other
      by (rewrite ?in_bounds_reverse_range; (apply B; lia) || lia).
    reflexivity.
  - rewrite load_uint_reverse_range.
    rewrite !load_uint_reverse_range_other
      by (rewrite ?in_bounds_reverse_range; (apply B; lia) || lia).
    reflexivity.
  - intros k Hk.
    repeat (erewrite load_u8_same_outside;
            [|apply same_outside_reverse_range;
              rewrite ?in_bounds_reverse_range; apply B; lia|lia]).
    reflexivity.
Qed.

(** X2. [BlobHeaderV1::endian_swap] reverses the bytes of the four
    32-bit fields of a header where it lies: each then reads in one byte
    order as it read in the other before.  The four one-byte fields and
    everything outside of the header are left alone, and a second swap
    restores the header. *)
Theorem BlobHeaderV1_endian_swap_round_trip (m : memory) (a : Z) :
  in_bounds m a BlobHeaderV1.sizeof = true ->
  exists m',
    BlobHeaderV1.endian_swap m a = Some m'
    /\ (forall o field,
          In field [BlobHeaderV1.coreVersion; BlobHeaderV1.structDataSize;
                    BlobHeaderV1.stringTableDataSize;
                    BlobHeaderV1.structureCount] ->
          load_u32 o m' (a + field) = load_u32 (opposite o) m (a + field))
    /\ (forall field,
          In field [BlobHeaderV1.sizeofBool; BlobHeaderV1.sizeofUDATA;
                    BlobHeaderV1.bitfieldFormat; BlobHeaderV1.padding] ->
          load_u8 m' (a + field) = load_u8 m (a + field))
    /\ same_outside m m' a BlobHeaderV1.sizeof
    /\ BlobHeaderV1.endian_swap m' a = Some m.
Proof.
  unfold BlobHeaderV1.sizeof. intros H.
  pose proof (BlobHeaderV1_endian_swap_involutive m a) as Hinv.
  rewrite BlobHeaderV1_endian_swap_reverse, H in Hinv |- *.
  eexists. split; [reflexivity|].
  split; [|split; [|split; [|apply Hinv; reflexivity]]].
  - intros o field Hf.
    destruct (header_words_after_swap o m a H) as (_ & W0 & W8 & W12 & W16 & _).
    simpl in Hf. destruct Hf as [<-|[<-|[<-|[<-|[]]]]];
      unfold BlobHeaderV1.coreVersion, BlobHeaderV1.structDataSize,
        BlobHeaderV1.stringTableDataSize, BlobHeaderV1.structureCount;
      rewrite ?Z.add_0_r; assumption.
  - intros field Hf.
    destruct (header_words_after_swap LittleEndian m a H)
      as (_ & _ & _ & _ & _ & W).
    simpl in Hf. destruct Hf as [<-|[<-|[<-|[<-|[]]]]]; apply W;
      unfold BlobHeaderV1.sizeofBool, BlobHeaderV1.sizeofUDATA,
        BlobHeaderV1.bitfieldFormat, BlobHeaderV1.padding; lia.
  - apply (header_words_after_swap LittleEndian m a H).
Qed.

Lemma BlobHeaderV1_endian_swap_round_trip_witness :
  in_bounds (zoo BigEndian) 0 BlobHeaderV1.sizeof = true
  /\ exists m',
      BlobHeaderV1.endian_swap (zoo BigEndian) 0 = Some m'
      /\ load_u32 LittleEndian m' BlobHeaderV1.structDataSize = Some 96
      /\ load_u8 m' BlobHeaderV1.sizeofUDATA = Some x08
      /\ BlobHeaderV1.endian_swap m' 0 = Some (zoo BigEndian).
Proof.
  split; [reflexivity|].
  destruct (BlobHeaderV1_endian_swap_round_trip (zoo BigEndian) 0 eq_refl)
    as (m' & H1 & H2 & H3 & _ & H5).
  exists m'. split; [exact H1|]. split; [|split; [|exact H5]].
  - transitivity (load_u32 BigEndian (zoo BigEndian) 8); [|reflexivity].
    exact (H2 LittleEndian BlobHeaderV1.structDataSize ltac:(simpl; tauto)).
  - transitivity (load_u8 (zoo BigEndian) 5); [|reflexivity].
    exact (H3 BlobHeaderV1.sizeofUDATA ltac:(simpl; tauto)).
Defined.

(** X3. [BlobStruct::endian_swap] reverses the bytes of the five 32-bit
    fields of a structure record where it lies and nothing else; a
    second swap restores the record. *)
Theorem BlobStruct_endian_swap_round_trip (m : memory) (a : Z) :
  in_bounds m a BlobStruct.sizeof = true ->
  exists m',
    BlobStruct.endian_swap m a = Some m'
    /\ (forall o field,
          In field [BlobStruct.nameOffset; BlobStruct.superName;
                    BlobStruct.sizeOf; BlobStruct.fieldCount;
                    BlobStruct.constCount] ->
          load_u32 o m' (a + field) = load_u32 (opposite o) m (a + field))
    /\ same_outside m m' a BlobStruct.sizeof
    /\ BlobStruct.endian_swap m' a = Some m.
Proof.
  unfold BlobStruct.sizeof. intros H.
  pose proof (BlobStruct_endian_swap_involutive m a) as Hinv.
  rewrite BlobStruct_endian_swap_reverse, H in Hinv |- *.
  eexists. split; [reflexivity|].
  split; [|split; [|apply Hinv; reflexivity]].
  - intros o field Hf.
    destruct (struct_words_after_swap o m a H)
      as (_ & W0 & W4 & W8 & W12 & W16).
    simpl in Hf. destruct Hf as [<-|[<-|[<-|[<-|[<-|[]]]]]];
      unfold BlobStruct.nameOffset, BlobStruct.superName, BlobStruct.sizeOf,
        BlobStruct.fieldCount, BlobStruct.constCount;
      rewrite ?Z.add_0_r; assumption.
  - apply (struct_words_after_swap LittleEndian m a H).
Qed.

Lemma BlobStruct_endian_swap_round_trip_witness :
  in_bounds (zoo BigEndian) 20 BlobStruct.sizeof = true
  /\ exists m',
      BlobStruct.endian_swap (zoo BigEndian) 20 = Some m'
      /\ load_u32 LittleEndian m' (20 + BlobStruct.fieldCount) = Some 2
      /\ BlobStruct.endian_swap m' 20 = Some (zoo BigEndian).
Proof.
  split; [reflexivity|].
  destruct (BlobStruct_endian_swap_round_trip (zoo BigEndian) 20 eq_refl)
    as (m' & H1 & H2 & _ & H4).
  exists m'. split; [exact H1|]. split; [|exact H4].
  rewrite (H2 LittleEndian BlobStruct.fieldCount); [reflexivity|].
  simpl. tauto.
Defined.

(** X4. [BlobField::endian_swap] reverses the bytes of the three 32-bit
    fields of a field record where it lies and nothing else; a second
    swap restores the record. *)
Theorem BlobField_endian_swap_round_trip (m : memory) (a : Z) :
  in_bounds m a BlobField.sizeof = true ->
  exists m',
    BlobField.endian_swap m a = Some m'
    /\ (forall o field,
          In field [BlobField.declaredName; BlobField.declaredType;
                    BlobField.offset] ->
          load_u32 o m' (a + field) = load_u32 (opposite o) m (a + field))
    /\ same_outside m m' a BlobField.sizeof
    /\ BlobField.endian_swap m' a = Some m.
Proof.
  unfold BlobField.sizeof. intros H.
  pose proof (BlobField_endian_swap_involutive m a) as Hinv.
  rewrite BlobField_endian_swap_reverse, H in Hinv |- *.
  eexists. split; [reflexivity|].
  split; [|split; [|apply Hinv; reflexivity]].
  - intros o field Hf.
    destruct (field_words_after_swap o m a H) as (_ & W0 & W4 & W8).
    simpl in Hf. destruct Hf as [<-|[<-|[<-|[]]]];
      unfold BlobField.declaredName, BlobField.declaredType, BlobField.offset;
      rewrite ?Z.add_0_r; assumption.
  - apply (field_words_after_swap LittleEndian m a H).
Qed.

Lemma BlobField_endian_swap_round_trip_witness :
  in_bounds (zoo BigEndian) 52 BlobField.sizeof = true
  /\ exists m',
      BlobField.endian_swap (zoo BigEndian) 52 = Some m'
      /\ load_u32 LittleEndian m' (52 + BlobField.offset) = Some 4
      /\ BlobField.endian_swap m' 52 = Some (zoo BigEndian).
Proof.
  split; [reflexivity|].
  destruct (BlobField_endian_swap_round_trip (zoo BigEndian) 52 eq_refl)
    as (m' & H1 & H2 & _ & H4).
  exists m'. split; [exact H1|]. split; [|exact H4].
  rewrite (H2 LittleEndian BlobField.offset); [reflexivity|].
  simpl. tauto.
Defined.

(** ** The byte order of the blob (lines 210-234) *)

(** A version between 1 and [0xFFFF] reads as a number above [0xFFFF]
    in the other byte order. *)
Lemma foreign_version_is_large o m a cv :
  load_u32 o m a = Some cv -> 1 <= cv <= 65535 ->
  exists raw, load_u32 (opposite o) m a = Some raw /\ 65535 < raw.
Proof.
  intros H Hcv. pose proof (load_uint_in_bounds _ 4 _ _ _ H) as B.
  destruct (in_bounds_split m a 4 B) as (pre & mid & post & -> & <- & Hmid).
  destruct mid as [|b0 [|b1 [|b2 [|b3 [|? ?]]]]]; try discriminate.
  unfold load_u32, load_uint in *.
  change 4%nat with (length [b0; b1; b2; b3]) in *.
  rewrite load_bytes_app in *. simpl in H. injection H as H.
  eexists. split; [reflexivity|].
  pose proof (byte_val_range b0). pose proof (byte_val_range b1).
  pose proof (byte_val_range b2). pose proof (byte_val_range b3).
  destruct o; cbn in *; lia.
Qed.

Lemma hdr_state_eta s :
  mkState (blobHdrV1 s) (blobBuffer s) (output s) = s.
Proof. destruct s. reflexivity. Qed.

(** X5. A header written with a version between 1 and [0xFFFF] is
    read correctly on either host: swaps are found to be needed exactly
    when the byte order of the blob is not the one of the host, and the
    header line then shows the seven fields as the originating system
    wrote them. *)
Theorem header_report_in_blob_order (host o : byte_order) (s : state)
    (cv : Z) :
  length (blobHdrV1 s) = 20%nat ->
  load_u32 o (blobHdrV1 s) BlobHeaderV1.coreVersion = Some cv ->
  1 <= cv <= 65535 ->
  exists h' sb su bf sds stds count,
    fix_byte_order host s
    = Done (bool_decide (o <> host)) (mkState h' (blobBuffer s) (output s))
    /\ byte_val <$> load_u8 (blobHdrV1 s) BlobHeaderV1.sizeofBool = Some sb
    /\ byte_val <$> load_u8 (blobHdrV1 s) BlobHeaderV1.sizeofUDATA = Some su
    /\ byte_val <$> load_u8 (blobHdrV1 s) BlobHeaderV1.bitfieldFormat = Some bf
    /\ load_u32 o (blobHdrV1 s) BlobHeaderV1.structDataSize = Some sds
    /\ load_u32 o (blobHdrV1 s) BlobHeaderV1.stringTableDataSize = Some stds
    /\ load_u32 o (blobHdrV1 s) BlobHeaderV1.structureCount = Some count
    /\ print_header host (mkState h' (blobBuffer s) (output s))
       = Done tt (mkState h' (blobBuffer s)
                    (output s ++ [Out_header cv sb su bf sds stds count])).
Proof.
  intros L Hcv Rcv.
  assert (B : in_bounds (blobHdrV1 s) 0 20 = true) by (bounds; lia).
  assert (B4 : forall a, 0 <= a <= 16 ->
                 in_bounds (blobHdrV1 s) a (Z.of_nat 4) = true)
    by (intros; bounds; lia).
  assert (B1 : forall a, 0 <= a < 20 -> in_bounds (blobHdrV1 s) a 1 = true)
    by (intros; bounds; lia).
  destruct (load_u8_is_Some _ _ (B1 BlobHeaderV1.sizeofBool ltac:(cbv; split; congruence)))
    as [sb Hsb].
  destruct (load_u8_is_Some _ _ (B1 BlobHeaderV1.sizeofUDATA ltac:(cbv; split; congruence)))
    as [su Hsu].
  destruct (load_u8_is_Some _ _
              (B1 BlobHeaderV1.bitfieldFormat ltac:(cbv; split; congruence))) as [bf Hbf].
  destruct (load_uint_is_Some o 4 _ _
              (B4 BlobHeaderV1.structDataSize ltac:(cbv; split; congruence)))
    as [sds Hsds].
  destruct (load_uint_is_Some o 4 _ _
              (B4 BlobHeaderV1.stringTableDataSize ltac:(cbv; split; congruence)))
    as [stds Hstds].
  destruct (load_uint_is_Some o 4 _ _
              (B4 BlobHeaderV1.structureCount ltac:(cbv; split; congruence)))
    as [count Hcount].
  assert (Hprint : forall h',
            load_u32 host h' BlobHeaderV1.coreVersion = Some cv ->
            load_u8 h' BlobHeaderV1.sizeofBool = Some sb ->
            load_u8 h' BlobHeaderV1.sizeofUDATA = Some su ->
            load_u8 h' BlobHeaderV1.bitfieldFormat = Some bf ->
            load_u32 host h' BlobHeaderV1.structDataSize = Some sds ->
            load_u32 host h' BlobHeaderV1.stringTableDataSize = Some stds ->
            load_u32 host h' BlobHeaderV1.structureCount = Some count ->
            print_header host (mkState h' (blobBuffer s) (output s))
            = Done tt (mkState h' (blobBuffer s)
                         (output s
                          ++ [Out_header cv (byte_val sb) (byte_val su)
                                (byte_val bf) sds stds count]))).
  { intros h' H0 H1 H2 H3 H4 H5 H6. unfold print_header, hdr_u32, hdr_u8.
    rewrite of_option_bind. cbn [blobHdrV1]. rewrite H0.
    rewrite of_option_bind. cbn [blobHdrV1]. rewrite H1. cbn [fmap option_fmap option_map].
    rewrite of_option_bind. cbn [blobHdrV1]. rewrite H2. cbn [fmap option_fmap option_map].
    rewrite of_option_bind. cbn [blobHdrV1]. rewrite H3. cbn [fmap option_fmap option_map].
    rewrite of_option_bind. cbn [blobHdrV1]. rewrite H4.
    rewrite of_option_bind. cbn [blobHdrV1]. rewrite H5.
    rewrite of_option_bind. cbn [blobHdrV1]. rewrite H6.
    reflexivity. }
  destruct (decide (o = host)) as [->|Hne].
  - exists (blobHdrV1 s), (byte_val sb), (byte_val su), (byte_val bf),
      sds, stds, count.
    rewrite Hsb, Hsu, Hbf. split.
    { unfold fix_byte_order, hdr_u32. rewrite of_option_bind, Hcv.
      replace (65535 <? cv) with false by (symmetry; apply Z.ltb_ge; lia).
      rewrite bool_decide_eq_false_2 by congruence.
      cbn. rewrite hdr_state_eta. reflexivity. }
    do 6 (split; [reflexivity || assumption|]).
    apply Hprint; assumption.
  - assert (host = opposite o) as -> by (destruct o, host; simpl; congruence).
    destruct (foreign_version_is_large _ _ _ _ Hcv Rcv) as (raw & Hraw & Hbig).
    destruct (header_fields_after_swap (opposite o) (blobHdrV1 s) B)
      as (h' & Hswap & Hl & W0 & W8 & W12 & W16 & W).
    replace (opposite (opposite o)) with o in * by (destruct o; reflexivity).
    exists h', (byte_val sb), (byte_val su), (byte_val bf), sds, stds, count.
    rewrite Hsb, Hsu, Hbf. split.
    { unfold fix_byte_order, hdr_u32. rewrite of_option_bind, Hraw.
      replace (65535 <? raw) with true by (symmetry; apply Z.ltb_lt; lia).
      rewrite bool_decide_eq_true_2 by (destruct o; discriminate).
      unfold when, hdr_update, mbind, M_bind. rewrite Hswap. reflexivity. }
    do 6 (split; [reflexivity || assumption|]).
    apply Hprint; try congruence.
    + rewrite W by (cbv; split; congruence). exact Hsb.
    + rewrite W by (cbv; split; congruence). exact Hsu.
    + rewrite W by (cbv; split; congruence). exact Hbf.
    + rewrite W8. exact Hsds.
    + rewrite W12. exact Hstds.
    + rewrite W16. exact Hcount.
Qed.

Lemma header_report_in_blob_order_witness :
  (length (blobHdrV1 (state_with_header (zoo BigEndian))) = 20%nat
   /\ load_u32 BigEndian (blobHdrV1 (state_with_header (zoo BigEndian)))
        BlobHeaderV1.coreVersion = Some 1
   /\ 1 <= 1 <= 65535)
  /\ exists h',
      fix_byte_order LittleEndian (state_with_header (zoo BigEndian))
      = Done true (mkState h' [] [])
      /\ print_header LittleEndian (mkState h' [] [])
         = Done tt (mkState h' [] [Out_header 1 1 8 1 96 48 3]).
Proof.
  assert (P : 1 <= 1 <= 65535) by lia.
  split; [split; [reflexivity|split; [reflexivity|exact P]]|].
  destruct (header_report_in_blob_order LittleEndian BigEndian
              (state_with_header (zoo BigEndian)) 1 eq_refl eq_refl P)
    as (h' & sb & su & bf & sds & stds & count & H1 & H2 & H3 & H4 & H5 & H6
        & H7 & H8).
  injection H2 as <-. injection H3 as <-. injection H4 as <-.
  injection H5 as <-. injection H6 as <-. injection H7 as <-.
  exists h'. split; [exact H1|exact H8].
Defined.

(** ** The comparison of two structures (lines 164-168) *)

Lemma byte_val_inj b1 b2 : byte_val b1 = byte_val b2 -> b1 = b2.
Proof.
  unfold byte_val. intros H. apply N2Z.inj in H.
  pose proof (Byte.of_to_N b1) as H1. rewrite H, Byte.of_to_N in H1.
  congruence.
Qed.

Lemma is_nul_val b : is_nul b = true <-> byte_val b = 0.
Proof.
  unfold is_nul. split.
  - intros H. apply Byte.byte_dec_bl in H. subst. reflexivity.
  - intros H. apply Byte.byte_dec_lb. apply byte_val_inj. exact H.
Qed.

Lemma is_nul_false_val b : is_nul b = false <-> byte_val b <> 0.
Proof.
  rewrite <- is_nul_val. destruct (is_nul b); split; congruence.
Qed.

Lemma strcmp_same s c : strcmp s s = Some c -> c = 0.
Proof.
  induction s as [|b t IH]; [discriminate|]. cbn [strcmp].
  rewrite Z.eqb_refl. destruct (is_nul b); [congruence|exact IH].
Qed.

Lemma strcmp_swap s1 : forall s2 c,
  strcmp s1 s2 = Some c -> strcmp s2 s1 = Some (- c).
Proof.
  induction s1 as [|b1 t1 IH]; intros [|b2 t2] c; try discriminate.
  cbn [strcmp]. rewrite (Z.eqb_sym (byte_val b2)).
  destruct (Z.eqb_spec (byte_val b1) (byte_val b2)) as [E|E].
  - apply byte_val_inj in E. subst b2.
    destruct (is_nul b1); [intros [= <-]; reflexivity|apply IH].
  - intros [= <-]. f_equal. lia.
Qed.

Lemma strcmp_trans s1 : forall s2 s3 x y,
  strcmp s1 s2 = Some x -> strcmp s2 s3 = Some y -> x <= 0 -> y <= 0 ->
  exists z, strcmp s1 s3 = Some z /\ z <= 0 /\ (x < 0 \/ y < 0 -> z < 0).
Proof.
  induction s1 as [|b1 t1 IH]; intros [|b2 t2] [|b3 t3] x y;
    try discriminate.
  cbn [strcmp].
  destruct (Z.eqb_spec (byte_val b1) (byte_val b2)) as [E12|E12];
    destruct (Z.eqb_spec (byte_val b2) (byte_val b3)) as [E23|E23];
    destruct (Z.eqb_spec (byte_val b1) (byte_val b3)) as [E13|E13];
    try lia.
  - apply byte_val_inj in E12, E23. subst b2 b3.
    destruct (is_nul b1).
    + intros [= <-] [= <-] _ _. exists 0. split; [reflexivity|lia].
    + apply IH.
  - apply byte_val_inj in E12. subst b2.
    destruct (is_nul b1).
    + intros [= <-] [= <-] _ Hy. eexists. split; [reflexivity|lia].
    + intros H1 [= <-] Hx Hy. eexists. split; [reflexivity|lia].
  - apply byte_val_inj in E23. subst b3.
    intros [= <-] H2 Hx Hy. eexists. split; [reflexivity|lia].
  - apply byte_val_inj in E13. subst b3.
    intros [= <-] [= <-] Hx Hy. lia.
  - intros [= <-] [= <-] Hx Hy. eexists. split; [reflexivity|lia].
Qed.

(** X6. Where it is defined, [compareStructs] is a strict weak ordering,
    as [std::sort] requires of its comparison: no structure comes before
    itself, two structures do not come before each other, "before" is
    transitive, and so is "neither before the other". *)
Theorem compareStructs_strict_weak_order (m : memory) :
  (forall a, compareStructs m a a <> Some true)
  /\ (forall a b,
        compareStructs m a b = Some true -> compareStructs m b a = Some false)
  /\ (forall a b c,
        compareStructs m a b = Some true -> compareStructs m b c = Some true ->
        compareStructs m a c = Some true)
  /\ (forall a b c,
        compareStructs m a b = Some false ->
        compareStructs m b a = Some false ->
        compareStructs m b c = Some false ->
        compareStructs m c b = Some false ->
        compareStructs m a c = Some false
        /\ compareStructs m c a = Some false).
Proof.
  unfold compareStructs.
  assert (D : forall a b r,
            (strcmp (bytes_from m (Structure.name a))
               (bytes_from m (Structure.name b))
             ≫= fun c => Some (c <? 0)) = Some r ->
            exists c, strcmp (bytes_from m (Structure.name a))
                        (bytes_from m (Structure.name b)) = Some c
                      /\ r = (c <? 0)).
  { intros a b r H. destruct (strcmp _ _) as [c|]; [|discriminate].
    injection H as <-. eauto. }
  split; [|split; [|split]].
  - intros a H. apply D in H as (c & Hc & Hr).
    apply strcmp_same in Hc. subst c. discriminate.
  - intros a b H. apply D in H as (c & Hc & Hr).
    rewrite (strcmp_swap _ _ _ Hc). simpl. f_equal.
    symmetry in Hr. apply Z.ltb_lt in Hr. apply Z.ltb_ge. lia.
  - intros a b c H1 H2.
    apply D in H1 as (x & Hx & Rx). apply D in H2 as (y & Hy & Ry).
    symmetry in Rx, Ry. apply Z.ltb_lt in Rx, Ry.
    destruct (strcmp_trans _ _ _ _ _ Hx Hy ltac:(lia) ltac:(lia))
      as (z & Hz & _ & Hneg).
    rewrite Hz. simpl. f_equal. apply Z.ltb_lt. apply Hneg. lia.
  - intros a b c H1 H2 H3 H4.
    apply D in H1 as (x & Hx & Rx). apply D in H2 as (x' & Hx' & Rx').
    apply D in H3 as (y & Hy & Ry). apply D in H4 as (y' & Hy' & Ry').
    symmetry in Rx, Rx', Ry, Ry'. apply Z.ltb_ge in Rx, Rx', Ry, Ry'.
    rewrite (strcmp_swap _ _ _ Hx) in Hx'. injection Hx' as <-.
    rewrite (strcmp_swap _ _ _ Hy) in Hy'. injection Hy' as <-.
    destruct (strcmp_trans _ _ _ _ _ Hx Hy ltac:(lia) ltac:(lia))
      as (z & Hz & Hle & _).
    destruct (strcmp_trans _ _ _ _ _ (strcmp_swap _ _ _ Hy)
                (strcmp_swap _ _ _ Hx) ltac:(lia) ltac:(lia))
      as (z' & Hz' & Hle' & _).
    rewrite (strcmp_swap _ _ _ Hz) in Hz'. injection Hz' as <-.
    rewrite Hz, (strcmp_swap _ _ _ Hz). simpl.
    split; f_equal; apply Z.ltb_ge; lia.
Qed.

Lemma compareStructs_strict_weak_order_witness :
  (compareStructs (zoo LittleEndian)
     (Structure.mk 124 5 (Some 118) 4 24 [] [])
     (Structure.mk 132 2 None 0 1 [] []) = Some true
   /\ compareStructs (zoo LittleEndian)
        (Structure.mk 132 2 None 0 1 [] [])
        (Structure.mk 118 4 None 0 16 [] []) = Some true)
  /\ compareStructs (zoo LittleEndian)
       (Structure.mk 124 5 (Some 118) 4 24 [] [])
       (Structure.mk 118 4 None 0 16 [] []) = Some true
  /\ compareStructs (zoo LittleEndian)
       (Structure.mk 132 2 None 0 1 [] [])
       (Structure.mk 124 5 (Some 118) 4 24 [] []) = Some false.
Proof.
  assert (H1 : compareStructs (zoo LittleEndian)
                 (Structure.mk 124 5 (Some 118) 4 24 [] [])
                 (Structure.mk 132 2 None 0 1 [] []) = Some true)
    by reflexivity.
  assert (H2 : compareStructs (zoo LittleEndian)
                 (Structure.mk 132 2 None 0 1 [] [])
                 (Structure.mk 118 4 None 0 16 [] []) = Some true)
    by reflexivity.
  destruct (compareStructs_strict_weak_order (zoo LittleEndian))
    as (_ & Hasym & Htrans & _).
  split; [split; assumption|].
  split; [exact (Htrans _ _ _ H1 H2)|exact (Hasym _ _ H1)].
Defined.

Lemma strcmp_c_string s1 : forall s2 c,
  strcmp s1 s2 = Some c ->
  (c <? 0) = bytes_ltb (c_string s1) (c_string s2)
  /\ (c = 0 <-> c_string s1 = c_string s2).
Proof.
  induction s1 as [|b1 t1 IH]; intros [|b2 t2] c; try discriminate.
  cbn [strcmp c_string].
  pose proof (byte_val_range b1). pose proof (byte_val_range b2).
  destruct (Z.eqb_spec (byte_val b1) (byte_val b2)) as [E|E].
  - apply byte_val_inj in E. subst b2.
    destruct (is_nul b1) eqn:N.
    + intros [= <-]. split; [reflexivity|tauto].
    + intros Hc. destruct (IH _ _ Hc) as [IH1 IH2].
      cbn [bytes_ltb]. rewrite Z.ltb_irrefl. split; [exact IH1|].
      rewrite IH2. split; [congruence|intros [= ?]; assumption].
  - intros [= <-].
    destruct (is_nul b1) eqn:N1; destruct (is_nul b2) eqn:N2;
      [apply is_nul_val in N1|apply is_nul_val in N1
      |apply is_nul_false_val in N1|apply is_nul_false_val in N1];
      [apply is_nul_val in N2|apply is_nul_false_val in N2
      |apply is_nul_val in N2|apply is_nul_false_val in N2];
      cbn [bytes_ltb].
    + lia.
    + split; [apply Z.ltb_lt; lia|]. split; [lia|discriminate].
    + split; [apply Z.ltb_ge; lia|]. split; [lia|discriminate].
    + split.
      * destruct (Z.ltb_spec (byte_val b1) (byte_val b2)) as [Hlt|Hge];
          [apply Z.ltb_lt; lia|].
        replace (byte_val b2 <? byte_val b1) with true
          by (symmetry; apply Z.ltb_lt; lia).
        apply Z.ltb_ge. lia.
      * split; [lia|]. intros [= ? _]. subst b2. lia.
Qed.

Lemma strcmp_defined s1 : forall s2,
  In x00 s1 -> In x00 s2 -> is_Some (strcmp s1 s2).
Proof.
  induction s1 as [|b1 t1 IH]; intros [|b2 t2] H1 H2;
    try (destruct H1; fail); try (destruct H2; fail).
  cbn [strcmp]. destruct (Z.eqb_spec (byte_val b1) (byte_val b2)) as [E|E];
    [|eauto].
  apply byte_val_inj in E. subst b2.
  destruct (is_nul b1) eqn:N; [eauto|].
  apply IH.
  - destruct H1 as [E|H1]; [subst b1; cbv in N; discriminate N|exact H1].
  - destruct H2 as [E|H2]; [subst b1; cbv in N; discriminate N|exact H2].
Qed.

(** X7. [compareStructs] puts [first] before [second] exactly when the C
    string at the name of [first] (its bytes up to the next NUL in the
    buffer) comes before the one of [second] in the order of their
    bytes, taken as unsigned, a proper prefix first.  Neither
    [nameLength] plays a part.  The comparison is defined when a NUL
    follows each of the two names in the buffer. *)
Theorem compareStructs_orders_c_strings (m : memory)
    (first second : Structure.t) :
  (forall r,
     compareStructs m first second = Some r ->
     r = bytes_ltb (c_string (bytes_from m (Structure.name first)))
           (c_string (bytes_from m (Structure.name second))))
  /\ (In x00 (bytes_from m (Structure.name first)) ->
      In x00 (bytes_from m (Structure.name second)) ->
      is_Some (compareStructs m first second))
  /\ (forall n1 n2,
        compareStructs m
          (Structure.mk (Structure.name first) n1 (Structure.superName first)
             (Structure.superNameLength first) (Structure.size first)
             (Structure.fields first) (Structure.constants first))
          (Structure.mk (Structure.name second) n2
             (Structure.superName second) (Structure.superNameLength second)
             (Structure.size second) (Structure.fields second)
             (Structure.constants second))
        = compareStructs m first second).
Proof.
  unfold compareStructs. split; [|split].
  - intros r H. destruct (strcmp _ _) as [c|] eqn:Hc; [|discriminate].
    injection H as <-. apply (strcmp_c_string _ _ _ Hc).
  - intros H1 H2. destruct (strcmp_defined _ _ H1 H2) as [c Hc].
    rewrite Hc. eauto.
  - reflexivity.
Qed.

Lemma compareStructs_orders_c_strings_witness :
  (compareStructs (prefixes LittleEndian)
     (Structure.mk 62 2 None 0 8 [] []) (Structure.mk 136 3 (Some 66) 68 16 [] [])
   = Some false
   /\ In x00 (bytes_from (prefixes LittleEndian) 62)
   /\ In x00 (bytes_from (prefixes LittleEndian) 136))
  /\ c_string (bytes_from (prefixes LittleEndian) 62) = [x41; x42; x44]
  /\ c_string (bytes_from (prefixes LittleEndian) 136) = ascii "ABC"
  /\ false = bytes_ltb [x41; x42; x44] (ascii "ABC")
  /\ is_Some (compareStructs (prefixes LittleEndian)
                (Structure.mk 62 2 None 0 8 [] [])
                (Structure.mk 136 3 (Some 66) 68 16 [] [])).
Proof.
  assert (H : compareStructs (prefixes LittleEndian)
                (Structure.mk 62 2 None 0 8 [] [])
                (Structure.mk 136 3 (Some 66) 68 16 [] []) = Some false)
    by reflexivity.
  assert (N1 : In x00 (bytes_from (prefixes LittleEndian) 62))
    by (vm_compute; tauto).
  assert (N2 : In x00 (bytes_from (prefixes LittleEndian) 136))
    by (vm_compute; tauto).
  destruct (compareStructs_orders_c_strings (prefixes LittleEndian)
              (Structure.mk 62 2 None 0 8 [] [])
              (Structure.mk 136 3 (Some 66) 68 16 [] [])) as (Ha & Hb & _).
  split; [split; [exact H|split; assumption]|].
  split; [reflexivity|]. split; [reflexivity|].
  split; [exact (Ha false H)|exact (Hb N1 N2)].
Defined.

(** ** The sort of the structures (line 363) *)

Section Sort.
Variable m : memory.

Lemma compareStructs_Some a b r :
  compareStructs m a b = Some r ->
  exists c, strcmp (bytes_from m (Structure.name a))
              (bytes_from m (Structure.name b)) = Some c
            /\ r = (c <? 0).
Proof.
  unfold compareStructs. intros H.
  destruct (strcmp _ _) as [c|]; [|discriminate].
  injection H as <-. eauto.
Qed.

Lemma not_before_trans a b c :
  not_before m a b -> not_before m b c -> not_before m a c.
Proof.
  unfold not_before. intros H1 H2.
  apply compareStructs_Some in H1 as (x & Hx & Rx).
  apply compareStructs_Some in H2 as (y & Hy & Ry).
  symmetry in Rx, Ry. apply Z.ltb_ge in Rx, Ry.
  destruct (strcmp_trans _ _ _ _ _ (strcmp_swap _ _ _ Hx)
              (strcmp_swap _ _ _ Hy) ltac:(lia) ltac:(lia))
    as (z & Hz & Hle & _).
  unfold compareStructs. rewrite (strcmp_swap _ _ _ Hz). simpl.
  f_equal. apply Z.ltb_ge. lia.
Qed.

Lemma sort_insert_sorted x : forall l l',
  sort_insert m x l = Some l' -> Sorted (not_before m) l ->
  Permutation (x :: l) l' /\ Sorted (not_before m) l'
  /\ (forall y, HdRel (not_before m) y l -> not_before m y x ->
                HdRel (not_before m) y l').
Proof.
  induction l as [|y t IH]; intros l' H Hs; cbn [sort_insert] in H.
  - injection H as <-. repeat constructor. assumption.
  - destruct (compareStructs m y x) as [[|]|] eqn:C; [| |discriminate].
    + destruct (sort_insert m x t) as [t'|] eqn:E; [|discriminate].
      injection H as <-. inversion Hs as [|? ? Hst Hhd]; subst.
      destruct (IH _ eq_refl Hst) as (P & S' & Hd).
      assert (Ryx : not_before m y x).
      { unfold not_before.
        apply compareStructs_Some in C as (c & Hc & Rc).
        unfold compareStructs. rewrite (strcmp_swap _ _ _ Hc). simpl.
        f_equal. symmetry in Rc. apply Z.ltb_lt in Rc. apply Z.ltb_ge. lia. }
      split; [|split].
      * rewrite Permutation_swap. constructor. exact P.
      * constructor; [exact S'|]. apply Hd; assumption.
      * intros z Hz _. inversion Hz; subst. constructor. assumption.
    + injection H as <-. split; [reflexivity|]. split.
      * constructor; [exact Hs|]. constructor. exact C.
      * intros z _ Hz. constructor. exact Hz.
Qed.

Lemma sort_sorted : forall l sorted,
  sort m l = Some sorted ->
  Permutation l sorted /\ Sorted (not_before m) sorted.
Proof.
  induction l as [|x t IH]; intros sorted H; cbn [sort] in H.
  - injection H as <-. split; constructor.
  - destruct (sort m t) as [t'|] eqn:E; [|discriminate]. simpl in H.
    destruct (IH _ eq_refl) as [P S'].
    destruct (sort_insert_sorted x _ _ H S') as (P' & S'' & _).
    split; [|exact S'']. rewrite <- P'. constructor. exact P.
Qed.

Lemma compareStructs_defined a b :
  name_terminated m a -> name_terminated m b ->
  is_Some (compareStructs m a b).
Proof.
  intros Ha Hb. unfold compareStructs.
  destruct (strcmp_defined _ _ Ha Hb) as [c Hc]. rewrite Hc. eauto.
Qed.

Lemma sort_insert_defined x : forall l,
  name_terminated m x -> Forall (name_terminated m) l ->
  is_Some (sort_insert m x l).
Proof.
  induction l as [|y t IH]; intros Hx Hl; cbn [sort_insert]; [eauto|].
  inversion Hl as [|? ? Hy Ht]; subst.
  destruct (compareStructs_defined y x Hy Hx) as [[|] ->]; [|eauto].
  destruct (IH Hx Ht) as [t' ->]. simpl. eauto.
Qed.

Lemma sort_defined : forall l,
  Forall (name_terminated m) l -> is_Some (sort m l).
Proof.
  induction l as [|x t IH]; intros Hl; cbn [sort]; [eauto|].
  inversion Hl as [|? ? Hx Ht]; subst.
  destruct (IH Ht) as [t' E]. rewrite E. simpl.
  apply sort_insert_defined; [exact Hx|].
  destruct (sort_sorted _ _ E) as [P _].
  rewrite <- P. exact Ht.
Qed.

End Sort.

(** X8. The sort returns the structures it was given, each once, in an
    order in which no structure comes before an earlier one under
    [compareStructs]; it compares without leaving the buffer when a NUL
    follows each name. *)
Theorem sort_orders_every_structure (m : memory) (l : list Structure.t) :
  (forall sorted,
     sort m l = Some sorted ->
     Permutation l sorted
     /\ StronglySorted (not_before m) sorted)
  /\ (Forall (name_terminated m) l -> is_Some (sort m l)).
Proof.
  split; [|apply sort_defined].
  intros sorted H. destruct (sort_sorted m _ _ H) as [P S]. split; [exact P|].
  apply Sorted_StronglySorted; [|exact S].
  intros a b c. apply not_before_trans.
Qed.

Lemma sort_orders_every_structure_witness :
  (sort (zoo LittleEndian) zoo_decoded
   = Some [Structure.mk 124 5 (Some 118) 4 24 [] [];
           Structure.mk 132 2 None 0 1 [] [];
           Structure.mk 118 4 None 0 16
             [Field.mk 136 5 144 3 0; Field.mk 150 6 144 3 4]
             [Constant.mk 158 5 81985529216486895]]
   /\ Forall (name_terminated (zoo LittleEndian)) zoo_decoded)
  /\ Permutation zoo_decoded
       [Structure.mk 124 5 (Some 118) 4 24 [] [];
        Structure.mk 132 2 None 0 1 [] [];
        Structure.mk 118 4 None 0 16
          [Field.mk 136 5 144 3 0; Field.mk 150 6 144 3 4]
          [Constant.mk 158 5 81985529216486895]]
  /\ is_Some (sort (zoo LittleEndian) zoo_decoded).
Proof.
  assert (H : sort (zoo LittleEndian) zoo_decoded
              = Some [Structure.mk 124 5 (Some 118) 4 24 [] [];
                      Structure.mk 132 2 None 0 1 [] [];
                      Structure.mk 118 4 None 0 16
                        [Field.mk 136 5 144 3 0; Field.mk 150 6 144 3 4]
                        [Constant.mk 158 5 81985529216486895]])
    by reflexivity.
  assert (N : Forall (name_terminated (zoo LittleEndian)) zoo_decoded)
    by (repeat constructor; vm_compute; tauto).
  destruct (sort_orders_every_structure (zoo LittleEndian) zoo_decoded)
    as [Ha Hb].
  split; [split; assumption|].
  split; [exact (proj1 (Ha _ H))|exact (Hb N)].
Defined.

(** ** Counts of [0xFFFFFFFF] (lines 296-298, 320-321, 341-342) *)

Lemma read_fields_below_max host swapsNeeded stringDataStart blobStruct cur s
    r s' :
  read_fields host swapsNeeded stringDataStart blobStruct cur s = Done r s' ->
  blobStruct + 16 <= cur ->
  load_u32 host (blobBuffer s) (blobStruct + BlobStruct.fieldCount)
  <> Some 4294967295.
Proof.
  unfold read_fields. intros H Hcur Hn. step_in H. step_in Hs.
  revert H. apply (read_fields_loop_max _ _ _ _ 4294967295);
    [reflexivity|exact Hn|exact Hcur|].
  change (2 ^ 32) with 4294967296. lia.
Qed.

Lemma read_constants_below_max host swapsNeeded stringDataStart blobStruct
    cur s r s' :
  read_constants host swapsNeeded stringDataStart blobStruct cur s
  = Done r s' ->
  blobStruct + 20 <= cur ->
  load_u32 host (blobBuffer s) (blobStruct + BlobStruct.constCount)
  <> Some 4294967295.
Proof.
  unfold read_constants. intros H Hcur Hn. step_in H. step_in Hs.
  revert H. apply (read_constants_loop_max _ _ _ _ 4294967295);
    [reflexivity|exact Hn|exact Hcur|].
  change (2 ^ 32) with 4294967296. lia.
Qed.

(** A structure that is decoded has fewer than [0xFFFFFFFF] fields and
    constants. *)
Lemma read_struct_below_max host swapsNeeded stringDataStart cur s st next s' :
  read_struct host swapsNeeded stringDataStart cur s = Done (st, next) s' ->
  load_u32 (file_order host swapsNeeded) (blobBuffer s)
    (cur + BlobStruct.fieldCount) <> Some 4294967295
  /\ load_u32 (file_order host swapsNeeded) (blobBuffer s)
       (cur + BlobStruct.constCount) <> Some 4294967295.
Proof.
  intros H0. pose proof H0 as H. revert H.
  unfold read_struct, BlobStruct.sizeof, BlobString.length.
  intros H. do 5 step_in H.
  destruct v3 as [super superNameLength]. do 2 step_in H.
  destruct v4 as [fields afterFields]. step_in H.
  destruct v4 as [constants afterConstants].
  injection H as <- <- <-.
  step_in Hs0. step_in Hs1. step_in Hs2. step_in Hs4.
  destruct (struct_swap_Done host _ _ _ _ _ Hs)
    as (_ & _ & _ & _ & Hso1 & W).
  assert (s4 = s0) as ->.
  { destruct (NO_SUPER_NAME =? v2).
    - injection Hs3 as <- <- <-. reflexivity.
    - step_in Hs3. step_in Hs7. injection Hs3 as <- <- <-. reflexivity. }
  pose proof (read_fields_below_max _ _ _ _ _ _ _ _ Hs5 ltac:(lia)) as Hf.
  pose proof (read_constants_below_max _ _ _ _ _ _ _ _ Hs6) as Hc.
  apply read_fields_Done in Hs5
    as (fc & Hfc & _ & -> & _ & _ & _ & Hso5 & _); [|lia].
  pose proof (load_u32_bound _ _ _ _ Hfc).
  unfold BlobStruct.fieldCount, BlobStruct.constCount in *.
  rewrite <- (W 12), <- (W 16) by tauto. split; [exact Hf|].
  intros E. apply Hc; [lia|].
  unfold load_u32 in *.
  rewrite (load_uint_same_outside _ _ _ _ _ _ _ Hso5) by lia. exact E.
Qed.

(** X9. A structure record whose [fieldCount] or [constCount] is
    [0xFFFFFFFF] is never decoded: the 32-bit loop counter cannot exceed
    the count, the loop has no exit, and the walker reads on until it
    leaves the buffer. *)
Theorem count_of_all_ones_leaves_the_buffer host swapsNeeded stringDataStart
    cur s :
  0 <= cur ->
  load_u32 (file_order host swapsNeeded) (blobBuffer s)
    (cur + BlobStruct.fieldCount) = Some 4294967295
  \/ load_u32 (file_order host swapsNeeded) (blobBuffer s)
       (cur + BlobStruct.constCount) = Some 4294967295 ->
  read_struct host swapsNeeded stringDataStart cur s = Fault.
Proof.
  intros Hcur Hmax.
  destruct (read_struct host swapsNeeded stringDataStart cur s)
    as [[st next] s'| |] eqn:E; [|reflexivity|].
  - destruct (read_struct_below_max _ _ _ _ _ _ _ _ E) as [Hf Hc].
    destruct Hmax; contradiction.
  - exfalso. exact (read_struct_no_timeout _ _ _ _ _ Hcur E).
Qed.

Lemma count_of_all_ones_leaves_the_buffer_witness :
  (0 <= 20
   /\ (load_u32 LittleEndian (endless_fields LittleEndian)
         (20 + BlobStruct.fieldCount) = Some 4294967295
       \/ load_u32 LittleEndian (endless_fields LittleEndian)
            (20 + BlobStruct.constCount) = Some 4294967295))
  /\ read_struct LittleEndian false 40 20
       (buffer_state (endless_fields LittleEndian)) = Fault.
Proof.
  assert (P : 0 <= 20) by lia.
  assert (Q : load_u32 LittleEndian (endless_fields LittleEndian)
                (20 + BlobStruct.fieldCount) = Some 4294967295
              \/ load_u32 LittleEndian (endless_fields LittleEndian)
                   (20 + BlobStruct.constCount) = Some 4294967295)
    by (left; reflexivity).
  split; [split; assumption|].
  exact (count_of_all_ones_leaves_the_buffer LittleEndian false 40 20
           (buffer_state (endless_fields LittleEndian)) P Q).
Defined.

Lemma read_structs_loop_max host swapsNeeded stringDataStart fuel :
  forall cur i acc s r s',
  0 <= i < 2 ^ 32 ->
  read_structs_loop fuel host swapsNeeded stringDataStart 4294967295
    cur i acc s <> Done r s'.
Proof.
  induction fuel as [|fuel IH]; intros cur i acc s r s' Hi H; [discriminate|].
  cbn [read_structs_loop] in H.
  replace (i <=? 4294967295) with true in H
    by (symmetry; apply Z.leb_le; change (2 ^ 32) with 4294967296 in Hi; lia).
  step_in H. destruct v as [st next].
  revert H. apply IH. apply wrap32_range.
Qed.

(** X10. A header whose [structureCount] is [0xFFFFFFFF] is never
    decoded: the loop over the structures has no exit, and the decoder
    ends outside of the buffer, without an error message and before any
    structure is reported. *)
Theorem structure_count_of_all_ones_leaves_the_buffer host swapsNeeded s :
  load_u32 host (blobHdrV1 s) BlobHeaderV1.structureCount = Some 4294967295 ->
  decode host swapsNeeded s = Fault
  /\ decode_and_report host swapsNeeded s = Fault.
Proof.
  intros Hcount.
  assert (D : decode host swapsNeeded s = Fault).
  { destruct (decode host swapsNeeded s) as [[structs cur'] s'| |] eqn:E;
      [|reflexivity|exfalso; exact (decode_no_timeout _ _ _ E)].
    exfalso. revert E. unfold decode. intros H. do 5 step_in H.
    step_in Hs. step_in Hs0. step_in Hs1.
    rewrite Hcount in Hs1. injection Hs1 as <-.
    unfold read_structs in H. step_in H.
    revert H. apply read_structs_loop_max.
    change (2 ^ 32) with 4294967296. lia. }
  split; [exact D|].
  unfold decode_and_report. apply bind_Fault. exact D.
Qed.

Lemma structure_count_of_all_ones_leaves_the_buffer_witness :
  load_u32 LittleEndian
    (blobHdrV1 (loaded LittleEndian (endless_structs LittleEndian)))
    BlobHeaderV1.structureCount = Some 4294967295
  /\ decode LittleEndian false
       (loaded LittleEndian (endless_structs LittleEndian)) = Fault
  /\ main LittleEndian (endless_structs LittleEndian) = Fault.
Proof.
  assert (P : load_u32 LittleEndian
                (blobHdrV1 (loaded LittleEndian (endless_structs LittleEndian)))
                BlobHeaderV1.structureCount = Some 4294967295)
    by (vm_compute; reflexivity).
  split; [exact P|].
  split; [|vm_compute; reflexivity].
  exact (proj1 (structure_count_of_all_ones_leaves_the_buffer LittleEndian
                  false _ P)).
Defined.

(** ** The lines of the string table (lines 253-281) *)

Lemma wrap32_succ num i :
  wrap32 (wrap32 (num + 1) + Z.of_nat i) = wrap32 (num + Z.of_nat (S i)).
Proof.
  unfold wrap32. rewrite Zplus_mod_idemp_l. f_equal. lia.
Qed.

Section StringLines.
Variables (host : byte_order) (swapsNeeded : bool).
Variables (stringDataStart stringDataEnd : Z).

Lemma read_strings_loop_lines fuel : forall cur num s u s',
  read_strings_loop fuel host swapsNeeded stringDataStart stringDataEnd
    cur num s = Done u s' ->
  0 <= num < 2 ^ 32 ->
  exists es lines,
    string_entries (file_order host swapsNeeded) (blobBuffer s) stringDataEnd
      cur es
    /\ output s' = output s ++ lines
    /\ length lines = length es
    /\ forall (i : nat) e, es !! i = Some e ->
       exists len data,
         lines !! i
         = Some (Out_string (wrap32 (num + Z.of_nat i)) (e - stringDataStart)
                   len data)
         /\ load_u16 (file_order host swapsNeeded) (blobBuffer s) e = Some len
         /\ printf_s (bytes_from (blobBuffer s) (e + BlobString.data)) len
            = Some data.
Proof.
  induction fuel as [|fuel IH]; intros cur num s u s' H Hnum; [discriminate|].
  cbn [read_strings_loop] in H.
  destruct (Z.ltb_spec cur stringDataEnd) as [Hlt|Hge].
  - step_in H.
    destruct (read_string_Done _ _ _ _ _ _ _ _ Hs)
      as (len & data & B & Hbuf & Hh & Hlen & _ & Hdata & Hout & ->).
    apply IH in H as (es & lines & He & Hout' & Hlen' & Hall);
      [|apply wrap32_range].
    assert (Hso : same_outside (blobBuffer s) (blobBuffer s0) cur 2).
    { rewrite Hbuf. apply same_outside_if. intros _.
      apply (same_outside_reverse_range _ _ 2). exact B. }
    pose proof (load_uint_nonneg _ _ _ _ _ Hlen) as Hpos.
    pose proof (Z.mod_pos_bound len 2 ltac:(lia)).
    destruct (string_entries_bounds _ _ _ _ _ He) as [Hb _].
    exists (cur :: es), (Out_string num (cur - stringDataStart) len data :: lines).
    split; [|split; [|split]].
    + econstructor; [exact Hlt|exact Hlen|].
      eapply string_entries_frame; [exact Hso| |exact He]. lia.
    + rewrite Hout', Hout, <- app_assoc. reflexivity.
    + simpl. congruence.
    + intros [|i] e Hi.
      * injection Hi as <-. exists len, data.
        rewrite Z.add_0_r, wrap32_small by exact Hnum.
        split; [reflexivity|]. split; [exact Hlen|].
        rewrite <- Hdata. f_equal. symmetry. unfold BlobString.data.
        apply (bytes_from_same_outside _ _ _ _ _ Hso). lia.
      * simpl in Hi. destruct (Hall i e Hi) as (len' & data' & L1 & L2 & L3).
        rewrite Forall_forall in Hb.
        assert (Hin : cur + (len + 2 + len mod 2) <= e).
        { apply Hb. eapply list_elem_of_lookup_2. exact Hi. }
        exists len', data'. split; [|split].
        -- simpl. rewrite L1, wrap32_succ. reflexivity.
        -- rewrite <- L2. symmetry. unfold load_u16.
           apply (load_uint_same_outside _ _ _ _ _ _ _ Hso). lia.
        -- rewrite <- L3. f_equal. symmetry. unfold BlobString.data.
           apply (bytes_from_same_outside _ _ _ _ _ Hso). lia.
  - injection H as <- <-. exists [], [].
    split; [constructor; exact Hge|]. split; [rewrite app_nil_r; reflexivity|].
    split; [reflexivity|]. intros i e Hi. discriminate.
Qed.

End StringLines.

Lemma read_strings_lines host swapsNeeded stringDataStart stringDataEnd s u
    s' :
  read_strings host swapsNeeded stringDataStart stringDataEnd s = Done u s' ->
  exists es lines,
    string_entries (file_order host swapsNeeded) (blobBuffer s) stringDataEnd
      stringDataStart es
    /\ output s' = output s ++ lines
    /\ length lines = length es
    /\ forall (i : nat) e, es !! i = Some e ->
       exists len data,
         lines !! i
         = Some (Out_string (wrap32 (1 + Z.of_nat i)) (e - stringDataStart)
                   len data)
         /\ load_u16 (file_order host swapsNeeded) (blobBuffer s) e = Some len
         /\ printf_s (bytes_from (blobBuffer s) (e + BlobString.data)) len
            = Some data.
Proof.
  unfold read_strings. intros H. step_in H. step_in Hs.
  eapply read_strings_loop_lines; [exact H|].
  change (2 ^ 32) with 4294967296. lia.
Qed.

(** X11. The pass over the string table prints one line for each entry
    of the table, in the order of the table: the lines are numbered from
    1 (in 32 bits), and each shows the offset of its entry from the
    start of the table, the length stored in the entry and at most that
    many bytes of its content.  An empty table prints nothing and
    leaves the buffer as it is. *)
Theorem string_table_lines host swapsNeeded stringDataStart stringDataEnd s :
  (forall u s',
     read_strings host swapsNeeded stringDataStart stringDataEnd s
     = Done u s' ->
     exists es lines,
       string_entries (file_order host swapsNeeded) (blobBuffer s)
         stringDataEnd stringDataStart es
       /\ output s' = output s ++ lines
       /\ length lines = length es
       /\ forall (i : nat) e, es !! i = Some e ->
          exists len data,
            lines !! i
            = Some (Out_string (wrap32 (1 + Z.of_nat i))
                      (e - stringDataStart) len data)
            /\ load_u16 (file_order host swapsNeeded) (blobBuffer s) e
               = Some len
            /\ printf_s (bytes_from (blobBuffer s) (e + BlobString.data)) len
               = Some data)
  /\ (stringDataEnd <= stringDataStart ->
      read_strings host swapsNeeded stringDataStart stringDataEnd s
      = Done tt s).
Proof.
  split; [apply read_strings_lines|].
  intros Hle. unfold read_strings. erewrite bind_eq by reflexivity.
  cbn [read_strings_loop].
  replace (stringDataStart <? stringDataEnd) with false
    by (symmetry; apply Z.ltb_ge; exact Hle).
  reflexivity.
Qed.

Lemma string_table_lines_witness :
  (read_strings LittleEndian true 116 164 (buffer_state (zoo BigEndian))
   = Done tt (final_state (read_strings LittleEndian true 116 164)
                (buffer_state (zoo BigEndian)))
   /\ 116 <= 116)
  /\ (exists lines,
        output (final_state (read_strings LittleEndian true 116 164)
                  (buffer_state (zoo BigEndian))) = lines
        /\ length lines = 7%nat
        /\ lines !! 1%nat = Some (Out_string 2 6 5 (ascii "Alpha")))
  /\ read_strings LittleEndian true 116 116 (buffer_state (zoo BigEndian))
     = Done tt (buffer_state (zoo BigEndian)).
Proof.
  assert (H : read_strings LittleEndian true 116 164
                (buffer_state (zoo BigEndian))
              = Done tt (final_state (read_strings LittleEndian true 116 164)
                           (buffer_state (zoo BigEndian))))
    by (vm_compute; reflexivity).
  assert (P : 116 <= 116) by lia.
  split; [split; assumption|].
  destruct (string_table_lines LittleEndian true 116 164
              (buffer_state (zoo BigEndian))) as [Ha _].
  destruct (string_table_lines LittleEndian true 116 116
              (buffer_state (zoo BigEndian))) as [_ Hb].
  split; [|exact (Hb P)].
  destruct (Ha _ _ H) as (es & lines & He & Hout & Hlen & Hall).
  assert (E : es = [116; 122; 130; 134; 142; 148; 156])
    by (eapply string_entries_det; [exact He|apply zoo_string_entries]).
  subst es. exists lines. split; [rewrite Hout; reflexivity|].
  split; [exact Hlen|].
  destruct (Hall 1%nat 122 eq_refl) as (len & data & L1 & L2 & L3).
  injection L2 as <-. injection L3 as <-. exact L1.
Defined.

(** ** The report (lines 363-410) *)

Lemma for_each_lines {A} (f : A -> M unit) (R : memory -> A -> event -> Prop)
    (l : list A) :
  (forall x s u s', f x s = Done u s' ->
     exists e, output s' = output s ++ [e] /\ R (blobBuffer s) x e
               /\ blobBuffer s' = blobBuffer s) ->
  forall s u s', for_each f l s = Done u s' ->
    exists lines,
      output s' = output s ++ lines
      /\ Forall2 (R (blobBuffer s)) l lines
      /\ blobBuffer s' = blobBuffer s.
Proof.
  intros Hf. induction l as [|x l IH]; intros s u s' H.
  - injection H as <- <-. exists []. rewrite app_nil_r.
    split; [reflexivity|]. split; [constructor|reflexivity].
  - cbn [for_each] in H. step_in H.
    destruct (Hf _ _ _ _ Hs) as (e & Ho & He & Hb).
    destruct (IH _ _ _ H) as (lines & Ho' & Hl & Hb').
    exists (e :: lines). split; [|split].
    + rewrite Ho', Ho, <- app_assoc. reflexivity.
    + constructor; [exact He|]. rewrite <- Hb. exact Hl.
    + congruence.
Qed.

Lemma for_each_blocks {A} (f : A -> M unit)
    (R : memory -> A -> list event -> Prop) (l : list A) :
  (forall x s u s', f x s = Done u s' ->
     exists blk, output s' = output s ++ blk /\ R (blobBuffer s) x blk
                 /\ blobBuffer s' = blobBuffer s) ->
  forall s u s', for_each f l s = Done u s' ->
    exists blocks,
      output s' = output s ++ concat blocks
      /\ Forall2 (R (blobBuffer s)) l blocks
      /\ blobBuffer s' = blobBuffer s.
Proof.
  intros Hf. induction l as [|x l IH]; intros s u s' H.
  - injection H as <- <-. exists []. simpl. rewrite app_nil_r.
    split; [reflexivity|]. split; [constructor|reflexivity].
  - cbn [for_each] in H. step_in H.
    destruct (Hf _ _ _ _ Hs) as (blk & Ho & He & Hb).
    destruct (IH _ _ _ H) as (blocks & Ho' & Hl & Hb').
    exists (blk :: blocks). split; [|split].
    + rewrite Ho', Ho, <- app_assoc. reflexivity.
    + constructor; [exact He|]. rewrite <- Hb. exact Hl.
    + congruence.
Qed.

Lemma print_field_line field s u s' :
  print_field field s = Done u s' ->
  exists e, output s' = output s ++ [e] /\ field_line (blobBuffer s) field e
            /\ blobBuffer s' = blobBuffer s.
Proof.
  unfold print_field. intros H. do 2 step_in H.
  step_in Hs. step_in Hs0. step_in H.
  eexists. split; [reflexivity|]. split; [|reflexivity].
  exists v, v0. auto.
Qed.

Lemma print_constant_line constant s u s' :
  print_constant constant s = Done u s' ->
  exists e, output s' = output s ++ [e]
            /\ constant_line (blobBuffer s) constant e
            /\ blobBuffer s' = blobBuffer s.
Proof.
  unfold print_constant. intros H. step_in H. step_in Hs. step_in H.
  eexists. split; [reflexivity|]. split; [|reflexivity].
  exists v. auto.
Qed.

Lemma print_struct_block builtStruct s u s' :
  print_struct builtStruct s = Done u s' ->
  exists blk, output s' = output s ++ blk
              /\ struct_block (blobBuffer s) builtStruct blk
              /\ blobBuffer s' = blobBuffer s.
Proof.
  unfold print_struct. intros H. do 5 step_in H.
  step_in Hs. step_in Hs0. step_in Hs2.
  destruct (for_each_lines _ _ _ print_field_line _ _ _ Hs3)
    as (flines & Hof & Hf & Hbf).
  destruct (for_each_lines _ _ _ print_constant_line _ _ _ H)
    as (clines & Hoc & Hc & Hbc).
  assert (Hsuper : exists super,
            output s2 = output s ++ [Out_struct_name v; super]
            /\ super_line (blobBuffer s) builtStruct super
            /\ blobBuffer s2 = blobBuffer s).
  { unfold super_line. destruct (Structure.superName builtStruct).
    - step_in Hs1. step_in Hs0. step_in Hs1.
      eexists. simpl. rewrite <- app_assoc.
      split; [reflexivity|]. split; [eauto|reflexivity].
    - step_in Hs1. eexists. simpl. rewrite <- app_assoc.
      split; [reflexivity|]. split; reflexivity. }
  destruct Hsuper as (super & Hos & Hsl & Hbs).
  simpl in Hof, Hf, Hbf.
  exists ([Out_struct_name v; super;
           Out_struct_sizes (Structure.size builtStruct)
             (Z.of_nat (length flines)) (Z.of_nat (length clines))]
          ++ flines ++ clines).
  split; [|split].
  - rewrite Hoc, Hof, Hos.
    rewrite <- (Forall2_length _ _ _ Hf), <- (Forall2_length _ _ _ Hc).
    rewrite <- !app_assoc. reflexivity.
  - exists v, super, flines, clines. split; [reflexivity|].
    split; [exact Hs|]. split; [exact Hsl|].
    rewrite Hbs in Hf. rewrite Hbf, Hbs in Hc. split; assumption.
  - congruence.
Qed.

Lemma report_Done structs s u s' :
  report structs s = Done u s' ->
  exists sorted blocks,
    sort (blobBuffer s) structs = Some sorted
    /\ Forall2 (struct_block (blobBuffer s)) sorted blocks
    /\ output s' = output s ++ Out_structs_title :: concat blocks
    /\ blobBuffer s' = blobBuffer s.
Proof.
  unfold report. intros H. do 2 step_in H. step_in Hs. step_in Hs0.
  destruct (for_each_blocks _ _ _ print_struct_block _ _ _ H)
    as (blocks & Ho & Hb & Hbuf).
  simpl in Ho, Hb, Hbuf.
  exists v, blocks. split; [exact Hs|].
  split; [exact Hb|]. split; [|exact Hbuf].
  rewrite Ho, <- app_assoc. reflexivity.
Qed.

(** X12. The report prints its title and then one block for each of
    the structures it was given, each once, in the order of the sort:
    no structure is reported before one that [compareStructs] puts
    before it.  The block of a structure is its name line (at most
    [nameLength] bytes of the name), the line of its super name or of
    its absence, a line with its size and the numbers of the field and
    constant lines that follow, then one line for each field and one
    for each constant, in the order in which they were decoded.  The
    buffer is not modified. *)
Theorem report_blocks (structs : list Structure.t) (s : state) u s' :
  report structs s = Done u s' ->
  exists sorted blocks,
    Permutation structs sorted
    /\ StronglySorted (not_before (blobBuffer s)) sorted
    /\ Forall2 (struct_block (blobBuffer s)) sorted blocks
    /\ output s' = output s ++ Out_structs_title :: concat blocks
    /\ blobBuffer s' = blobBuffer s.
Proof.
  intros H.
  destruct (report_Done _ _ _ _ H) as (sorted & blocks & Hs & Hb & Ho & Hbuf).
  destruct (sort_sorted _ _ _ Hs) as [Hperm Hsorted].
  exists sorted, blocks. split; [exact Hperm|].
  split; [|auto].
  apply Sorted_StronglySorted; [|exact Hsorted].
  intros a b c. apply not_before_trans.
Qed.

Lemma report_blocks_witness :
  report zoo_decoded (buffer_state (zoo LittleEndian))
  = Done tt (final_state (report zoo_decoded)
               (buffer_state (zoo LittleEndian)))
  /\ exists sorted blocks,
      Permutation zoo_decoded sorted
      /\ length blocks = 3%nat
      /\ output (final_state (report zoo_decoded)
                   (buffer_state (zoo LittleEndian)))
         = Out_structs_title :: concat blocks.
Proof.
  assert (H : report zoo_decoded (buffer_state (zoo LittleEndian))
              = Done tt (final_state (report zoo_decoded)
                           (buffer_state (zoo LittleEndian))))
    by (vm_compute; reflexivity).
  split; [exact H|].
  destruct (report_blocks _ _ _ _ H)
    as (sorted & blocks & H1 & _ & H3 & H4 & _).
  exists sorted, blocks. split; [exact H1|]. split; [|exact H4].
  rewrite <- (Forall2_length _ _ _ H3), <- (Permutation_length H1).
  reflexivity.
Defined.

(** ** The number of structures (lines 294-362) *)

Section StructsCount.
Variables (host : byte_order) (swapsNeeded : bool).
Variables (stringDataStart structureCount : Z).

Lemma read_structs_loop_count fuel : forall cur i acc s structs cur' s',
  read_structs_loop fuel host swapsNeeded stringDataStart structureCount
    cur i acc s = Done (structs, cur') s' ->
  1 <= i <= structureCount + 1 -> structureCount + 1 < 2 ^ 32 ->
  exists new,
    structs = acc ++ new
    /\ Z.of_nat (length new) = structureCount + 1 - i
    /\ cur' = cur + blocks_size new.
Proof.
  induction fuel as [|fuel IH]; intros cur i acc s structs cur' s' H Hi Hmax;
    [discriminate|].
  cbn [read_structs_loop] in H.
  destruct (Z.leb_spec i structureCount) as [Hle|Hgt].
  - step_in H. destruct v as [st next].
    destruct (read_struct_Done _ _ _ _ _ _ _ _ Hs)
      as (_ & _ & fc & cc & _ & _ & _ & _ & _ & _ & _ & _ & _ & Lf & Lc & ->
          & _).
    rewrite wrap32_small in H by lia.
    apply IH in H as (new & -> & Hlen & ->); [|lia|lia].
    exists (st :: new). rewrite <- app_assoc.
    split; [reflexivity|]. split; [simpl; lia|].
    cbn [blocks_size foldr]. fold (blocks_size new).
    unfold block_size, BlobStruct.sizeof, BlobField.sizeof,
      BlobConstant.sizeof. lia.
  - injection H as <- <- <-. exists []. rewrite app_nil_r.
    split; [reflexivity|]. split; [simpl; lia|].
    unfold blocks_size. simpl. lia.
Qed.

End StructsCount.

(** The two passes of [decode], one after the other. *)
Lemma decode_steps host swapsNeeded s structs cur' s' :
  decode host swapsNeeded s = Done (structs, cur') s' ->
  exists sds stds count s1,
    load_u32 host (blobHdrV1 s) BlobHeaderV1.structDataSize = Some sds
    /\ load_u32 host (blobHdrV1 s) BlobHeaderV1.stringTableDataSize = Some stds
    /\ load_u32 host (blobHdrV1 s) BlobHeaderV1.structureCount = Some count
    /\ read_strings host swapsNeeded (BlobHeaderV1.sizeof + sds)
         (BlobHeaderV1.sizeof + sds + stds)
         (mkState (blobHdrV1 s) (blobBuffer s)
            (output s ++ [Out_strings_title]))
       = Done tt s1
    /\ read_structs host swapsNeeded (BlobHeaderV1.sizeof + sds) count
         BlobHeaderV1.sizeof s1
       = Done (structs, cur') s'.
Proof.
  unfold decode. intros H. do 5 step_in H.
  step_in Hs. step_in Hs0. step_in Hs1. step_in Hs2.
  destruct v3. exists v, v0, v1, s4. auto.
Qed.

Lemma read_structs_count host swapsNeeded stringDataStart count cur s structs
    cur' s' :
  read_structs host swapsNeeded stringDataStart count cur s
  = Done (structs, cur') s' ->
  0 <= count < 2 ^ 32 ->
  Z.of_nat (length structs) = count /\ cur' = cur + blocks_size structs.
Proof.
  unfold read_structs. intros H Hc.
  apply bind_Done in H as (fuel & s5 & Hf & H). step_in Hf.
  change (2 ^ 32) with 4294967296 in Hc.
  destruct (Z.eq_dec count 4294967295) as [->|Hne].
  - exfalso. revert H. apply read_structs_loop_max.
    change (2 ^ 32) with 4294967296. lia.
  - apply read_structs_loop_count in H as (new & -> & Hlen & ->);
      [|lia|change (2 ^ 32) with 4294967296; lia].
    simpl. split; [lia|reflexivity].
Qed.

(** X13. When the decoder completes, it has built exactly
    [structureCount] structures, and its cursor stands after their
    blocks: at the end of the header plus, for each structure, the size
    of a structure record and of as many field and constant records as
    the structure has fields and constants. *)
Theorem decode_builds_structureCount_structures host swapsNeeded s structs
    cur' s' :
  decode host swapsNeeded s = Done (structs, cur') s' ->
  exists count,
    load_u32 host (blobHdrV1 s) BlobHeaderV1.structureCount = Some count
    /\ Z.of_nat (length structs) = count
    /\ cur' = BlobHeaderV1.sizeof + blocks_size structs.
Proof.
  intros H.
  destruct (decode_steps _ _ _ _ _ _ H)
    as (sds & stds & count & s1 & _ & _ & Hcount & _ & Hstructs).
  exists count. split; [exact Hcount|].
  apply (read_structs_count _ _ _ _ _ _ _ _ _ Hstructs).
  exact (load_u32_bound _ _ _ _ Hcount).
Qed.

Lemma decode_builds_structureCount_structures_witness :
  decode LittleEndian true (loaded LittleEndian (zoo BigEndian))
  = Done (zoo_decoded, 116)
      (final_state (decode LittleEndian true)
         (loaded LittleEndian (zoo BigEndian)))
  /\ load_u32 LittleEndian (blobHdrV1 (loaded LittleEndian (zoo BigEndian)))
       BlobHeaderV1.structureCount = Some 3
  /\ 116 = BlobHeaderV1.sizeof + blocks_size zoo_decoded.
Proof.
  assert (H : decode LittleEndian true (loaded LittleEndian (zoo BigEndian))
              = Done (zoo_decoded, 116)
                  (final_state (decode LittleEndian true)
                     (loaded LittleEndian (zoo BigEndian))))
    by (vm_compute; reflexivity).
  split; [exact H|].
  destruct (decode_builds_structureCount_structures _ _ _ _ _ _ H)
    as (count & H1 & H2 & H3).
  split; [|exact H3]. rewrite H1, <- H2. reflexivity.
Defined.

(** ** The shape of the output (lines 220-410) *)

Lemma decode_output host swapsNeeded s structs cur' s' :
  decode host swapsNeeded s = Done (structs, cur') s' ->
  exists lines,
    output s' = output s ++ Out_strings_title :: lines
    /\ Forall (fun e => exists n off len data, e = Out_string n off len data)
         lines.
Proof.
  unfold decode. intros H. do 5 step_in H.
  step_in Hs. step_in Hs0. step_in Hs1. step_in Hs2.
  destruct (read_strings_lines _ _ _ _ _ _ _ Hs3)
    as (es & lines & _ & Hout & Hlen & Hall).
  apply read_structs_Done in H as (_ & _ & Ho & _).
  exists lines. split.
  - rewrite Ho, Hout. simpl. rewrite <- app_assoc. reflexivity.
  - apply Forall_lookup. intros i e Hi.
    destruct (lookup_lt_is_Some_2 es i) as [a Ha].
    { rewrite <- Hlen. eapply lookup_lt_Some. exact Hi. }
    destruct (Hall i a Ha) as (len & data & L & _).
    rewrite L in Hi. injection Hi as <-. eauto.
Qed.

(** X14. When the program exits with 0, it has printed the header
    line, the title of the strings, one line for each string, the title
    of the structures, and one block for each of the structures that the
    decoder built from the bytes of the file: as many blocks as the
    header declares structures, in the order of the sort, so that no
    structure is reported before one that [compareStructs] puts before
    it. *)
Theorem main_report_shape host file s' :
  main host file = Done 0 s' ->
  exists swapsNeeded hdr coreVersion sizeofBool sizeofUDATA bitfieldFormat
         sds stds count lines structs cur s1 sorted blocks,
    fix_byte_order host (mkState (fread file 20) [] [])
    = Done swapsNeeded (mkState hdr [] [])
    /\ decode host swapsNeeded
         (mkState hdr (fread file (BlobHeaderV1.sizeof + sds + stds))
            [Out_header coreVersion sizeofBool sizeofUDATA bitfieldFormat
               sds stds count])
       = Done (structs, cur) s1
    /\ output s'
       = Out_header coreVersion sizeofBool sizeofUDATA bitfieldFormat sds stds
           count
         :: Out_strings_title :: lines ++ Out_structs_title :: concat blocks
    /\ Forall (fun e => exists n off len data, e = Out_string n off len data)
         lines
    /\ Z.of_nat (length structs) = count
    /\ Permutation structs sorted
    /\ StronglySorted (not_before (blobBuffer s')) sorted
    /\ Forall2 (struct_block (blobBuffer s')) sorted blocks.
Proof.
  intros H.
  destruct (Z.ltb_spec (Z.of_nat (length file)) 20) as [Hlt|Hge];
    [rewrite main_short_header in H by assumption; discriminate|].
  destruct (read_header_full file Hge) as [_ L].
  destruct (main_cases host _ L)
    as (swapsNeeded & h' & cv & sb & su & bf & sds & stds & count
        & _ & Hfix & _ & _ & Hcount & Hall).
  destruct (Hall file eq_refl) as [Hshort Hlong].
  destruct (Z.ltb_spec (Z.of_nat (length file))
              (BlobHeaderV1.sizeof + sds + stds)) as [Hs|Hl];
    [rewrite (Hshort Hs) in H; discriminate|].
  rewrite (Hlong Hl) in H. clear Hshort Hlong Hall.
  unfold decode_and_report in H. step_in H. destruct v as [structs cur'].
  step_in H. injection H as <-.
  destruct (decode_output _ _ _ _ _ _ Hs) as (lines & Hout & Hlines).
  destruct (decode_steps _ _ _ _ _ _ Hs)
    as (sds' & stds' & count' & s1 & _ & _ & Hc & _ & Hstructs).
  simpl in Hout, Hc. rewrite Hcount in Hc. injection Hc as <-.
  destruct (read_structs_count _ _ _ _ _ _ _ _ _ Hstructs
              (load_u32_bound _ _ _ _ Hcount)) as [Hlen _].
  destruct (report_Done _ _ _ _ Hs0)
    as (sorted & blocks & Hsort & Hblocks & Hout' & Hbuf).
  destruct (sort_sorted _ _ _ Hsort) as [Hperm Hsorted].
  exists swapsNeeded, h', cv, sb, su, bf, sds, stds, count, lines, structs,
    cur', s, sorted, blocks.
  split; [exact Hfix|]. split; [exact Hs|].
  split; [rewrite Hout', Hout; reflexivity|].
  split; [exact Hlines|]. split; [exact Hlen|]. split; [exact Hperm|].
  rewrite Hbuf. split; [|exact Hblocks].
  apply Sorted_StronglySorted; [|exact Hsorted].
  intros a b c. apply not_before_trans.
Qed.

Lemma main_report_shape_witness :
  main LittleEndian (zoo BigEndian)
  = Done 0 (final_state (fun _ => main LittleEndian (zoo BigEndian))
              (buffer_state []))
  /\ exists lines (structs sorted : list Structure.t) blocks,
      output (final_state (fun _ => main LittleEndian (zoo BigEndian))
                (buffer_state []))
      = Out_header 1 1 8 1 96 48 3
        :: Out_strings_title :: lines ++ Out_structs_title :: concat blocks
      /\ length structs = 3%nat
      /\ Permutation structs sorted
      /\ length blocks = length sorted.
Proof.
  assert (H : main LittleEndian (zoo BigEndian)
              = Done 0 (final_state
                          (fun _ => main LittleEndian (zoo BigEndian))
                          (buffer_state [])))
    by (vm_compute; reflexivity).
  split; [exact H|].
  destruct (main_report_shape _ _ _ H)
    as (swapsNeeded & hdr & cv & sb & su & bf & sds & stds & count & lines
        & structs & cur & s1 & sorted & blocks & _ & _ & Hout & _ & Hlen
        & Hperm & _ & Hblocks).
  exists lines, structs, sorted, blocks.
  assert (E : head (output (final_state
                              (fun _ => main LittleEndian (zoo BigEndian))
                              (buffer_state [])))
              = Some (Out_header 1 1 8 1 96 48 3))
    by (vm_compute; reflexivity).
  rewrite Hout in E. injection E as -> -> -> -> -> -> ->.
  split; [exact Hout|]. split; [lia|]. split; [exact Hperm|].
  symmetry. exact (Forall2_length _ _ _ Hblocks).
Defined.

(** ** Decoding on a host of the other byte order (lines 253-362) *)

Section Transparent.
Variables (host : byte_order) (stringDataStart limit lo : Z).
Variables (m : memory) (es : list Z).
Hypothesis Hes : Forall (fun e => in_bounds m e 2 = true /\ limit <= e) es.
Hypothesis Hsorted : StronglySorted (fun a b => a + 2 <= b) es.

(** Below [limit] and from [cur] on, a buffer that differs from the
    blob by the swapped lengths and by swaps below [cur] holds the words
    of the blob... *)
Lemma swapped_buffer_words m1 cur o k a :
  same_outside (swap_lengths m es) m1 lo (cur - lo) ->
  cur <= a -> a + Z.of_nat k <= limit ->
  load_uint o k m1 a = load_uint o k m a.
Proof.
  intros Hinv Ha Hk.
  rewrite (load_uint_same_outside _ _ _ _ _ _ _ Hinv) by lia.
  apply load_uint_swap_lengths_other.
  eapply Forall_impl; [exact Hes|]. simpl. intros e [B He].
  split; [exact B|]. left. lia.
Qed.

(** ... and its string lengths read in the byte order of the host as
    those of the blob read in the other byte order. *)
Lemma swapped_buffer_lengths m1 cur e :
  same_outside (swap_lengths m es) m1 lo (cur - lo) ->
  cur <= limit -> In e es ->
  load_u16 host m1 e = load_u16 (opposite host) m e.
Proof.
  intros Hinv Hcur Hin.
  pose proof (proj1 (Forall_forall _ _) Hes e
                (proj2 (list_elem_of_In _ _) Hin)) as [B He].
  unfold load_u16.
  rewrite (load_uint_same_outside _ _ _ _ _ _ _ Hinv) by lia.
  assert (Hb : Forall (fun e => in_bounds m e 2 = true) es)
    by (eapply Forall_impl; [exact Hes|]; simpl; tauto).
  pose proof (load_u16_swap_lengths host es m Hb Hsorted) as Hl.
  rewrite Forall_forall in Hl. apply Hl. apply list_elem_of_In. exact Hin.
Qed.

Lemma read_struct_transparent cur s1 s2 st1 n1 s1' st2 n2 s2' :
  blobBuffer s2 = m ->
  same_outside (swap_lengths m es) (blobBuffer s1) lo (cur - lo) ->
  read_struct host true stringDataStart cur s1 = Done (st1, n1) s1' ->
  read_struct (opposite host) false stringDataStart cur s2
  = Done (st2, n2) s2' ->
  n1 <= limit -> refs_visited es st1 ->
  st1 = st2 /\ n1 = n2.
Proof.
  intros Hm Hinv H1 H2 Hlim (Vn & Vs & Vf & Vc).
  destruct (read_struct_lengths _ _ _ _ _ _ _ _ H1)
    as (Hn1 & _ & _ & _ & _ & (Ln1 & Ls1 & _ & _)).
  destruct (read_struct_lengths _ _ _ _ _ _ _ _ H2)
    as (Hn2 & _ & _ & _ & _ & (Ln2 & Ls2 & _ & _)).
  apply read_struct_Done in H1
    as (no1 & sn1 & fc1 & cc1 & Hno1 & Hsn1 & Hsz1 & Hfc1 & Hcc1 & Hname1 & _
        & Hsuper1 & _ & Lf1 & Lc1 & Hnext1 & _ & _ & _ & _ & Fs1 & Cs1).
  apply read_struct_Done in H2
    as (no2 & sn2 & fc2 & cc2 & Hno2 & Hsn2 & Hsz2 & Hfc2 & Hcc2 & Hname2 & _
        & Hsuper2 & _ & Lf2 & Lc2 & Hnext2 & _ & _ & _ & _ & Fs2 & Cs2).
  simpl file_order in *. rewrite Hm in *.
  pose proof (load_u32_bound _ _ _ _ Hfc1) as Rfc.
  pose proof (load_u32_bound _ _ _ _ Hcc1) as Rcc.
  assert (W : forall o k a, cur <= a -> a + Z.of_nat k <= n1 ->
                load_uint o k (blobBuffer s1) a = load_uint o k m a)
    by (intros; apply (swapped_buffer_words _ cur); [assumption|lia|lia]).
  assert (Lh : forall e, In e es ->
                 load_u16 host (blobBuffer s1) e
                 = load_u16 (opposite host) m e)
    by (intros; apply (swapped_buffer_lengths _ cur); [assumption|lia|auto]).
  assert (Ge : forall e, In e es -> limit <= e).
  { intros e He. rewrite Forall_forall in Hes.
    apply Hes. apply list_elem_of_In. exact He. }
  unfold load_u32, BlobStruct.nameOffset, BlobStruct.superName,
    BlobStruct.sizeOf, BlobStruct.fieldCount, BlobStruct.constCount in *.
  rewrite W in Hno1, Hsn1, Hsz1, Hfc1, Hcc1 by (simpl; lia).
  assert (no2 = no1) as -> by congruence.
  assert (sn2 = sn1) as -> by congruence.
  assert (fc2 = fc1) as -> by congruence.
  assert (cc2 = cc1) as -> by congruence.
  assert (Esize : Structure.size st1 = Structure.size st2) by congruence.
  assert (Ename : Structure.name st1 = Structure.name st2) by congruence.
  split; [|congruence].
  assert (Elen : Structure.nameLength st1 = Structure.nameLength st2).
  { destruct Ln1 as [_ L1]. destruct Ln2 as [_ L2].
    pose proof (Ge _ Vn).
    specialize (L1 ltac:(lia)). rewrite <- Ename in L2.
    specialize (L2 ltac:(lia)).
    rewrite (Lh _ Vn) in L1. congruence. }
  assert (Esuper : Structure.superName st1 = Structure.superName st2
                   /\ Structure.superNameLength st1
                      = Structure.superNameLength st2).
  { destruct (NO_SUPER_NAME =? sn1).
    - destruct Hsuper1 as [-> ->]. destruct Hsuper2 as [-> ->]. auto.
    - destruct Hsuper1 as [P1 _]. destruct Hsuper2 as [P2 _].
      split; [congruence|].
      destruct (Ls1 _ P1) as [_ L1]. destruct (Ls2 _ P2) as [_ L2].
      pose proof (Ge _ (Vs _ P1)).
      specialize (L1 ltac:(lia)). specialize (L2 ltac:(lia)).
      rewrite (Lh _ (Vs _ P1)) in L1. congruence. }
  destruct Esuper as [Esuper Eslen].
  assert (Efields : Structure.fields st1 = Structure.fields st2).
  { apply (list_eq_same_length _ _ (length (Structure.fields st1)));
      [lia|reflexivity|].
    intros k f1 f2 Hk Hf1 Hf2.
    destruct (Fs1 k f1 Hf1)
      as ((dn1 & dt1 & Hdn1 & Hdt1 & Hoff1 & En1 & Et1) & Fn1 & Ft1).
    destruct (Fs2 k f2 Hf2)
      as ((dn2 & dt2 & Hdn2 & Hdt2 & Hoff2 & En2 & Et2) & Fn2 & Ft2).
    simpl file_order in *.
    unfold load_u32, BlobField.declaredName, BlobField.declaredType,
      BlobField.offset in *.
    rewrite W in Hdn1, Hdt1, Hoff1 by (simpl; lia).
    assert (dn2 = dn1) as -> by congruence.
    assert (dt2 = dt1) as -> by congruence.
    rewrite Forall_forall in Vf.
    destruct (Vf f1 (list_elem_of_lookup_2 _ _ _ Hf1)) as [Vn1 Vt1].
    pose proof (Ge _ Vn1). pose proof (Ge _ Vt1).
    specialize (Fn1 ltac:(lia)). specialize (Ft1 ltac:(lia)).
    rewrite (Lh _ Vn1) in Fn1. rewrite (Lh _ Vt1) in Ft1.
    assert (En : Field.name f1 = Field.name f2) by congruence.
    assert (Et : Field.type f1 = Field.type f2) by congruence.
    rewrite <- En in Fn2. rewrite <- Et in Ft2.
    specialize (Fn2 ltac:(lia)). specialize (Ft2 ltac:(lia)).
    destruct f1, f2; simpl in *. f_equal; congruence. }
  assert (Econstants : Structure.constants st1 = Structure.constants st2).
  { apply (list_eq_same_length _ _ (length (Structure.constants st1)));
      [lia|reflexivity|].
    intros k c1 c2 Hk Hc1 Hc2.
    destruct (Cs1 k c1 Hc1) as ((cn1 & Hcn1 & Hv1 & En1) & Cn1).
    destruct (Cs2 k c2 Hc2) as ((cn2 & Hcn2 & Hv2 & En2) & Cn2).
    simpl file_order in *.
    unfold load_u32, load_u64, BlobConstant.name, BlobConstant.value in *.
    rewrite W in Hcn1, Hv1 by (simpl; lia).
    assert (cn2 = cn1) as -> by congruence.
    rewrite Forall_forall in Vc.
    pose proof (Vc c1 (list_elem_of_lookup_2 _ _ _ Hc1)) as Vn1.
    pose proof (Ge _ Vn1).
    specialize (Cn1 ltac:(lia)). rewrite (Lh _ Vn1) in Cn1.
    assert (En : Constant.name c1 = Constant.name c2) by congruence.
    rewrite <- En in Cn2. specialize (Cn2 ltac:(lia)).
    destruct c1, c2; simpl in *. f_equal; congruence. }
  destruct st1, st2; simpl in *. f_equal; assumption.
Qed.

End Transparent.

Section TransparentLoop.
Variables (host : byte_order) (stringDataStart limit lo : Z).
Variables (m : memory) (es : list Z) (structureCount : Z).
Hypothesis Hes : Forall (fun e => in_bounds m e 2 = true /\ limit <= e) es.
Hypothesis Hsorted : StronglySorted (fun a b => a + 2 <= b) es.

Lemma read_structs_loop_transparent fuel :
  forall cur i acc s1 s2 r1 c1 s1' r2 c2 s2',
  blobBuffer s2 = m ->
  same_outside (swap_lengths m es) (blobBuffer s1) lo (cur - lo) ->
  lo <= cur ->
  read_structs_loop fuel host true stringDataStart structureCount
    cur i acc s1 = Done (r1, c1) s1' ->
  read_structs_loop fuel (opposite host) false stringDataStart structureCount
    cur i acc s2 = Done (r2, c2) s2' ->
  c1 <= limit -> Forall (refs_visited es) r1 ->
  r1 = r2 /\ c1 = c2.
Proof.
  induction fuel as [|fuel IH];
    intros cur i acc s1 s2 r1 c1 s1' r2 c2 s2' Hm Hinv Hlo H1 H2 Hlim Hv;
    [discriminate|].
  cbn [read_structs_loop] in H1, H2.
  destruct (i <=? structureCount).
  - apply bind_Done in H1 as ([st1 n1] & s1a & Hr1 & H1).
    apply bind_Done in H2 as ([st2 n2] & s2a & Hr2 & H2).
    destruct (read_structs_loop_Done _ _ _ _ _ _ _ _ _ _ _ _ H1)
      as (new & -> & Hle & _).
    destruct (read_struct_lengths _ _ _ _ _ _ _ _ Hr1)
      as (Hn1 & _ & _ & _ & Hso1 & _).
    destruct (read_struct_lengths _ _ _ _ _ _ _ _ Hr2)
      as (_ & _ & _ & Hb2 & _ & _).
    assert (Hst : refs_visited es st1).
    { rewrite Forall_forall in Hv. apply Hv.
      rewrite !elem_of_app, list_elem_of_singleton. auto. }
    destruct (read_struct_transparent host stringDataStart limit lo m es
                Hes Hsorted _ _ _ _ _ _ _ _ _ Hm Hinv Hr1 Hr2 ltac:(lia) Hst)
      as [<- <-].
    assert (Hm' : blobBuffer s2a = m)
      by (rewrite Hb2 by reflexivity; exact Hm).
    assert (Hinv' : same_outside (swap_lengths m es) (blobBuffer s1a)
                      lo (n1 - lo)).
    { eapply same_outside_trans.
      - eapply same_outside_weaken; [exact Hinv|lia|lia].
      - eapply same_outside_weaken; [exact Hso1|lia|lia]. }
    exact (IH _ _ _ _ _ _ _ _ _ _ _ Hm' Hinv' ltac:(lia) H1 H2 Hlim Hv).
  - injection H1 as <- <- <-. injection H2 as <- <- <-. auto.
Qed.

End TransparentLoop.

(** X15. Decoding is transparent to the byte order of the host.  Take
    a blob whose structure blocks end before its string table and whose
    structures refer only to entries of the table.  Decoded on a host of
    the other byte order, with swaps, and on a host of its own byte
    order, without, it gives the same structures, the same cursor and
    the same lines. *)
Theorem decode_byte_order_transparent host s1 s2 sds stds count es
    structs1 cur1 s1' structs2 cur2 s2' :
  blobBuffer s1 = blobBuffer s2 -> output s1 = output s2 ->
  load_u32 host (blobHdrV1 s1) BlobHeaderV1.structDataSize = Some sds ->
  load_u32 host (blobHdrV1 s1) BlobHeaderV1.stringTableDataSize = Some stds ->
  load_u32 host (blobHdrV1 s1) BlobHeaderV1.structureCount = Some count ->
  load_u32 (opposite host) (blobHdrV1 s2) BlobHeaderV1.structDataSize
  = Some sds ->
  load_u32 (opposite host) (blobHdrV1 s2) BlobHeaderV1.stringTableDataSize
  = Some stds ->
  load_u32 (opposite host) (blobHdrV1 s2) BlobHeaderV1.structureCount
  = Some count ->
  string_entries (opposite host) (blobBuffer s1)
    (BlobHeaderV1.sizeof + sds + stds) (BlobHeaderV1.sizeof + sds) es ->
  decode host true s1 = Done (structs1, cur1) s1' ->
  decode (opposite host) false s2 = Done (structs2, cur2) s2' ->
  cur1 <= BlobHeaderV1.sizeof + sds ->
  Forall (refs_visited es) structs1 ->
  structs1 = structs2 /\ cur1 = cur2 /\ output s1' = output s2'.
Proof.
  intros Hbuf Hout A1 A2 A3 B1 B2 B3 He H1 H2 Hlim Hv.
  destruct (decode_steps _ _ _ _ _ _ H1)
    as (sds1 & stds1 & count1 & s1a & C1 & C2 & C3 & Hstr1 & Hst1).
  destruct (decode_steps _ _ _ _ _ _ H2)
    as (sds2 & stds2 & count2 & s2a & D1 & D2 & D3 & Hstr2 & Hst2).
  assert (sds1 = sds) as -> by congruence.
  assert (stds1 = stds) as -> by congruence.
  assert (count1 = count) as -> by congruence.
  assert (sds2 = sds) as -> by congruence.
  assert (stds2 = stds) as -> by congruence.
  assert (count2 = count) as -> by congruence.
  set (m := blobBuffer s2) in *.
  destruct (read_strings_Done _ _ _ _ _ _ _ Hstr1) as (es1 & He1 & Hb1 & _).
  destruct (read_strings_Done _ _ _ _ _ _ _ Hstr2) as (es2 & He2 & Hb2 & _).
  simpl in He1, Hb1, He2, Hb2. rewrite Hbuf in He, He1, Hb1. fold m in Hb2.
  assert (es1 = es) as -> by (eapply string_entries_det; eassumption).
  assert (es2 = es) as -> by (eapply string_entries_det; eassumption).
  destruct (string_entries_bounds _ _ _ _ _ He) as [Hbounds Hsorted].
  assert (Hes : Forall (fun e => in_bounds m e 2 = true
                                 /\ BlobHeaderV1.sizeof + sds <= e) es)
    by (eapply Forall_impl; [exact Hbounds|]; simpl; tauto).
  (* the lines of the strings *)
  destruct (read_strings_lines _ _ _ _ _ _ _ Hstr1)
    as (es1 & lines1 & He1' & Ho1 & Hl1 & Hall1).
  destruct (read_strings_lines _ _ _ _ _ _ _ Hstr2)
    as (es2 & lines2 & He2' & Ho2 & Hl2 & Hall2).
  simpl in He1', Ho1, Hall1, He2', Ho2, Hall2.
  rewrite Hbuf in He1', Hall1. fold m in He2', Hall2, He1', Hall1.
  assert (es1 = es) as -> by (eapply string_entries_det; eassumption).
  assert (es2 = es) as -> by (eapply string_entries_det; eassumption).
  assert (Elines : lines1 = lines2).
  { apply (list_eq_same_length _ _ (length es)); [assumption..|].
    intros i x y Hi Hx Hy.
    destruct (lookup_lt_is_Some_2 es i Hi) as [e Hei].
    destruct (Hall1 i e Hei) as (len1 & data1 & L1 & M1 & N1).
    destruct (Hall2 i e Hei) as (len2 & data2 & L2 & M2 & N2).
    assert (len2 = len1) as -> by congruence.
    assert (data2 = data1) as -> by congruence.
    congruence. }
  (* the structures *)
  pose proof (read_structs_Done _ _ _ _ _ _ _ _ _ Hst1) as (_ & _ & Hos1 & _).
  pose proof (read_structs_Done _ _ _ _ _ _ _ _ _ Hst2) as (_ & _ & Hos2 & _).
  unfold read_structs in Hst1, Hst2.
  apply bind_Done in Hst1 as (fuel1 & s1b & Hf1 & Hst1).
  apply bind_Done in Hst2 as (fuel2 & s2b & Hf2 & Hst2).
  step_in Hf1. step_in Hf2.
  rewrite Hb1, swap_lengths_length, <- Hb2 in Hst1.
  destruct (read_structs_loop_transparent host (BlobHeaderV1.sizeof + sds)
              (BlobHeaderV1.sizeof + sds) BlobHeaderV1.sizeof m es count
              Hes Hsorted _ _ _ _ _ _ _ _ _ _ _ _ Hb2
              ltac:(rewrite Hb1; apply same_outside_refl)
              ltac:(apply Z.le_refl) Hst1 Hst2 Hlim Hv)
    as [E1 E2].
  split; [exact E1|]. split; [exact E2|].
  rewrite Hos1, Hos2, Ho1, Ho2, Elines, Hout. reflexivity.
Qed.

Lemma decode_byte_order_transparent_witness :
  decode LittleEndian true (loaded LittleEndian (zoo BigEndian))
  = Done (zoo_decoded, 116)
      (final_state (decode LittleEndian true)
         (loaded LittleEndian (zoo BigEndian)))
  /\ decode BigEndian false (loaded BigEndian (zoo BigEndian))
     = Done (zoo_decoded, 116)
         (final_state (decode BigEndian false)
            (loaded BigEndian (zoo BigEndian)))
  /\ output (final_state (decode LittleEndian true)
               (loaded LittleEndian (zoo BigEndian)))
     = output (final_state (decode BigEndian false)
                 (loaded BigEndian (zoo BigEndian))).
Proof.
  assert (H1 : decode LittleEndian true (loaded LittleEndian (zoo BigEndian))
               = Done (zoo_decoded, 116)
                   (final_state (decode LittleEndian true)
                      (loaded LittleEndian (zoo BigEndian))))
    by (vm_compute; reflexivity).
  assert (H2 : decode BigEndian false (loaded BigEndian (zoo BigEndian))
               = Done (zoo_decoded, 116)
                   (final_state (decode BigEndian false)
                      (loaded BigEndian (zoo BigEndian))))
    by (vm_compute; reflexivity).
  assert (Hv : Forall (refs_visited [116; 122; 130; 134; 142; 148; 156])
                 zoo_decoded).
  { unfold zoo_decoded, refs_visited.
    repeat first [apply Forall_nil | apply Forall_cons | split];
      try (intros p Hp; inversion Hp; subst p); simpl; tauto. }
  split; [exact H1|]. split; [exact H2|].
  exact (proj2 (proj2
    (decode_byte_order_transparent LittleEndian
       (loaded LittleEndian (zoo BigEndian)) (loaded BigEndian (zoo BigEndian))
       96 48 3 [116; 122; 130; 134; 142; 148; 156] _ _ _ _ _ _
       eq_refl eq_refl eq_refl eq_refl eq_refl eq_refl eq_refl eq_refl
       (zoo_string_entries BigEndian) H1 H2 ltac:(discriminate) Hv))).
Defined.

(** * The two loops of the decoder *)

(** ** The enumeration of the string table (lines 253-281) *)

(** What [%.*s] prints is the C string of the bytes within the
    precision. *)
Lemma printf_s_c_string s precision data :
  printf_s s precision = Some data ->
  data = c_string (take (Z.to_nat precision) s).
Proof.
  revert precision data.
  induction s as [|c t IH]; intros p data; cbn [printf_s].
  - destruct (p <=? 0); [|discriminate]. intros [= <-].
    rewrite take_nil. reflexivity.
  - destruct (Z.leb_spec p 0) as [Hp|Hp].
    + intros [= <-]. replace (Z.to_nat p) with 0%nat by lia. reflexivity.
    + replace (Z.to_nat p) with (S (Z.to_nat (p - 1))) by lia.
      cbn [take c_string]. destruct (is_nul c).
      * intros [= <-]. reflexivity.
      * destruct (printf_s t (p - 1)) as [d|] eqn:E; [|discriminate].
        intros [= <-]. f_equal. apply IH. exact E.
Qed.

Lemma c_string_no_nul s :
  Forall (fun c => is_nul c = false) s -> c_string s = s.
Proof.
  induction 1 as [|c t Hc _ IH]; [reflexivity|].
  cbn [c_string]. rewrite Hc, IH. reflexivity.
Qed.

(** The values that the cursor takes over a table: the addresses of the
    entries, and the address at which the loop ends. *)
Lemma string_entries_cursors o m stringDataEnd cur es :
  string_entries o m stringDataEnd cur es ->
  exists final,
    stringDataEnd <= final
    /\ (es ++ [final]) !! 0%nat = Some cur
    /\ forall (i : nat) e, es !! i = Some e ->
       e < stringDataEnd
       /\ exists len,
           load_u16 o m e = Some len
           /\ (es ++ [final]) !! S i = Some (e + (len + 2 + len mod 2)).
Proof.
  induction 1 as [cur Hge|cur len rest Hlt Hlen _ (final & Hf & H0 & Hall)].
  - exists cur. split; [exact Hge|]. split; [reflexivity|].
    intros i e Hi. rewrite lookup_nil in Hi. discriminate.
  - exists final. split; [exact Hf|]. split; [reflexivity|].
    intros [|i] e Hi.
    + injection Hi as <-. split; [exact Hlt|].
      exists len. split; [exact Hlen|exact H0].
    + exact (Hall i e Hi).
Qed.

(** C7. The pass over the string table goes from entry to entry, from
    the start of the table until its cursor reaches the end of the
    table.  Each entry is a 16-bit length (swapped first when swaps are
    needed) followed by that many bytes of content: the pass prints the
    content up to a first NUL (all of it when no byte is NUL, nothing for
    a length of 0) and moves the cursor by [length + 2 + length mod 2].
    One padding byte is skipped after a content of odd length and none
    after a content of even length, so that an empty string takes two
    bytes.  A table whose entries lie inside the buffer is enumerated in
    this way. *)
Theorem string_table_enumeration host swapsNeeded stringDataStart
    stringDataEnd s :
  (forall es,
     0 <= stringDataStart ->
     string_entries (file_order host swapsNeeded) (blobBuffer s)
       stringDataEnd stringDataStart es ->
     Forall (string_entry_ok (file_order host swapsNeeded) (blobBuffer s))
       es ->
     exists s',
       read_strings host swapsNeeded stringDataStart stringDataEnd s
       = Done tt s')
  /\ (forall u s',
      read_strings host swapsNeeded stringDataStart stringDataEnd s
      = Done u s' ->
      exists (cursors : list Z) (lines : list event),
        output s' = output s ++ lines
        /\ length cursors = S (length lines)
        /\ cursors !! 0%nat = Some stringDataStart
        /\ (exists final, last cursors = Some final /\ stringDataEnd <= final)
        /\ forall (i : nat) cur,
           (i < length lines)%nat -> cursors !! i = Some cur ->
           cur < stringDataEnd
           /\ exists len data,
               load_u16 (file_order host swapsNeeded) (blobBuffer s) cur
               = Some len
               /\ 0 <= len < 65536
               /\ lines !! i
                  = Some (Out_string (wrap32 (1 + Z.of_nat i))
                            (cur - stringDataStart) len data)
               /\ data
                  = c_string
                      (take (Z.to_nat len)
                         (bytes_from (blobBuffer s) (cur + BlobString.data)))
               /\ (forall content,
                     load_bytes (blobBuffer s) (cur + BlobString.data)
                       (Z.to_nat len) = Some content ->
                     Forall (fun c => is_nul c = false) content ->
                     data = content)
               /\ cursors !! S i = Some (cur + len + 2 + len mod 2)
               /\ (Z.odd len = true ->
                   cursors !! S i = Some (cur + 2 + len + 1))
               /\ (Z.even len = true -> cursors !! S i = Some (cur + 2 + len))
               /\ (len = 0 -> data = [] /\ cursors !! S i = Some (cur + 2))).
Proof.
  split.
  - intros es H0 He Hok.
    destruct (read_strings_total _ _ _ _ _ _ H0 He Hok) as (s' & H & _).
    exists s'. exact H.
  - intros u s' H.
    destruct (read_strings_lines _ _ _ _ _ _ _ H)
      as (es & lines & He & Hout & Hlen & Hall).
    destruct (string_entries_cursors _ _ _ _ _ He) as (final & Hf & H0 & Hch).
    exists (es ++ [final]), lines.
    split; [exact Hout|].
    split; [rewrite length_app; simpl; lia|].
    split; [exact H0|].
    split; [exists final; split; [apply last_snoc|exact Hf]|].
    intros i cur Hi Hc. rewrite lookup_app_l in Hc by lia.
    destruct (Hch i cur Hc) as (Hlt & len & Hl & Hn).
    destruct (Hall i cur Hc) as (len' & data & L1 & L2 & L3).
    assert (len' = len) as -> by congruence.
    split; [exact Hlt|]. exists len, data.
    assert (R : 0 <= len < 65536) by (apply (load_uint_bound _ 2 _ _ _ Hl)).
    pose proof (printf_s_c_string _ _ _ L3) as Hdata.
    replace (cur + (len + 2 + len mod 2)) with (cur + len + 2 + len mod 2)
      in Hn by lia.
    split; [exact Hl|]. split; [exact R|]. split; [exact L1|].
    split; [exact Hdata|].
    split; [|split; [exact Hn|split; [|split]]].
    + intros content Hcontent Hnul. unfold load_bytes in Hcontent.
      destruct (in_bounds (blobBuffer s) (cur + BlobString.data)
                  (Z.of_nat (Z.to_nat len))) eqn:B; [|discriminate].
      injection Hcontent as <-. rewrite Hdata. unfold bytes_from.
      replace (in_bounds (blobBuffer s) (cur + BlobString.data) 0) with true
        by (symmetry; bounds; lia).
      apply c_string_no_nul. exact Hnul.
    + intros Hodd. rewrite Hn, Zmod_odd, Hodd. f_equal. lia.
    + intros Heven. rewrite Hn, Zmod_even, Heven. f_equal. lia.
    + intros ->. split; [rewrite Hdata; reflexivity|].
      rewrite Hn. change (0 mod 2) with 0. f_equal. lia.
Qed.

Lemma string_table_enumeration_witness :
  (0 <= 0
   /\ string_entries BigEndian (odd_empty_even BigEndian) 18 0 [0; 6; 8; 12]
   /\ Forall (string_entry_ok BigEndian (odd_empty_even BigEndian))
        [0; 6; 8; 12]
   /\ exists s',
       read_strings LittleEndian true 0 18
         (buffer_state (odd_empty_even BigEndian)) = Done tt s')
  /\ read_strings LittleEndian true 0 18
       (buffer_state (odd_empty_even BigEndian))
     = Done tt (final_state (read_strings LittleEndian true 0 18)
                  (buffer_state (odd_empty_even BigEndian)))
  /\ output (final_state (read_strings LittleEndian true 0 18)
               (buffer_state (odd_empty_even BigEndian)))
     = [Out_string 1 0 3 (ascii "abc"); Out_string 2 6 0 [];
        Out_string 3 8 2 (ascii "hi"); Out_string 4 12 3 [x61]]
  /\ exists cursors : list Z,
      cursors !! 0%nat = Some 0
      /\ cursors !! 1%nat = Some 6
      /\ cursors !! 2%nat = Some 8
      /\ cursors !! 3%nat = Some 12
      /\ cursors !! 4%nat = Some 18
      /\ length cursors = 5%nat.
Proof.
  assert (P : 0 <= 0) by lia.
  assert (He : string_entries BigEndian (odd_empty_even BigEndian) 18 0
                 [0; 6; 8; 12]).
  { apply (entries_next _ _ _ 0 3); [reflexivity..|].
    apply (entries_next _ _ _ 6 0); [reflexivity..|].
    apply (entries_next _ _ _ 8 2); [reflexivity..|].
    apply (entries_next _ _ _ 12 3); [reflexivity..|].
    apply entries_end. discriminate. }
  assert (Hok : Forall (string_entry_ok BigEndian (odd_empty_even BigEndian))
                  [0; 6; 8; 12]).
  { repeat (apply Forall_cons; split;
            [eexists; split; vm_compute; reflexivity|]).
    constructor. }
  assert (H : read_strings LittleEndian true 0 18
                (buffer_state (odd_empty_even BigEndian))
              = Done tt (final_state (read_strings LittleEndian true 0 18)
                           (buffer_state (odd_empty_even BigEndian))))
    by (vm_compute; reflexivity).
  assert (E : output (final_state (read_strings LittleEndian true 0 18)
                        (buffer_state (odd_empty_even BigEndian)))
              = [Out_string 1 0 3 (ascii "abc"); Out_string 2 6 0 [];
                 Out_string 3 8 2 (ascii "hi"); Out_string 4 12 3 [x61]])
    by (vm_compute; reflexivity).
  destruct (string_table_enumeration LittleEndian true 0 18
              (buffer_state (odd_empty_even BigEndian))) as [Ha Hb].
  split; [|split; [exact H|split; [exact E|]]].
  - split; [exact P|]. split; [exact He|]. split; [exact Hok|].
    exact (Ha _ P He Hok).
  - destruct (Hb _ _ H) as (cursors & lines & Hout & Hlen & H0 & _ & Hall).
    rewrite E in Hout. simpl in Hout. subst lines.
    exists cursors.
    destruct (Hall 0%nat 0 ltac:(simpl; lia) H0)
      as (_ & len0 & d0 & L0 & _ & _ & _ & _ & N0 & _).
    vm_compute in L0. injection L0 as <-.
    change (0 + 3 + 2 + 3 mod 2) with 6 in N0.
    destruct (Hall 1%nat 6 ltac:(simpl; lia) N0)
      as (_ & len1 & d1 & L1 & _ & _ & _ & _ & _ & _ & _ & Z1).
    vm_compute in L1. injection L1 as <-.
    destruct (Z1 eq_refl) as [_ N1]. change (6 + 2) with 8 in N1.
    destruct (Hall 2%nat 8 ltac:(simpl; lia) N1)
      as (_ & len2 & d2 & L2 & _ & _ & _ & _ & _ & _ & V2 & _).
    vm_compute in L2. injection L2 as <-.
    pose proof (V2 eq_refl) as N2. change (8 + 2 + 2) with 12 in N2.
    destruct (Hall 3%nat 12 ltac:(simpl; lia) N2)
      as (_ & len3 & d3 & L3 & _ & _ & _ & _ & _ & O3 & _).
    vm_compute in L3. injection L3 as <-.
    pose proof (O3 eq_refl) as N3. change (12 + 2 + 3 + 1) with 18 in N3.
    repeat split; assumption.
Defined.

(** ** The walk over the structure blocks (lines 294-362) *)

Section Blocks.
Variables (host : byte_order) (swapsNeeded : bool).
Variables (stringDataStart structureCount lo : Z) (m : memory).

(** The walker has swapped only records before its cursor: every block
    from the cursor on is decoded as it lies in [m], the buffer before
    the walk. *)
Lemma read_structs_loop_blocks fuel : forall cur i acc s structs cur' s',
  read_structs_loop fuel host swapsNeeded stringDataStart structureCount
    cur i acc s = Done (structs, cur') s' ->
  same_outside m (blobBuffer s) lo (cur - lo) -> lo <= cur ->
  exists new starts,
    structs = acc ++ new
    /\ length starts = length new
    /\ (starts ++ [cur']) !! 0%nat = Some cur
    /\ forall (k : nat) st a, new !! k = Some st -> starts !! k = Some a ->
       exists next,
         (starts ++ [cur']) !! S k = Some next
         /\ block_decoded (file_order host swapsNeeded) m stringDataStart
              a st next.
Proof.
  induction fuel as [|fuel IH];
    intros cur i acc s structs cur' s' H Hinv Hlo; [discriminate|].
  cbn [read_structs_loop] in H.
  destruct (i <=? structureCount).
  - apply bind_Done in H as ([st next] & s1 & Hr & H).
    destruct (read_struct_Done _ _ _ _ _ _ _ _ Hr)
      as (nameOffset & superName & fc & cc & _ & _ & _ & Hfc & Hcc & _ & _ & _
          & _ & Lf & Lc & Hnext & _ & _ & _ & Hso & Fs & Cs).
    pose proof (load_uint_nonneg _ _ _ _ _ Hfc) as Pfc.
    pose proof (load_uint_nonneg _ _ _ _ _ Hcc) as Pcc.
    assert (Hinv' : same_outside m (blobBuffer s1) lo (next - lo)).
    { eapply same_outside_trans.
      - eapply same_outside_weaken; [exact Hinv|lia|lia].
      - eapply same_outside_weaken; [exact Hso|lia|lia]. }
    destruct (IH _ _ _ _ _ _ _ H Hinv' ltac:(lia))
      as (new & starts & -> & Hlen & H0 & Hall).
    exists (st :: new), (cur :: starts).
    split; [rewrite <- app_assoc; reflexivity|].
    split; [simpl; congruence|]. split; [reflexivity|].
    intros [|k] st' a Hst Ha.
    + injection Hst as <-. injection Ha as <-.
      exists next. split; [exact H0|].
      exists fc, cc.
      unfold BlobStruct.sizeof, BlobField.sizeof, BlobConstant.sizeof,
        BlobStruct.fieldCount, BlobStruct.constCount in *.
      unfold load_u32 in *.
      split; [rewrite <- Hfc; symmetry;
              apply (load_uint_same_outside _ _ _ _ _ _ _ Hinv); lia|].
      split; [rewrite <- Hcc; symmetry;
              apply (load_uint_same_outside _ _ _ _ _ _ _ Hinv); lia|].
      split; [exact Lf|]. split; [exact Lc|].
      split; [|split; [|lia]].
      * intros j f Hj.
        apply (field_decoded_frame host swapsNeeded m (blobBuffer s)
                 stringDataStart next lo (cur - lo)); [exact Hinv|lia|lia|].
        apply (Fs j f Hj).
      * intros j c Hj.
        apply (constant_decoded_frame host swapsNeeded m (blobBuffer s)
                 stringDataStart next lo (cur - lo)); [exact Hinv|lia|lia|].
        apply (Cs j c Hj).
    + exact (Hall k st' a Hst Ha).
  - injection H as <- <- <-. exists [], [].
    split; [rewrite app_nil_r; reflexivity|].
    split; [reflexivity|]. split; [reflexivity|].
    intros k st a Hst. rewrite lookup_nil in Hst. discriminate.
Qed.

End Blocks.

(** C2. The walker goes from structure block to structure block, once
    for each of the [structureCount] structures.  For every structure
    record it reads, after the record, as many field records as the
    [fieldCount] of the record and then as many constant records as its
    [constCount]: the k-th field is the record at [a + 20 + 12 k], the
    k-th constant the record at [a + 20 + 12 fieldCount + 12 k], and the
    cursor moves to
    [a + sizeof(BlobStruct) + fieldCount * sizeof(BlobField)
     + constCount * sizeof(BlobConstant)],
    where the next structure record is read.  With two fields and one
    constant that is 56 bytes after the start of the record.  Blocks
    that lie inside the buffer, with the strings they refer to, are
    walked in this way. *)
Theorem struct_cursor_discipline host swapsNeeded stringDataStart
    structureCount cur s :
  (forall stop,
     struct_blocks (file_order host swapsNeeded) (blobBuffer s)
       stringDataStart cur (Z.to_nat structureCount) stop ->
     0 <= cur -> 0 <= structureCount < 4294967295 ->
     exists structs s',
       read_structs host swapsNeeded stringDataStart structureCount cur s
       = Done (structs, stop) s')
  /\ (forall structs cur' s',
      read_structs host swapsNeeded stringDataStart structureCount cur s
      = Done (structs, cur') s' ->
      0 <= structureCount < 2 ^ 32 ->
      exists cursors : list Z,
        Z.of_nat (length structs) = structureCount
        /\ length cursors = S (length structs)
        /\ cursors !! 0%nat = Some cur
        /\ last cursors = Some cur'
        /\ forall (i : nat) st a,
           structs !! i = Some st -> cursors !! i = Some a ->
           exists fc cc,
             load_u32 (file_order host swapsNeeded) (blobBuffer s)
               (a + BlobStruct.fieldCount) = Some fc
             /\ load_u32 (file_order host swapsNeeded) (blobBuffer s)
                  (a + BlobStruct.constCount) = Some cc
             /\ Z.of_nat (length (Structure.fields st)) = fc
             /\ Z.of_nat (length (Structure.constants st)) = cc
             /\ (forall (k : nat) f, Structure.fields st !! k = Some f ->
                 field_at (file_order host swapsNeeded) (blobBuffer s)
                   stringDataStart
                   (a + BlobStruct.sizeof + BlobField.sizeof * Z.of_nat k) f)
             /\ (forall (k : nat) c, Structure.constants st !! k = Some c ->
                 constant_at (file_order host swapsNeeded) (blobBuffer s)
                   stringDataStart
                   (a + BlobStruct.sizeof + BlobField.sizeof * fc
                    + BlobConstant.sizeof * Z.of_nat k) c)
             /\ cursors !! S i
                = Some (a + BlobStruct.sizeof + fc * BlobField.sizeof
                        + cc * BlobConstant.sizeof)
             /\ (fc = 2 -> cc = 1 -> cursors !! S i = Some (a + 56))).
Proof.
  split; [intros stop; apply read_structs_total|].
  intros structs cur' s' H Hcount.
  destruct (read_structs_count _ _ _ _ _ _ _ _ _ H Hcount) as [Hlen _].
  unfold read_structs in H.
  apply bind_Done in H as (fuel & s0 & Hf & H). step_in Hf.
  destruct (read_structs_loop_blocks host swapsNeeded stringDataStart
              structureCount cur (blobBuffer s) _ _ _ _ _ _ _ _ H
              ltac:(apply same_outside_refl) ltac:(apply Z.le_refl))
    as (new & starts & Hnew & Hstarts & H0 & Hall).
  simpl in Hnew. subst new.
  exists (starts ++ [cur']).
  split; [exact Hlen|].
  split; [rewrite length_app; simpl; lia|].
  split; [exact H0|]. split; [apply last_snoc|].
  intros i st a Hst Ha.
  assert (Hi : (i < length starts)%nat)
    by (rewrite Hstarts; eapply lookup_lt_Some; exact Hst).
  rewrite lookup_app_l in Ha by exact Hi.
  destruct (Hall i st a Hst Ha)
    as (next & Hn & fc & cc & Hfc & Hcc & Lf & Lc & Fs & Cs & ->).
  exists fc, cc. do 6 (split; [assumption|]).
  split; [exact Hn|].
  intros -> ->. rewrite Hn. f_equal.
  unfold BlobStruct.sizeof, BlobField.sizeof, BlobConstant.sizeof. lia.
Qed.

Lemma struct_cursor_discipline_witness :
  (struct_blocks LittleEndian (zoo LittleEndian) 116 20 3 116
   /\ 0 <= 20 /\ 0 <= 3 < 4294967295
   /\ exists structs s',
       read_structs LittleEndian false 116 3 20
         (buffer_state (zoo LittleEndian)) = Done (structs, 116) s')
  /\ read_structs LittleEndian false 116 3 20
       (buffer_state (zoo LittleEndian))
     = Done (zoo_decoded, 116) (buffer_state (zoo LittleEndian))
  /\ 0 <= 3 < 2 ^ 32
  /\ exists cursors : list Z,
      cursors !! 0%nat = Some 20
      /\ cursors !! 1%nat = Some 76
      /\ cursors !! 2%nat = Some 96
      /\ cursors !! 3%nat = Some 116
      /\ last cursors = Some 116
      /\ length cursors = 4%nat.
Proof.
  assert (H : read_structs LittleEndian false 116 3 20
                (buffer_state (zoo LittleEndian))
              = Done (zoo_decoded, 116) (buffer_state (zoo LittleEndian)))
    by (vm_compute; reflexivity).
  assert (P : 0 <= 20) by lia.
  assert (Q : 0 <= 3 < 4294967295) by lia.
  assert (R : 0 <= 3 < 2 ^ 32) by (change (2 ^ 32) with 4294967296; lia).
  destruct (struct_cursor_discipline LittleEndian false 116 3 20
              (buffer_state (zoo LittleEndian))) as [Ha Hb].
  split; [|split; [exact H|split; [exact R|]]].
  - split; [exact (zoo_struct_blocks LittleEndian)|].
    split; [exact P|]. split; [exact Q|].
    exact (Ha 116 (zoo_struct_blocks LittleEndian) P Q).
  - destruct (Hb _ _ _ H R) as (cursors & _ & Hlen & H0 & Hlast & Hall).
    exists cursors.
    destruct (Hall 0%nat _ 20 eq_refl H0)
      as (fc0 & cc0 & F0 & C0 & _ & _ & _ & _ & _ & N0).
    vm_compute in F0. injection F0 as <-.
    vm_compute in C0. injection C0 as <-.
    pose proof (N0 eq_refl eq_refl) as H1. change (20 + 56) with 76 in H1.
    destruct (Hall 1%nat _ 76 eq_refl H1)
      as (fc1 & cc1 & F1 & C1 & _ & _ & _ & _ & N1 & _).
    vm_compute in F1. injection F1 as <-.
    vm_compute in C1. injection C1 as <-.
    change (76 + BlobStruct.sizeof + 0 * BlobField.sizeof
            + 0 * BlobConstant.sizeof) with 96 in N1.
    destruct (Hall 2%nat _ 96 eq_refl N1)
      as (fc2 & cc2 & F2 & C2 & _ & _ & _ & _ & N2 & _).
    vm_compute in F2. injection F2 as <-.
    vm_compute in C2. injection C2 as <-.
    change (96 + BlobStruct.sizeof + 0 * BlobField.sizeof
            + 0 * BlobConstant.sizeof) with 116 in N2.
    repeat split; assumption.
Defined.
